(** * Meeting recorder: session controller and platform adapters

    A shallow embedding of the lifecycle logic of the meeting recorder
    (meeting-bot.js, whatsapp-watcher.js and the adapters under platforms/).

    Modelling conventions.
    - JavaScript strings are [string]s of 8-bit characters, the code units
      below 256.  On these [toLowerCase] works one character at a time: it
      lowers the letters A-Z and the capital letters 192-214 and 216-222
      of Latin-1, and leaves every other character alone.
    - Timestamps ([Date.now()]) and durations are integers ([Z]), in
      milliseconds.
    - Whatever the code asks of the browser or of an external process is
      supplied to the model as a value: a page snapshot for the adapters'
      probes, a script of call results for the controllers.  A call that can
      reject is given a [result].
    - The file system is a finite map from paths to files; its operations
      cannot fail in the model. *)

From Stdlib Require Import String Ascii List ZArith Lia Bool.
From Stdlib Require DecimalString DecimalZ.
Import ListNotations.

Local Open Scope list_scope.
Local Open Scope string_scope.

(* ================================================================== *)
(** * JavaScript string primitives used by the code *)
(* ================================================================== *)

Module JsString.

(** The double quote, for the literals that carry one. *)
Definition dq : string := String (ascii_of_nat 34) EmptyString.

(** An attribute selector or markup fragment [prefix"value"suffix]. *)
Definition quoted (prefix value suffix : string) : string :=
  prefix ++ dq ++ value ++ dq ++ suffix.

(** [s.startsWith(p)] *)
Fixpoint startsWith (s p : string) {struct p} : bool :=
  match p with
  | EmptyString => true
  | String c p' =>
      match s with
      | EmptyString => false
      | String d s' => Ascii.eqb c d && startsWith s' p'
      end
  end.

(** [s.includes(p)] *)
Fixpoint includes (s p : string) : bool :=
  startsWith s p ||
  match s with
  | EmptyString => false
  | String _ s' => includes s' p
  end.

(** [s.endsWith(p)] *)
Fixpoint endsWith (s p : string) : bool :=
  String.eqb s p ||
  match s with
  | EmptyString => false
  | String _ s' => endsWith s' p
  end.

Fixpoint drop (n : nat) (s : string) : string :=
  match n, s with
  | O, _ => s
  | S _, EmptyString => EmptyString
  | S n', String _ s' => drop n' s'
  end.

(** [s.replace(pat, rep)] with a string pattern: the first occurrence
    only. *)
Fixpoint replace (s pat rep : string) : string :=
  if startsWith s pat then rep ++ drop (String.length pat) s
  else match s with
       | EmptyString => EmptyString
       | String c s' => String c (replace s' pat rep)
       end.

(** The lower case of one character: the capital letters are A-Z (65-90)
    and, in the upper half, 192-214 and 216-222; the lower case of each is
    32 further on. *)
Definition lowerChar (c : ascii) : ascii :=
  let n := nat_of_ascii c in
  if ((65 <=? n) && (n <=? 90) || (192 <=? n) && (n <=? 214)
      || (216 <=? n) && (n <=? 222))%nat
  then ascii_of_nat (n + 32) else c.

(** [s.toLowerCase()] *)
Fixpoint toLowerCase (s : string) : string :=
  match s with
  | EmptyString => EmptyString
  | String c s' => String (lowerChar c) (toLowerCase s')
  end.

(** [path.basename(p)] of a path that does not end in a slash. *)
Fixpoint basename (p : string) : string :=
  match p with
  | EmptyString => EmptyString
  | String _ p' => if includes p "/" then basename p' else p
  end.

(** [!s] for a string: only the empty string is falsy. *)
Definition isEmpty (s : string) : bool :=
  match s with EmptyString => true | String _ _ => false end.

(** [list.some(x => s.includes(x))] in the shape of the adapters'
    [for (const indicator of indicators) if (s.includes(indicator)) ...]. *)
Definition containsAny (s : string) (indicators : list string) : bool :=
  existsb (includes s) indicators.

End JsString.

(* ================================================================== *)
(** * A regular-expression engine for the fragment the code builds *)
(* ================================================================== *)

Module Regex.

(** The syntax the sources reach: anchors, literal characters and a greedy
    [.*].  Without the [s] flag [.] refuses line terminators. *)
Inductive tok : Type :=
| Bol                 (* ^ *)
| Eol                 (* $ *)
| Lit (c : ascii)     (* c, or \c for a syntax character *)
| DotStar.            (* .* *)

Definition isSyntaxChar (c : ascii) : bool :=
  existsb (Ascii.eqb c) (list_ascii_of_string "^$\.*+?()[]{}|").

Definition isLineTerminator (c : ascii) : bool :=
  Ascii.eqb c (ascii_of_nat 10) || Ascii.eqb c (ascii_of_nat 13).

(** [new RegExp(src)] on that fragment; [None] is a source outside it. *)
Fixpoint compile (src : string) : option (list tok) :=
  match src with
  | EmptyString => Some []
  | String c rest =>
      if Ascii.eqb c "\" then
        match rest with
        | String d rest' =>
            if isSyntaxChar d
            then option_map (cons (Lit d)) (compile rest')
            else None
        | EmptyString => None
        end
      else if Ascii.eqb c "." then
        match rest with
        | String "*" rest' => option_map (cons DotStar) (compile rest')
        | _ => None
        end
      else if Ascii.eqb c "^" then option_map (cons Bol) (compile rest)
      else if Ascii.eqb c "$" then option_map (cons Eol) (compile rest)
      else if isSyntaxChar c then None
      else option_map (cons (Lit c)) (compile rest)
  end.

(** Does [ts] match a prefix of [s]?  [atStart] says whether [s] begins at
    index 0 of the input. *)
Fixpoint matchHere (ts : list tok) (atStart : bool) (s : string) : bool :=
  match ts with
  | [] => true
  | Bol :: ts' => atStart && matchHere ts' atStart s
  | Eol :: ts' => JsString.isEmpty s && matchHere ts' atStart s
  | Lit c :: ts' =>
      match s with
      | String d s' => Ascii.eqb c d && matchHere ts' false s'
      | EmptyString => false
      end
  | DotStar :: ts' =>
      (fix star (atStart : bool) (s : string) {struct s} : bool :=
         match s with
         | String d s' =>
             (negb (isLineTerminator d) && star false s')
             || matchHere ts' atStart s
         | EmptyString => matchHere ts' atStart s
         end) atStart s
  end.

Fixpoint searchFrom (ts : list tok) (atStart : bool) (s : string) : bool :=
  matchHere ts atStart s ||
  match s with
  | EmptyString => false
  | String _ s' => searchFrom ts false s'
  end.

(** [regex.test(s)] *)
Definition test (ts : list tok) (s : string) : bool := searchFrom ts true s.

End Regex.

(* ================================================================== *)
(** * platforms/whatsapp.js: allow list *)
(* ================================================================== *)

Module WhatsAppPlatform.
Import JsString.

(** [/[.+?^${}()|[\]\\]/]: the characters [_matchPattern] escapes. *)
Definition isEscaped (c : ascii) : bool :=
  existsb (Ascii.eqb c) (list_ascii_of_string ".+?^${}()|[]\").

(** [pattern.replace(/[.+?^${}()|[\]\\]/g, "\\$&")] *)
Fixpoint escapeRegex (p : string) : string :=
  match p with
  | EmptyString => EmptyString
  | String c p' =>
      if isEscaped c then String "\" (String c (escapeRegex p'))
      else String c (escapeRegex p')
  end.

(** [.replace(/\*/g, ".*")] *)
Fixpoint starToDotStar (p : string) : string :=
  match p with
  | EmptyString => EmptyString
  | String c p' =>
      if Ascii.eqb c "*" then String "." (String "*" (starToDotStar p'))
      else String c (starToDotStar p')
  end.

(** The source handed to [new RegExp]. *)
Definition regexSource (pattern : string) : string :=
  "^" ++ starToDotStar (escapeRegex pattern) ++ "$".

Definition _matchPattern (str pattern : string) : bool :=
  if String.eqb pattern "*" then true
  else if includes pattern "*" then
    match Regex.compile (regexSource pattern) with
    | Some regex => Regex.test regex str
    | None => false
    end
  else includes str pattern.

(** The two [for (const pattern of list)] loops of [isCallerAllowed]. *)
Fixpoint anyPatternMatches (callerLower : string) (patterns : list string)
  : bool :=
  match patterns with
  | [] => false
  | pattern :: rest =>
      if _matchPattern callerLower (toLowerCase pattern) then true
      else anyPatternMatches callerLower rest
  end.

Definition isCallerAllowed (caller : string) (allowList blockList : list string)
  : bool :=
  if isEmpty caller then Nat.eqb (List.length allowList) 0
  else
    let callerLower := toLowerCase caller in
    if anyPatternMatches callerLower blockList then false
    else if Nat.eqb (List.length allowList) 0 then true
    else anyPatternMatches callerLower allowList.

(** [normalizeUrl(url)] *)
Definition normalizeUrl (url : string) : string := "https://web.whatsapp.com".

(** A caller matches a pattern, the way [isCallerAllowed] tests it: both
    sides lowered. *)
Definition matchesPattern (caller pattern : string) : bool :=
  _matchPattern (toLowerCase caller) (toLowerCase pattern).

Definition matchesAny (caller : string) (patterns : list string) : bool :=
  existsb (matchesPattern caller) patterns.

(** What one character of a pattern becomes in the regular expression. *)
Definition tokenOf (c : ascii) : Regex.tok :=
  if Ascii.eqb c "*" then Regex.DotStar else Regex.Lit c.

End WhatsAppPlatform.

(* ================================================================== *)
(** * What a probe sees of the browser *)
(* ================================================================== *)

(** A call that can throw (or a promise that can reject). *)
Inductive result (A : Type) : Type :=
| Ok (a : A)
| Throws.
Arguments Ok {A} a.
Arguments Throws {A}.

(** What [page.evaluate] reads inside the page. *)
Record Dom : Type := mkDom {
  innerText : string;        (* the innerText of document.body, or the empty string *)
  innerHTML : string;        (* the innerHTML of document.body, or the empty string *)
  dataIcons : list string    (* the data-icon attribute of each [data-icon] element *)
}.

(** The page as one probe finds it. *)
Record Page : Type := mkPage {
  content : result string;             (* page.content() *)
  evaluate : result Dom;               (* page.evaluate(...) *)
  url : result string;                 (* page.url() *)
  queryAll : string -> result nat      (* page.$$(selector).length *)
}.

(** [page.$(selector)] finds an element. *)
Definition query (page : Page) (selector : string) : result bool :=
  match queryAll page selector with
  | Ok n => Ok (0 <? n)%nat
  | Throws => Throws
  end.

(* ================================================================== *)
(** * platforms/base.js *)
(* ================================================================== *)

Module BasePlatform.
Import JsString.

Definition normalizeUrl (url : string) : string := url.

Definition initialWaitMs : Z := 3000.

(** Default: unknown. *)
Definition getParticipantCount (page : Page) : result Z := Ok (-1)%Z.

(** [_findFirst(...selectors)]: each [page.$] sits in its own try. *)
Definition _findFirst (page : Page) (selectors : list string) : bool :=
  existsb (fun sel => match query page sel with
                      | Ok found => found
                      | Throws => false
                      end) selectors.

(** [_pageContainsAny(indicators)] is not null. *)
Definition _pageContainsAny (page : Page) (indicators : list string) : bool :=
  match content page with
  | Ok html => containsAny html indicators
  | Throws => false
  end.

(** [_visibleTextContainsAny(indicators)] is not null. *)
Definition _visibleTextContainsAny (page : Page) (indicators : list string)
  : bool :=
  match evaluate page with
  | Ok dom => containsAny (innerText dom) indicators
  | Throws => false
  end.

End BasePlatform.

(* ================================================================== *)
(** * platforms/zoom.js *)
(* ================================================================== *)

Module ZoomPlatform.
Import JsString BasePlatform.

Definition initialWaitMs : Z := 5000.

Fixpoint span (f : ascii -> bool) (s : string) : string * string :=
  match s with
  | EmptyString => (EmptyString, EmptyString)
  | String c s' =>
      if f c then let (taken, rest) := span f s' in (String c taken, rest)
      else (EmptyString, s)
  end.

Definition isDigit (c : ascii) : bool :=
  let n := nat_of_ascii c in (48 <=? n)%nat && (n <=? 57)%nat.

Definition notSlash (c : ascii) : bool := negb (Ascii.eqb c "/").

Definition notLineTerminator (c : ascii) : bool :=
  negb (Regex.isLineTerminator c).

(** The pattern of [url.match]: https:// and a non-empty run without
    slash (group 1), then /j/, then a non-empty run of digits (group 2),
    then whatever is left of the line (group 3); here tried at the head of
    [s].  The host run can only stop at a slash and the last group accepts
    whatever follows the digits, so each greedy run is the longest one and
    no backtracking changes the groups. *)
Definition matchJoinAt (s : string) : option (string * string * string) :=
  if startsWith s "https://" then
    let (hostName, afterHost) := span notSlash (drop 8 s) in
    if isEmpty hostName then None
    else if startsWith afterHost "/j/" then
      let (meetingId, afterId) := span isDigit (drop 3 afterHost) in
      if isEmpty meetingId then None
      else
        let (rest, _) := span notLineTerminator afterId in
        Some ("https://" ++ hostName, meetingId, rest)
    else None
  else None.

(** [url.match(...)]: the leftmost position where the pattern matches. *)
Fixpoint matchJoin (s : string) : option (string * string * string) :=
  match matchJoinAt s with
  | Some groups => Some groups
  | None =>
      match s with
      | EmptyString => None
      | String _ s' => matchJoin s'
      end
  end.

Definition normalizeUrl (url : string) : string :=
  if includes url "/wc/join/" then url
  else
    match matchJoin url with
    | Some (host, meetingId, rest) => host ++ "/wc/join/" ++ meetingId ++ rest
    | None => url
    end.

Definition waitingIndicators : list string :=
  [ "Please wait, the meeting host will let you in soon";
    "please wait, the meeting host will let you in soon";
    "Waiting for the host to let you in";
    "waiting for the host";
    "We've let them know you're here";
    "we've let them know you're here";
    "let them know you're here";
    "the meeting host will let you in";
    "Waiting Room";
    "waiting room";
    "ממתין למארח";
    "חדר המתנה" ].

Definition _isInWaitingRoom (page : Page) : bool :=
  if _visibleTextContainsAny page waitingIndicators then true
  else if _findFirst page
            [ quoted "[class*=" "waiting-room" "]"; quoted "[class*=" "waitingRoom" "]";
              quoted "[class*=" "WaitingRoom" "]"; "#wc-waiting" ]
  then true
  else false.

Definition _isInMeetingRoom (page : Page) : bool :=
  if _isInWaitingRoom page then false
  else if _findFirst page
            [ quoted "button[aria-label*=" "Leave" " i]"; quoted "button[aria-label*=" "End" " i]";
              ".footer__leave-btn"; quoted "[class*=" "leave-meeting" "]" ]
  then true
  else if _findFirst page
            [ "#wc-container-left"; ".meeting-client-inner"; ".meeting-app";
              quoted "[class*=" "meeting-client" "]" ]
  then true
  else false.

Definition endIndicators : list string :=
  [ "This meeting has been ended";
    "The host has ended the meeting";
    "Meeting has ended";
    "You have been removed from the meeting";
    "The meeting has ended for everyone";
    "This meeting has ended";
    "Meeting ended" ].

Definition redirectedAway (currentUrl : string) : bool :=
  String.eqb currentUrl "https://zoom.us/"
  || includes currentUrl "zoom.us/postattendee"
  || includes currentUrl "zoom.us/meeting/ended"
  || String.eqb currentUrl "about:blank".

Definition checkMeetingEnded (page : Page) (hasJoinedBefore : bool)
  : result bool :=
  if _pageContainsAny page endIndicators then Ok true
  else if hasJoinedBefore
          && _pageContainsAny page
               [ "waiting for the host";
                 "Please wait, the meeting host will let you in soon";
                 "Waiting Room" ]
  then Ok true
  else if match url page with
          | Ok currentUrl => hasJoinedBefore && redirectedAway currentUrl
          | Throws => false
          end
  then Ok true
  else if hasJoinedBefore
          && negb (_isInMeetingRoom page)
          && match evaluate page with
             | Ok dom => (50 <? String.length (innerText dom))%nat
             | Throws => false
             end
  then Ok true
  else Ok false.

End ZoomPlatform.

(* ================================================================== *)
(** * platforms/google-meet.js *)
(* ================================================================== *)

Module GoogleMeetPlatform.
Import JsString BasePlatform.

Definition normalizeUrl (url : string) : string := BasePlatform.normalizeUrl url.

Definition initialWaitMs : Z := BasePlatform.initialWaitMs.

Definition aloneIndicators : list string :=
  [ "You are the only one here";
    "Waiting for others to join";
    "No one else is here" ].

Definition participantSelectors : list string :=
  [ "[data-participant-id]";
    "[data-requested-participant-id]";
    "[data-self-name]" ].

(** The [for (const selector of participantSelectors)] loop. *)
Fixpoint maxElements (page : Page) (selectors : list string) (maxCount : nat)
  : nat :=
  match selectors with
  | [] => maxCount
  | selector :: rest =>
      match queryAll page selector with
      | Ok n => maxElements page rest (Nat.max maxCount n)
      | Throws => maxElements page rest maxCount
      end
  end.

Definition getParticipantCount (page : Page) : result Z :=
  if _pageContainsAny page aloneIndicators then Ok 0%Z
  else
    let maxCount := maxElements page participantSelectors 0 in
    if (0 <? maxCount)%nat then Ok (Z.max 0 (Z.of_nat maxCount - 1))
    else Ok (-1)%Z.

Definition endIndicators (hasJoinedBefore : bool) : list string :=
  ([ "You left the meeting";
    "Your host ended the meeting";
    "The meeting has ended";
    "Call ended" ]
  ++ (if hasJoinedBefore
      then [ "Return to home screen"; "Returning to home screen" ]
      else []))%list.

Definition redirectCheck (page : Page) (hasJoinedBefore : bool) : bool :=
  match url page with
  | Ok currentUrl =>
      hasJoinedBefore
      && (includes currentUrl "/landing" || String.eqb currentUrl "about:blank")
  | Throws => false
  end.

Definition afterJoinPageCheck (page : Page) (hasJoinedBefore : bool)
  : result bool :=
  if _pageContainsAny page (endIndicators hasJoinedBefore) then Ok true
  else if redirectCheck page hasJoinedBefore then Ok true
  else Ok false.

Definition checkMeetingEnded (page : Page) (hasJoinedBefore : bool)
  : result bool :=
  if negb hasJoinedBefore then
    match query page (quoted "[aria-label=" "Join now" "]") with
    | Throws => Throws
    | Ok true => Ok false
    | Ok false => afterJoinPageCheck page hasJoinedBefore
    end
  else afterJoinPageCheck page hasJoinedBefore.

End GoogleMeetPlatform.

(* ================================================================== *)
(** * platforms/whatsapp.js: call probes *)
(* ================================================================== *)

Module WhatsAppCall.
Import JsString.

Definition endPatterns : list string :=
  [ "call ended";
    "call was missed";
    "call failed";
    "unavailable";
    "no answer";
    "שיחה הסתיימה";
    "השיחה הסתיימה";
    "שיחה שלא נענתה" ].

Definition isEndCallIcon (dataIcon : string) : bool :=
  includes dataIcon "call-end" || includes dataIcon "end-call"
  || includes dataIcon "hangup".

Definition hasEndBtn (dom : Dom) : bool := existsb isEndCallIcon (dataIcons dom).

Definition hasMainUI (dom : Dom) : bool :=
  includes (innerHTML dom) "pane-side"
  || includes (innerHTML dom) (quoted "data-icon=" "search" EmptyString)
  || includes (innerHTML dom) (quoted "role=" "grid" EmptyString).

(** The function evaluated inside the page: the [ended] field of its
    result. *)
Definition endedInPage (dom : Dom) : bool :=
  if containsAny (toLowerCase (innerText dom)) endPatterns then true
  else if negb (hasEndBtn dom) && hasMainUI dom then true
  else false.

Definition checkCallEnded (page : Page) (hasJoinedBefore : bool) : result bool :=
  match evaluate page with
  | Ok dom => if endedInPage dom then Ok true else Ok false
  | Throws => if hasJoinedBefore then Ok true else Ok false
  end.

Definition checkMeetingEnded (page : Page) (hasJoinedBefore : bool)
  : result bool := checkCallEnded page hasJoinedBefore.

End WhatsAppCall.

(* ================================================================== *)
(** * platforms/index.js: the adapters behind one interface *)
(* ================================================================== *)

Inductive Platform : Type := GoogleMeet | Zoom | WhatsApp.

(** What the controller uses of an adapter: the interface of [BasePlatform].
    The actions of the join sequence click and type in the live page; their
    results come from the script of a run, the probes of the monitoring loop
    are functions of the page they look at. *)
Record Adapter : Type := mkAdapter {
  name : string;
  initialWaitMs : Z;
  normalizeUrl : string -> string;
  hasWaitForAdmission : bool;     (* typeof adapter.waitForAdmission === "function" *)
  checkMeetingEnded : Page -> bool -> result bool;
  getParticipantCount : Page -> result Z
}.

Module Platforms.
Import JsString.

Definition normalizeUrl (a : Platform) (url : string) : string :=
  match a with
  | GoogleMeet => GoogleMeetPlatform.normalizeUrl url
  | Zoom => ZoomPlatform.normalizeUrl url
  | WhatsApp => WhatsAppPlatform.normalizeUrl url
  end.

Definition checkMeetingEnded (a : Platform) (page : Page)
  (hasJoinedBefore : bool) : result bool :=
  match a with
  | GoogleMeet => GoogleMeetPlatform.checkMeetingEnded page hasJoinedBefore
  | Zoom => ZoomPlatform.checkMeetingEnded page hasJoinedBefore
  | WhatsApp => WhatsAppCall.checkMeetingEnded page hasJoinedBefore
  end.

(** [new Adapter(page, log)] for each class of the registry: its name,
    initialWaitMs, normalizeUrl, whether it has waitForAdmission,
    checkMeetingEnded and getParticipantCount. *)
Definition adapterOf (a : Platform) : Adapter :=
  match a with
  | GoogleMeet =>
      mkAdapter "google-meet" GoogleMeetPlatform.initialWaitMs
        (normalizeUrl GoogleMeet) false (checkMeetingEnded GoogleMeet)
        GoogleMeetPlatform.getParticipantCount
  | Zoom =>
      mkAdapter "zoom" ZoomPlatform.initialWaitMs
        (normalizeUrl Zoom) true (checkMeetingEnded Zoom)
        BasePlatform.getParticipantCount
  | WhatsApp =>
      mkAdapter "whatsapp" 5000
        (normalizeUrl WhatsApp) false (checkMeetingEnded WhatsApp)
        BasePlatform.getParticipantCount
  end.

(** The [PLATFORMS] registry, tried in order. *)
Definition detectPlatform (url : string) : option Platform :=
  if includes url "meet.google.com" then Some GoogleMeet
  else if includes url "zoom.us" then Some Zoom
  else if includes url "web.whatsapp.com" then Some WhatsApp
  else if includes url "whatsapp.com" then Some WhatsApp
  else None.

Definition resolvePlatform (url : string) : result Adapter :=
  match detectPlatform url with
  | Some a => Ok (adapterOf a)
  | None => Throws
  end.

End Platforms.

(* ================================================================== *)
(** * Processes: state, exceptions and [process.exit] *)
(* ================================================================== *)

Module Proc.

Section WithWorld.
Variable W : Type.

Inductive outcome (A : Type) : Type :=
| Ret (a : A) (w : W)        (* the call returned *)
| Raise (w : W)              (* the call threw *)
| Exit (code : Z) (w : W)    (* process.exit(code) *)
| Waiting (w : W).           (* still polling when the observations end *)

Definition M (A : Type) : Type := W -> outcome A.

Definition ret {A} (a : A) : M A := fun w => Ret A a w.

Definition bind {A B} (m : M A) (k : A -> M B) : M B :=
  fun w =>
    match m w with
    | Ret _ a w' => k a w'
    | Raise _ w' => Raise B w'
    | Exit _ code w' => Exit B code w'
    | Waiting _ w' => Waiting B w'
    end.

Definition raise {A} : M A := fun w => Raise A w.

Definition exit {A} (code : Z) : M A := fun w => Exit A code w.

(** [try { m } catch (e) { handler }] *)
Definition tryCatch {A} (m handler : M A) : M A :=
  fun w =>
    match m w with
    | Raise _ w' => handler w'
    | o => o
    end.

Definition get : M W := fun w => Ret W w w.

Definition modify (f : W -> W) : M unit := fun w => Ret unit tt (f w).

(** Awaiting a call whose result the script supplies. *)
Definition await {A} (r : result A) : M A :=
  match r with
  | Ok a => ret a
  | Throws => raise
  end.

(** The world a computation leaves behind, however it ends. *)
Definition final {A} (o : outcome A) : W :=
  match o with
  | Ret _ _ w | Raise _ w | Exit _ _ w | Waiting _ w => w
  end.

(** [m] always returns. *)
Definition returns {A} (m : M A) : Prop :=
  forall w, exists a w', m w = Ret A a w'.

(** [m] always ends the process with [code]. *)
Definition exits {A} (code : Z) (m : M A) : Prop :=
  forall w, exists w', m w = Exit A code w'.

(** [m] never throws. *)
Definition safe {A} (m : M A) : Prop :=
  forall w w', m w <> Raise A w'.

(** [m] always returns or throws. *)
Definition settles {A} (m : M A) : Prop :=
  forall w, (exists a w', m w = Ret A a w') \/ (exists w', m w = Raise A w').

(** Every run of [m] relates the world it starts in to the one it
    leaves. *)
Definition steps (R : W -> W -> Prop) {A} (m : M A) : Prop :=
  forall w, R w (final (m w)).

End WithWorld.

Arguments Ret {W A} a w.
Arguments Raise {W A} w.
Arguments Exit {W A} code w.
Arguments Waiting {W A} w.
Arguments ret {W A} a.
Arguments bind {W A B} m k.
Arguments raise {W A}.
Arguments exit {W A} code.
Arguments tryCatch {W A} m handler.
Arguments get {W}.
Arguments modify {W} f.
Arguments await {W A} r.
Arguments final {W A} o.
Arguments returns {W A} m.
Arguments exits {W A} code m.
Arguments safe {W A} m.
Arguments settles {W A} m.
Arguments steps {W} R {A} m.

End Proc.

Notation "x <- m ;; k" := (Proc.bind m (fun x => k))
  (at level 61, m at next level, right associativity).
Notation "m ;; k" := (Proc.bind m (fun _ => k))
  (at level 61, right associativity).

(** [a || b] on values where null, undefined, 0 and the empty string are
    falsy. *)
Definition truthyZ (v : option Z) : bool :=
  match v with
  | Some z => negb (z =? 0)%Z
  | None => false
  end.

Definition truthyStr (v : option string) : bool :=
  match v with
  | Some s => negb (JsString.isEmpty s)
  | None => false
  end.

Definition orElseStr (a b : option string) : option string :=
  if truthyStr a then a else b.

(* ================================================================== *)
(** * lib/config.js *)
(* ================================================================== *)

Module Config.

(** The keys the controllers read, after [deepMerge(DEFAULTS, userConfig)];
    [None] is a key the user's file set to null. *)
Record t : Type := mk {
  googleAccountEnabled : bool;                  (* googleAccount?.enabled *)
  emptyTimeoutMinutes : option Z;               (* meeting?.emptyTimeoutMinutes *)
  skipTranscriptionOnEmptyLeave : option bool   (* meeting?.skipTranscriptionOnEmptyLeave *)
}.

Definition DEFAULTS : t :=
  {| googleAccountEnabled := false;
     emptyTimeoutMinutes := Some 15%Z;
     skipTranscriptionOnEmptyLeave := Some true |}.

End Config.

(* ================================================================== *)
(** * Files *)
(* ================================================================== *)

Module Fs.

Record Metadata : Type := mkMetadata {
  mdTitle : option string;
  mdSummary : option string;
  mdLanguage : option string
}.

Record SessionInfo : Type := mkSessionInfo {
  title : option string;
  platform : option string;
  meetingCode : option string;
  startedAt : option Z;
  endedAt : Z;
  duration : option Z;           (* milliseconds, before formatDuration *)
  language : option string;
  summary : option string;
  audio : option string;
  rawTranscript : option string;
  transcript : option string
}.

Inductive File : Type :=
| Audio (bytes : Z)                      (* appended recorder chunks *)
| Text                                   (* a transcript *)
| RecordingMetadata (meetingName : string)
| Session (info : SessionInfo)
| Pid.

Definition t : Type := string -> option File.

Definition empty : t := fun _ => None.

Definition existsSync (fs : t) (path : string) : bool :=
  match fs path with Some _ => true | None => false end.

Definition writeFileSync (fs : t) (path : string) (f : File) : t :=
  fun p => if String.eqb p path then Some f else fs p.

Definition unlinkSync (fs : t) (path : string) : t :=
  fun p => if String.eqb p path then None else fs p.

(** [fs.appendFileSync(path, buf)] with a recorder chunk of [n] bytes (the
    page only keeps chunks that hold data); it creates the file when there
    is none. *)
Definition appendFileSync (fs : t) (path : string) (n : positive) : t :=
  match fs path with
  | Some (Audio bytes) => writeFileSync fs path (Audio (bytes + Z.pos n))
  | Some _ => fs
  | None => writeFileSync fs path (Audio (Z.pos n))
  end.

(** [fs.statSync(path).size > 0]; only recordings carry a size, a written
    document is never empty. *)
Definition nonEmpty (f : File) : bool :=
  match f with
  | Audio bytes => (0 <? bytes)%Z
  | _ => true
  end.

End Fs.

(* ================================================================== *)
(** * meeting-bot.js *)
(* ================================================================== *)

Module MeetingBot.
Import JsString Proc.

(** The fields of [MeetingBot].  [attached] says that [browser] and [page]
    are set, [audioSaveInterval] that the flush timer runs; [platform] is
    always the adapter's name and is read from [adapter]. *)
Record Bot : Type := mkBot {
  attached : bool;
  adapter : option Adapter;
  recordingPath : option string;
  meetingName : option string;
  isInMeeting : bool;
  hasJoinedMeeting : bool;
  startedAt : option Z;
  meetingCode : option string;
  leftDueToEmptyTimeout : bool;
  emptyMeetingSince : option Z;
  audioSaveInterval : bool
}.

(** [new MeetingBot()] *)
Definition constructor : Bot :=
  {| attached := false; adapter := None; recordingPath := None;
     meetingName := None; isInMeeting := false; hasJoinedMeeting := false;
     startedAt := None; meetingCode := None; leftDueToEmptyTimeout := false;
     emptyMeetingSince := None; audioSaveInterval := false |}.

Definition set_attached (v : bool) (b : Bot) : Bot :=
  mkBot v (adapter b) (recordingPath b) (meetingName b) (isInMeeting b)
    (hasJoinedMeeting b) (startedAt b) (meetingCode b)
    (leftDueToEmptyTimeout b) (emptyMeetingSince b) (audioSaveInterval b).
Definition set_adapter (v : option Adapter) (b : Bot) : Bot :=
  mkBot (attached b) v (recordingPath b) (meetingName b) (isInMeeting b)
    (hasJoinedMeeting b) (startedAt b) (meetingCode b)
    (leftDueToEmptyTimeout b) (emptyMeetingSince b) (audioSaveInterval b).
Definition set_recordingPath (v : option string) (b : Bot) : Bot :=
  mkBot (attached b) (adapter b) v (meetingName b) (isInMeeting b)
    (hasJoinedMeeting b) (startedAt b) (meetingCode b)
    (leftDueToEmptyTimeout b) (emptyMeetingSince b) (audioSaveInterval b).
Definition set_meetingName (v : option string) (b : Bot) : Bot :=
  mkBot (attached b) (adapter b) (recordingPath b) v (isInMeeting b)
    (hasJoinedMeeting b) (startedAt b) (meetingCode b)
    (leftDueToEmptyTimeout b) (emptyMeetingSince b) (audioSaveInterval b).
Definition set_isInMeeting (v : bool) (b : Bot) : Bot :=
  mkBot (attached b) (adapter b) (recordingPath b) (meetingName b) v
    (hasJoinedMeeting b) (startedAt b) (meetingCode b)
    (leftDueToEmptyTimeout b) (emptyMeetingSince b) (audioSaveInterval b).
Definition set_hasJoinedMeeting (v : bool) (b : Bot) : Bot :=
  mkBot (attached b) (adapter b) (recordingPath b) (meetingName b)
    (isInMeeting b) v (startedAt b) (meetingCode b)
    (leftDueToEmptyTimeout b) (emptyMeetingSince b) (audioSaveInterval b).
Definition set_startedAt (v : option Z) (b : Bot) : Bot :=
  mkBot (attached b) (adapter b) (recordingPath b) (meetingName b)
    (isInMeeting b) (hasJoinedMeeting b) v (meetingCode b)
    (leftDueToEmptyTimeout b) (emptyMeetingSince b) (audioSaveInterval b).
Definition set_meetingCode (v : option string) (b : Bot) : Bot :=
  mkBot (attached b) (adapter b) (recordingPath b) (meetingName b)
    (isInMeeting b) (hasJoinedMeeting b) (startedAt b) v
    (leftDueToEmptyTimeout b) (emptyMeetingSince b) (audioSaveInterval b).
Definition set_leftDueToEmptyTimeout (v : bool) (b : Bot) : Bot :=
  mkBot (attached b) (adapter b) (recordingPath b) (meetingName b)
    (isInMeeting b) (hasJoinedMeeting b) (startedAt b) (meetingCode b)
    v (emptyMeetingSince b) (audioSaveInterval b).
Definition set_emptyMeetingSince (v : option Z) (b : Bot) : Bot :=
  mkBot (attached b) (adapter b) (recordingPath b) (meetingName b)
    (isInMeeting b) (hasJoinedMeeting b) (startedAt b) (meetingCode b)
    (leftDueToEmptyTimeout b) v (audioSaveInterval b).
Definition set_audioSaveInterval (v : bool) (b : Bot) : Bot :=
  mkBot (attached b) (adapter b) (recordingPath b) (meetingName b)
    (isInMeeting b) (hasJoinedMeeting b) (startedAt b) (meetingCode b)
    (leftDueToEmptyTimeout b) (emptyMeetingSince b) v.

(** The calls the controller makes on its collaborators, in the order it
    makes them. *)
Inductive Event : Type :=
| ConnectChrome                          (* puppeteer.connect *)
| InjectCapture                          (* setupAudio *)
| StartRecording (name : string)         (* startRecording *)
| Goto (url : string)                    (* page.goto *)
| DismissPopups
| EnterName
| MuteMedia
| ClickJoin
| WaitForAdmission
| VerifyInMeeting
| RouteAudio                             (* routeAudio *)
| MonitorStart                           (* monitorMeeting *)
| CheckMeetingEnded (hasJoinedBefore : bool)
| GetParticipantCount
| Cleanup                                (* cleanup *)
| StopRecording                          (* stopRecording *)
| Transcribe (path : string)             (* transcribe.sh *)
| Unlink (path : string)                 (* fs.unlinkSync *)
| CloseTab                               (* page.close or page.goto("about:blank") *)
| GenerateMetadata (path : string)       (* generate-metadata.py *)
| WriteSession (path : string)           (* fs.writeFileSync(sessionFile) *)
| ProcessExit (code : Z).

Record World : Type := mkWorld {
  bot : Bot;
  fs : Fs.t;
  trace : list Event
}.

Definition M := Proc.M World.

Definition update (f : Bot -> Bot) : M unit :=
  modify (fun w => mkWorld (f (bot w)) (fs w) (trace w)).

Definition updateFs (f : Fs.t -> Fs.t) : M unit :=
  modify (fun w => mkWorld (bot w) (f (fs w)) (trace w)).

Definition emit (e : Event) : M unit :=
  modify (fun w => mkWorld (bot w) (fs w) (trace w ++ [e])).

(** [process.exit(code)] *)
Definition processExit (code : Z) : M unit :=
  emit (ProcessExit code) ;; exit code.

Inductive Admission : Type := admitted | ended | timeout | not_waiting.

(** One turn of the monitoring loop, as the browser presents it. *)
Record Tick : Type := mkTick {
  flushed : result (list positive);  (* chunks the flush timer found since the last turn *)
  page : Page;                 (* the page the two probes look at *)
  now : Z                      (* Date.now() *)
}.

(** What the browser and the external processes answer during one run. *)
Record Script : Type := mkScript {
  config : Config.t;
  connectChrome : result unit;         (* puppeteer.connect, browser.pages *)
  injectCapture : result unit;         (* createCDPSession, evaluateOnNewDocument *)
  outputDir : string;                  (* built from the clock and the name *)
  joinClock : Z;                       (* new Date() in joinMeeting *)
  extractedCode : option string;       (* adapter.extractMeetingCode(url) *)
  gotoMeeting : result unit;
  dismissPopups1 : result unit;
  enterName : result bool;
  muteMedia : result unit;
  dismissPopups2 : result unit;
  clickJoin : result bool;
  dismissPopups3 : result unit;
  waitForAdmission : result Admission;
  verifyInMeeting : result bool;
  audioReady : bool;                   (* what routeAudio returns *)
  ticks : list Tick;
  finalChunks : result (list positive);  (* page.evaluate in stopRecording *)
  endClock : Z;                        (* new Date() in cleanup *)
  transcribeExec : result unit;        (* transcribe.sh *)
  transcriptWritten : bool;            (* transcribe.sh left a transcript *)
  transcriptText : string;             (* what reading it returns *)
  openTabs : result nat;               (* browser.pages().length *)
  tabAction : result unit;             (* page.close / page.goto *)
  generateMetadataExec : result Fs.Metadata
}.

Section Run.
Variable script : Script.

(** An adapter call: noted, then answered by the script. *)
Definition call {A} (e : Event) (r : result A) : M A :=
  emit e ;; await r.

Definition init : M unit :=
  call ConnectChrome (connectChrome script) ;;
  update (set_attached true).

Definition setupAudio : M unit :=
  call InjectCapture (injectCapture script).

Definition startRecording (name : string) : M unit :=
  emit (StartRecording name) ;;
  update (set_meetingName (Some name)) ;;
  update (set_recordingPath (Some (outputDir script ++ "/audio.webm"))) ;;
  updateFs (fun fs => Fs.writeFileSync fs (outputDir script ++ "/metadata.json")
                        (Fs.RecordingMetadata name)).

Definition routeAudio : M bool :=
  emit RouteAudio ;;
  update (set_audioSaveInterval true) ;;
  ret (audioReady script).

(** The [for (const base64 of chunks) fs.appendFileSync(...)] loop. *)
Fixpoint appendChunks (path : string) (chunks : list positive) (fs : Fs.t)
  : Fs.t :=
  match chunks with
  | [] => fs
  | n :: rest => appendChunks path rest (Fs.appendFileSync fs path n)
  end.

Definition saveChunks (chunks : list positive) : M unit :=
  w <- get ;;
  match chunks, recordingPath (bot w) with
  | _ :: _, Some path => updateFs (appendChunks path chunks)
  | _, _ => ret tt
  end.

(** [page.evaluate] on [this.page]: a TypeError while it is still null. *)
Definition pageEvaluate {A} (r : result A) : M A :=
  w <- get ;;
  if attached (bot w) then await r else raise.

Definition _flushAudioChunks (found : result (list positive)) : M unit :=
  tryCatch (chunks <- pageEvaluate found ;; saveChunks chunks) (ret tt).

Definition checkRecordingFile : M unit :=
  w <- get ;;
  match recordingPath (bot w) with
  | Some path =>
      if endsWith path ".webm" then
        match fs w path with
        | Some f =>
            if Fs.nonEmpty f then ret tt
            else update (set_recordingPath None)
        | None => update (set_recordingPath None)
        end
      else ret tt
  | None => ret tt
  end.

(** The first [try] of [stopRecording]: stop the recorder in the page
    and append what it still held. *)
Definition collectFinalChunks : M unit :=
  tryCatch (chunks <- pageEvaluate (finalChunks script) ;; saveChunks chunks)
           (ret tt).

Definition stopRecording : M unit :=
  emit StopRecording ;;
  update (set_audioSaveInterval false) ;;
  collectFinalChunks ;;
  checkRecordingFile.

Fixpoint replaceSuffix (s suffix rep : string) : string :=
  if String.eqb s suffix then rep
  else match s with
       | EmptyString => EmptyString
       | String c s' => String c (replaceSuffix s' suffix rep)
       end.

(** [recordingPath.replace(/\.(wav|webm)$/, ".txt")] *)
Definition txtPath (path : string) : string :=
  if endsWith path ".wav" then replaceSuffix path ".wav" ".txt"
  else if endsWith path ".webm" then replaceSuffix path ".webm" ".txt"
  else path.

Definition transcribe : M (option string) :=
  w <- get ;;
  match recordingPath (bot w) with
  | None => ret None
  | Some path =>
      emit (Transcribe path) ;;
      (if transcriptWritten script
       then updateFs (fun fs => Fs.writeFileSync fs (txtPath path) Fs.Text)
       else ret tt) ;;
      tryCatch
        (await (transcribeExec script) ;;
         w' <- get ;;
         if Fs.existsSync (fs w') (txtPath path)
         then ret (Some (transcriptText script))
         else ret None)
        (ret None)
  end.

Definition generateMetadata (transcriptPath : string) : M (option Fs.Metadata) :=
  emit (GenerateMetadata transcriptPath) ;;
  tryCatch (md <- await (generateMetadataExec script) ;; ret (Some md))
           (ret None).

Definition closeMeetingTab : M unit :=
  tryCatch
    (w <- get ;;
     (if attached (bot w) then ret tt else raise) ;;
     _ <- await (openTabs script) ;;
     call CloseTab (tabAction script))
    (ret tt).

Definition discardRecording : M unit :=
  w <- get ;;
  match recordingPath (bot w) with
  | Some path =>
      if Fs.existsSync (fs w) path
      then emit (Unlink path) ;; updateFs (fun fs => Fs.unlinkSync fs path)
      else ret tt
  | None => ret tt
  end.

Definition skipTranscription (b : Bot) : bool :=
  leftDueToEmptyTimeout b
  && match Config.skipTranscriptionOnEmptyLeave (config script) with
     | Some false => false
     | _ => true
     end.

Definition sessionInfo (b : Bot) (aiMetadata : option Fs.Metadata)
  (transcriptPath transcript : option string) : Fs.SessionInfo :=
  {| Fs.title := orElseStr (match aiMetadata with
                            | Some md => Fs.mdTitle md
                            | None => None
                            end) (meetingName b);
     Fs.platform := option_map name (adapter b);
     Fs.meetingCode := meetingCode b;
     Fs.startedAt := startedAt b;
     Fs.endedAt := endClock script;
     Fs.duration := match startedAt b with
                    | Some t => Some (endClock script - t)%Z
                    | None => None
                    end;
     Fs.language := orElseStr (match aiMetadata with
                               | Some md => Fs.mdLanguage md
                               | None => None
                               end) None;
     Fs.summary := orElseStr (match aiMetadata with
                              | Some md => Fs.mdSummary md
                              | None => None
                              end) None;
     Fs.audio := match recordingPath b with
                 | Some _ => Some "audio.wav"
                 | None => None
                 end;
     Fs.rawTranscript := match transcriptPath with
                         | Some _ => Some "transcript.txt"
                         | None => None
                         end;
     Fs.transcript := transcript |}.

(** The end of [cleanup]: close the tab, gather the metadata, write
    the session record and leave. *)
Definition concludeSession (transcript : option string) : M unit :=
  closeMeetingTab ;;
  w <- get ;;
  let transcriptPath :=
    option_map (fun path => replace path ".wav" ".txt") (recordingPath (bot w)) in
  aiMetadata <- match transcriptPath with
                | Some path =>
                    if Fs.existsSync (fs w) path then generateMetadata path
                    else ret None
                | None => ret None
                end ;;
  w <- get ;;
  let sessionFile :=
    match recordingPath (bot w) with
    | Some path => replace path "audio.wav" "session.json"
    | None => "/tmp/last-meeting-session.json"
    end in
  emit (WriteSession sessionFile) ;;
  updateFs (fun fs => Fs.writeFileSync fs sessionFile
                        (Fs.Session (sessionInfo (bot w) aiMetadata
                                       transcriptPath transcript))) ;;
  processExit 0.

(** [cleanup] once the recording is stopped: transcribe it, or drop it
    after an empty meeting. *)
Definition finishSession : M unit :=
  w <- get ;;
  transcript <- (if skipTranscription (bot w)
                 then discardRecording ;; ret None
                 else transcribe) ;;
  concludeSession transcript.

Definition cleanup : M unit :=
  emit Cleanup ;;
  stopRecording ;;
  finishSession.

Definition confirmJoin : M unit :=
  inMeeting <- call VerifyInMeeting (verifyInMeeting script) ;;
  (if inMeeting
   then update (set_hasJoinedMeeting true) ;; update (set_isInMeeting true)
   else update (set_isInMeeting true)) ;;
  _ <- routeAudio ;;
  ret tt.

Definition joinMeeting (url : string) : M unit :=
  a <- await (Platforms.resolvePlatform url) ;;
  update (set_adapter (Some a)) ;;
  update (set_startedAt (Some (joinClock script))) ;;
  update (set_meetingCode (extractedCode script)) ;;
  call (Goto (normalizeUrl a url)) (gotoMeeting script) ;;
  call DismissPopups (dismissPopups1 script) ;;
  (if Config.googleAccountEnabled (config script) then ret tt
   else _ <- call EnterName (enterName script) ;; ret tt) ;;
  call MuteMedia (muteMedia script) ;;
  call DismissPopups (dismissPopups2 script) ;;
  _ <- call ClickJoin (clickJoin script) ;;
  call DismissPopups (dismissPopups3 script) ;;
  if hasWaitForAdmission a then
    admissionResult <- call WaitForAdmission (waitForAdmission script) ;;
    match admissionResult with
    | admitted =>
        update (set_hasJoinedMeeting true) ;;
        update (set_isInMeeting true) ;;
        _ <- routeAudio ;;
        ret tt
    | ended | timeout =>
        update (set_isInMeeting false) ;;
        update (set_hasJoinedMeeting false) ;;
        cleanup
    | not_waiting => confirmJoin
    end
  else confirmJoin.

(** [config.meeting?.emptyTimeoutMinutes || 15], in milliseconds. *)
Definition emptyTimeoutMs : Z :=
  let minutes := if truthyZ (Config.emptyTimeoutMinutes (config script))
                 then match Config.emptyTimeoutMinutes (config script) with
                      | Some m => m
                      | None => 15%Z
                      end
                 else 15%Z in
  (minutes * 60 * 1000)%Z.

Inductive Ctl : Type := Continue | Break.

(** The [participantCount === 0] branch. *)
Definition onEmpty (t : Tick) : M Ctl :=
  w <- get ;;
  if negb (truthyZ (emptyMeetingSince (bot w))) then
    update (set_emptyMeetingSince (Some (now t))) ;; ret Continue
  else
    let since := match emptyMeetingSince (bot w) with
                 | Some z => z
                 | None => 0%Z
                 end in
    let emptyDuration := (now t - since)%Z in
    if (emptyTimeoutMs <=? emptyDuration)%Z then
      update (set_isInMeeting false) ;;
      update (set_leftDueToEmptyTimeout true) ;;
      cleanup ;;
      ret Break
    else ret Continue.

(** The [participantCount > 0] branch. *)
Definition onOccupied : M Ctl :=
  w <- get ;;
  if truthyZ (emptyMeetingSince (bot w))
  then update (set_emptyMeetingSince None) ;; ret Continue
  else ret Continue.

Definition checkEmptyTimeout (a : Adapter) (t : Tick) : M Ctl :=
  tryCatch
    (participantCount <- call GetParticipantCount
                           (getParticipantCount a (page t)) ;;
     if (participantCount =? 0)%Z then onEmpty t
     else if (0 <? participantCount)%Z then onOccupied
     else ret Continue)
    (ret Continue).

(** The body of [while (this.isInMeeting)]. *)
Definition monitorTick (t : Tick) : M Ctl :=
  w <- get ;;
  match adapter (bot w) with
  | None => raise
  | Some a =>
      hasEnded <- call (CheckMeetingEnded (hasJoinedMeeting (bot w)))
                    (checkMeetingEnded a (page t)
                       (hasJoinedMeeting (bot w))) ;;
      if hasEnded then
        update (set_isInMeeting false) ;;
        cleanup ;;
        ret Break
      else checkEmptyTimeout a t
  end.

(** The flush timer fires between two turns once [routeAudio] set it. *)
Definition betweenTicks (t : Tick) : M unit :=
  w <- get ;;
  if audioSaveInterval (bot w) then _flushAudioChunks (flushed t)
  else ret tt.

Fixpoint monitorLoop (pending : list Tick) : M unit :=
  fun w =>
    if isInMeeting (bot w) then
      match pending with
      | [] => Waiting w
      | t :: rest =>
          (betweenTicks t ;;
           ctl <- monitorTick t ;;
           match ctl with
           | Break => ret tt
           | Continue => monitorLoop rest
           end) w
      end
    else Ret tt w.

Definition monitorMeeting : M unit :=
  emit MonitorStart ;;
  monitorLoop (ticks script).

(** The [try] block of [run]. *)
Definition session (url meetingName : string) : M unit :=
  init ;;
  setupAudio ;;
  startRecording meetingName ;;
  joinMeeting url ;;
  monitorMeeting.

Definition run (url meetingName : string) : M unit :=
  tryCatch (session url meetingName) cleanup.

End Run.

(** The process as [node meeting-bot.js] starts it. *)
Definition start (files : Fs.t) : World := mkWorld constructor files [].

(** *** Vocabulary of the properties *)

(** From [w] to [w'] the calls in the trace grew by events that all
    satisfy [P]. *)
Definition emitted (P : Event -> Prop) (w w' : World) : Prop :=
  exists evs, trace w' = (trace w ++ evs)%list /\ Forall P evs.

(** The events [cleanup] can add. *)
Definition isCleanupEvent (e : Event) : Prop :=
  match e with
  | Cleanup | StopRecording | Transcribe _ | Unlink _ | CloseTab
  | GenerateMetadata _ | WriteSession _ | ProcessExit _ => True
  | _ => False
  end.

(** The same without the transcription. *)
Definition isDiscardEvent (e : Event) : Prop :=
  match e with
  | Cleanup | StopRecording | Unlink _ | CloseTab
  | GenerateMetadata _ | WriteSession _ | ProcessExit _ => True
  | _ => False
  end.

Definition isTranscribe (e : Event) : Prop :=
  match e with
  | Transcribe _ => True
  | _ => False
  end.

(** From [w] to [w'] only the recording fields of the bot changed. *)
Definition sameSession (w w' : World) : Prop :=
  bot w' = set_recordingPath (recordingPath (bot w'))
             (set_audioSaveInterval (audioSaveInterval (bot w')) (bot w)).

(** From [w] to [w'] neither the bot nor the files changed. *)
Definition sameState (w w' : World) : Prop :=
  bot w' = bot w /\ fs w' = fs w.

Definition isOk {A} (r : result A) : bool :=
  match r with
  | Ok _ => true
  | Throws => false
  end.

(** Every call of [run] before [waitForAdmission] goes through, and the
    adapter has a waiting room. *)
Definition reachesAdmission (s : Script) (url : string) : bool :=
  match Platforms.resolvePlatform url with
  | Ok a => hasWaitForAdmission a
  | Throws => false
  end
  && isOk (connectChrome s) && isOk (injectCapture s) && isOk (gotoMeeting s)
  && isOk (dismissPopups1 s)
  && (Config.googleAccountEnabled (config s) || isOk (enterName s))
  && isOk (muteMedia s) && isOk (dismissPopups2 s) && isOk (clickJoin s)
  && isOk (dismissPopups3 s).

(** The adapter calls of the join sequence up to the waiting room. *)
Definition joinEvents (s : Script) (navigateUrl : string) : list Event :=
  ([ Goto navigateUrl; DismissPopups ]
   ++ (if Config.googleAccountEnabled (config s) then [] else [ EnterName ])
   ++ [ MuteMedia; DismissPopups; ClickJoin; DismissPopups; WaitForAdmission ])%list.

(** No recording at [path] is empty. *)
Definition recordingHasData (files : Fs.t) (path : string) : Prop :=
  forall bytes, files path = Some (Fs.Audio bytes) -> (0 < bytes)%Z.

(** The configuration lets an empty meeting go without transcript (the
    default): [skipTranscriptionOnEmptyLeave !== false]. *)
Definition skipsOnEmptyLeave (s : Script) : Prop :=
  Config.skipTranscriptionOnEmptyLeave (config s) <> Some false.

(** The bot records to [path], and no recording there is empty. *)
Definition recordingAt (path : string) (w : World) : Prop :=
  recordingPath (bot w) = Some path /\ recordingHasData (fs w) path.

(** The same, with the file on disk. *)
Definition recordingOnDisk (path : string) (w : World) : Prop :=
  recordingAt path w /\ Fs.existsSync (fs w) path = true.

(** [w'] satisfies [I] if [w] did. *)
Definition preserves (I : World -> Prop) (w w' : World) : Prop := I w -> I w'.

Definition isAudio (f : option Fs.File) : bool :=
  match f with
  | Some (Fs.Audio _) => true
  | _ => false
  end.

(** The files do not hold audio at [path], if they did not before. *)
Definition staysSilent (path : string) (w w' : World) : Prop :=
  isAudio (fs w path) = false -> isAudio (fs w' path) = false.

(** A turn of the monitoring loop in which the meeting goes on with nobody
    but the bot in it. *)
Definition aloneAt (a : Adapter) (hasJoined : bool) (t : Tick) : Prop :=
  checkMeetingEnded a (page t) hasJoined = Ok false
  /\ getParticipantCount a (page t) = Ok 0%Z.

(** A turn of the monitoring loop in which the meeting goes on and the
    bot is not seen alone in it. *)
Definition goesOn (a : Adapter) (hasJoined : bool) (t : Tick) : Prop :=
  checkMeetingEnded a (page t) hasJoined = Ok false
  /\ getParticipantCount a (page t) <> Ok 0%Z.

Definition throws {A} (r : result A) : bool := negb (isOk r).

(** The calls of [joinMeeting] that can throw, in the order it makes them
    on the adapter [a], each with whether it throws in the run [s].
    [verifyInMeeting] is called when the adapter has no waiting room or
    [waitForAdmission] answers not_waiting. *)
Definition joinCalls (s : Script) (a : Adapter) (url : string)
  : list (Event * bool) :=
  ([ (Goto (normalizeUrl a url), throws (gotoMeeting s));
     (DismissPopups, throws (dismissPopups1 s)) ]
   ++ (if Config.googleAccountEnabled (config s) then []
       else [ (EnterName, throws (enterName s)) ])
   ++ [ (MuteMedia, throws (muteMedia s));
        (DismissPopups, throws (dismissPopups2 s));
        (ClickJoin, throws (clickJoin s));
        (DismissPopups, throws (dismissPopups3 s)) ]
   ++ (if hasWaitForAdmission a then
         match waitForAdmission s with
         | Ok not_waiting =>
             [ (WaitForAdmission, false);
               (VerifyInMeeting, throws (verifyInMeeting s)) ]
         | Ok _ => [ (WaitForAdmission, false) ]
         | Throws => [ (WaitForAdmission, true) ]
         end
       else [ (VerifyInMeeting, throws (verifyInMeeting s)) ]))%list.

(** The calls made up to the first one that throws, that one included;
    nothing when no call throws. *)
Fixpoint upToThrow (calls : list (Event * bool)) : option (list Event) :=
  match calls with
  | [] => None
  | (e, thrown) :: rest =>
      if thrown then Some [e] else option_map (cons e) (upToThrow rest)
  end.

(** The [try] block of [run] before [monitorMeeting]. *)
Definition joinPhase (s : Script) (url meetingName : string) : M unit :=
  init s ;;
  setupAudio s ;;
  startRecording s meetingName ;;
  joinMeeting s url.

End MeetingBot.

(* ================================================================== *)
(** * whatsapp-watcher.js *)
(* ================================================================== *)

Module WhatsAppWatcher.
Import JsString Proc.

Inductive STATE : Type :=
| STARTING | WAITING_AUTH | IDLE | RINGING | ANSWERING | IN_CALL
| CALL_ENDED | PROCESSING | ERROR.

Definition STATE_eqb (a b : STATE) : bool :=
  match a, b with
  | STARTING, STARTING | WAITING_AUTH, WAITING_AUTH | IDLE, IDLE
  | RINGING, RINGING | ANSWERING, ANSWERING | IN_CALL, IN_CALL
  | CALL_ENDED, CALL_ENDED | PROCESSING, PROCESSING | ERROR, ERROR => true
  | _, _ => false
  end.

(** whatsapp-config.json, as [loadConfig] leaves it in [this.config]. *)
Record WatcherConfig : Type := mkConfig {
  allowList : list string;
  blockList : list string;
  autoAnswerDelaySec : Z;
  maxCallDurationMin : Z;
  recordingEnabled : bool;
  recordingTranscribe : bool;
  recordingGenerateMetadata : bool;
  pidFile : string
}.

(** The defaults [loadConfig] falls back on when the file cannot be read,
    with the global configuration at its [DEFAULTS]. *)
Definition fallbackConfig : WatcherConfig :=
  {| allowList := ["*"]; blockList := [];
     autoAnswerDelaySec := 3; maxCallDurationMin := 120;
     recordingEnabled := true; recordingTranscribe := true;
     recordingGenerateMetadata := true;
     pidFile := "/tmp/whatsapp-watcher.pid" |}.

(** What [detectIncomingCall] returns. *)
Record CallInfo : Type := mkCallInfo {
  detected : bool;
  callerName : option string;
  isVideo : bool
}.

Record CallerRecord : Type := mkCaller {
  caller : string;
  video : bool;
  detectedAt : Z;
  answered : bool;
  declined : bool;
  answeredAt : option Z
}.

Record Watcher : Type := mkWatcher {
  connected : bool;                      (* browser, page and adapter are set *)
  config : WatcherConfig;
  state : STATE;
  running : bool;
  currentCall : option CallerRecord;
  recordingPath : option string;
  callStartedAt : option Z;
  callCount : nat
}.

(** [new WhatsAppWatcher()]; [config] is null until [loadConfig] runs and
    is not read before. *)
Definition constructor : Watcher :=
  {| connected := false; config := fallbackConfig; state := STARTING;
     running := false; currentCall := None; recordingPath := None;
     callStartedAt := None; callCount := 0 |}.

Definition set_connected (v : bool) (x : Watcher) : Watcher :=
  mkWatcher v (config x) (state x) (running x) (currentCall x)
    (recordingPath x) (callStartedAt x) (callCount x).
Definition set_config (v : WatcherConfig) (x : Watcher) : Watcher :=
  mkWatcher (connected x) v (state x) (running x) (currentCall x)
    (recordingPath x) (callStartedAt x) (callCount x).
Definition set_state (v : STATE) (x : Watcher) : Watcher :=
  mkWatcher (connected x) (config x) v (running x) (currentCall x)
    (recordingPath x) (callStartedAt x) (callCount x).
Definition set_running (v : bool) (x : Watcher) : Watcher :=
  mkWatcher (connected x) (config x) (state x) v (currentCall x)
    (recordingPath x) (callStartedAt x) (callCount x).
Definition set_currentCall (v : option CallerRecord) (x : Watcher) : Watcher :=
  mkWatcher (connected x) (config x) (state x) (running x) v
    (recordingPath x) (callStartedAt x) (callCount x).
Definition set_recordingPath (v : option string) (x : Watcher) : Watcher :=
  mkWatcher (connected x) (config x) (state x) (running x) (currentCall x)
    v (callStartedAt x) (callCount x).
Definition set_callStartedAt (v : option Z) (x : Watcher) : Watcher :=
  mkWatcher (connected x) (config x) (state x) (running x) (currentCall x)
    (recordingPath x) v (callCount x).
Definition set_callCount (v : nat) (x : Watcher) : Watcher :=
  mkWatcher (connected x) (config x) (state x) (running x) (currentCall x)
    (recordingPath x) (callStartedAt x) v.

Inductive Event : Type :=
| WritePid (path : string)
| ConnectChrome
| OpenWhatsApp
| WaitForAuth
| DismissPopups
| SetupAudio
| DetectIncomingCall
| CheckAuthState
| DeclineCall
| AnswerCall
| MuteMedia
| StartRecording (callName : string)
| RouteAudio
| VerifyInMeeting
| CheckCallEnded (hasJoinedBefore : bool)
| EndCall
| StopRecording
| Transcribe (path : string)
| GenerateMetadata (path : string)
| WriteSession (path : string)
| ProcessExit (code : Z).

Record World : Type := mkWorld {
  self : Watcher;
  fs : Fs.t;
  trace : list Event
}.

Definition M := Proc.M World.

Definition update (f : Watcher -> Watcher) : M unit :=
  modify (fun w => mkWorld (f (self w)) (fs w) (trace w)).

Definition updateFs (f : Fs.t -> Fs.t) : M unit :=
  modify (fun w => mkWorld (self w) (f (fs w)) (trace w)).

Definition emit (e : Event) : M unit :=
  modify (fun w => mkWorld (self w) (fs w) (trace w ++ [e])).

Definition call {A} (e : Event) (r : result A) : M A :=
  emit e ;; await r.

Definition processExit (code : Z) : M unit :=
  emit (ProcessExit code) ;; exit code.

(** One turn of [monitorCall]'s loop. *)
Record CallTick : Type := mkCallTick {
  inCall : bool;       (* adapter.verifyInMeeting() *)
  page : Page;         (* the page checkCallEnded looks at *)
  now : Z              (* Date.now() *)
}.

(** What the browser and the external processes answer while one call is
    handled. *)
Record CallScript : Type := mkCallScript {
  detectedClock : Z;
  declineCall : result bool;
  stillRinging : CallInfo;               (* the second detectIncomingCall *)
  answerCall : bool;
  answeredClock : Z;
  callStamp : string;                    (* the ISO time in the call name *)
  startRecordingOutput : result (option string);  (* the path in Output: ....wav *)
  audioRouted : bool;
  callTicks : list CallTick;
  endCall : result bool;
  endClock : Z;
  transcribeExec : result unit;
  transcriptWritten : bool;
  transcriptText : string;
  generateMetadataExec : result Fs.Metadata
}.

Definition isAlnum (c : ascii) : bool :=
  let n := nat_of_ascii c in
  ((48 <=? n) && (n <=? 57) || (65 <=? n) && (n <=? 90)
   || (97 <=? n) && (n <=? 122))%nat.

(** [caller.replace(/[^a-zA-Z0-9]/g, "-")] *)
Fixpoint dashed (s : string) : string :=
  match s with
  | EmptyString => EmptyString
  | String c s' => String (if isAlnum c then c else "-"%char) (dashed s')
  end.

Definition callName (cs : CallScript) (caller : string) : string :=
  "whatsapp-" ++ String.substring 0 30 (dashed caller) ++ "-" ++ callStamp cs.

(** [callInfo.caller || "Unknown"] *)
Definition callerOf (callInfo : CallInfo) : string :=
  match orElseStr (callerName callInfo) (Some "Unknown") with
  | Some s => s
  | None => "Unknown"
  end.

Section Call.
Variable cs : CallScript.

Definition startRecording (name : string) : M unit :=
  emit (StartRecording name) ;;
  tryCatch
    (found <- await (startRecordingOutput cs) ;;
     match found with
     | Some path => update (set_recordingPath (Some path))
     | None => ret tt
     end)
    (ret tt).

Definition routeAudio : M bool :=
  emit RouteAudio ;; ret (audioRouted cs).

Definition stopRecording : M unit := emit StopRecording.

Definition transcribe : M (option string) :=
  w <- get ;;
  match recordingPath (self w) with
  | None => ret None
  | Some path =>
      emit (Transcribe path) ;;
      (if transcriptWritten cs
       then updateFs (fun fs => Fs.writeFileSync fs (replace path ".wav" ".txt")
                                  Fs.Text)
       else ret tt) ;;
      tryCatch
        (await (transcribeExec cs) ;;
         w' <- get ;;
         if Fs.existsSync (fs w') (replace path ".wav" ".txt")
         then ret (Some (transcriptText cs))
         else ret None)
        (ret None)
  end.

Definition generateMetadata (transcriptPath : string) : M (option Fs.Metadata) :=
  emit (GenerateMetadata transcriptPath) ;;
  tryCatch (md <- await (generateMetadataExec cs) ;; ret (Some md))
           (ret None).

Definition sessionInfo (x : Watcher) (aiMetadata : option Fs.Metadata)
  (transcriptPath transcript : option string) : Fs.SessionInfo :=
  let who := match currentCall x with
             | Some c => caller c
             | None => "Unknown"
             end in
  {| Fs.title := orElseStr (match aiMetadata with
                            | Some md => Fs.mdTitle md
                            | None => None
                            end) (Some ("WhatsApp Call — " ++ who));
     Fs.platform := Some "whatsapp";
     Fs.meetingCode := Some who;
     Fs.startedAt := match currentCall x with
                     | Some c => match answeredAt c with
                                 | Some t => Some t
                                 | None => callStartedAt x
                                 end
                     | None => callStartedAt x
                     end;
     Fs.endedAt := endClock cs;
     Fs.duration := match callStartedAt x with
                    | Some t => Some (endClock cs - t)%Z
                    | None => None
                    end;
     Fs.language := orElseStr (match aiMetadata with
                               | Some md => Fs.mdLanguage md
                               | None => None
                               end) None;
     Fs.summary := orElseStr (match aiMetadata with
                              | Some md => Fs.mdSummary md
                              | None => None
                              end) None;
     Fs.audio := match recordingPath x with
                 | Some _ => Some "audio.wav"
                 | None => None
                 end;
     Fs.rawTranscript := option_map basename transcriptPath;
     Fs.transcript := transcript |}.

Definition processCallEnd : M unit :=
  update (set_state PROCESSING) ;;
  w <- get ;;
  (if recordingEnabled (config (self w)) then stopRecording else ret tt) ;;
  transcript <- (if recordingEnabled (config (self w))
                    && recordingTranscribe (config (self w))
                 then transcribe else ret None) ;;
  w <- get ;;
  let transcriptPath :=
    option_map (fun path => replace path ".wav" ".txt")
      (recordingPath (self w)) in
  aiMetadata <- match transcriptPath with
                | Some path =>
                    if recordingGenerateMetadata (config (self w))
                       && Fs.existsSync (fs w) path
                    then generateMetadata path
                    else ret None
                | None => ret None
                end ;;
  w <- get ;;
  let sessionFile :=
    match recordingPath (self w) with
    | Some path => replace path "audio.wav" "session.json"
    | None => "/tmp/last-whatsapp-call-session.json"
    end in
  emit (WriteSession sessionFile) ;;
  updateFs (fun fs => Fs.writeFileSync fs sessionFile
                        (Fs.Session (sessionInfo (self w) aiMetadata
                                       transcriptPath transcript))) ;;
  update (set_currentCall None) ;;
  update (set_recordingPath None) ;;
  update (set_callStartedAt None) ;;
  update (set_state IDLE).

Inductive Ctl : Type := Continue | Break.

(** The body of [while (this.state === STATE.IN_CALL && this.running)]. *)
Definition callTick (maxDurationMs : Z) (hasConfirmedInCall : bool)
  (t : CallTick) : M (Ctl * bool) :=
  _ <- call VerifyInMeeting (Ok (inCall t)) ;;
  let confirmed := if inCall t then true else hasConfirmedInCall in
  callEnded <- call (CheckCallEnded confirmed)
                 (WhatsAppCall.checkCallEnded (page t) confirmed) ;;
  if callEnded then update (set_state CALL_ENDED) ;; ret (Break, confirmed)
  else
    w <- get ;;
    match callStartedAt (self w) with
    | Some started =>
        if (maxDurationMs <? now t - started)%Z then
          _ <- call EndCall (endCall cs) ;;
          update (set_state CALL_ENDED) ;;
          ret (Break, confirmed)
        else ret (Continue, confirmed)
    | None => ret (Continue, confirmed)
    end.

Fixpoint callLoop (maxDurationMs : Z) (hasConfirmedInCall : bool)
  (pending : list CallTick) : M unit :=
  fun w =>
    if STATE_eqb (state (self w)) IN_CALL && running (self w) then
      match pending with
      | [] => Waiting w
      | t :: rest =>
          (r <- callTick maxDurationMs hasConfirmedInCall t ;;
           match r with
           | (Break, _) => ret tt
           | (Continue, confirmed) => callLoop maxDurationMs confirmed rest
           end) w
      end
    else Ret tt w.

Definition monitorCall : M unit :=
  w <- get ;;
  callLoop (maxCallDurationMin (config (self w)) * 60 * 1000)%Z false
    (callTicks cs) ;;
  processCallEnd.

Definition abandonCall : M unit :=
  update (set_currentCall None) ;;
  update (set_state IDLE).

(** [handleIncomingCall] once the call is answered. *)
Definition recordCall (who : string) : M unit :=
  update (fun x =>
            set_currentCall
              (option_map (fun c => mkCaller (caller c) (video c)
                                      (detectedAt c) true (declined c)
                                      (Some (answeredClock cs)))
                 (currentCall x)) x) ;;
  update (set_callStartedAt (Some (answeredClock cs))) ;;
  update (fun x => set_callCount (S (callCount x)) x) ;;
  call MuteMedia (Ok tt) ;;
  update (set_state IN_CALL) ;;
  w <- get ;;
  (if recordingEnabled (config (self w)) then
     emit SetupAudio ;;
     startRecording (callName cs who) ;;
     _ <- routeAudio ;;
     ret tt
   else ret tt) ;;
  monitorCall.

Definition answerAndRecord (who : string) : M unit :=
  update (set_state ANSWERING) ;;
  answered <- call AnswerCall (Ok (answerCall cs)) ;;
  if negb answered then abandonCall
  else recordCall who.

(** [handleIncomingCall] once the caller is allowed: wait, look whether
    the call still rings, answer. *)
Definition answerAfterDelay (who : string) : M unit :=
  w <- get ;;
  if (0 <? autoAnswerDelaySec (config (self w)))%Z then
    ringing <- call DetectIncomingCall (Ok (stillRinging cs)) ;;
    if negb (detected ringing) then abandonCall
    else answerAndRecord who
  else answerAndRecord who.

Definition handleIncomingCall (callInfo : CallInfo) : M unit :=
  let who := callerOf callInfo in
  update (set_currentCall
            (Some (mkCaller who (isVideo callInfo) (detectedClock cs)
                     false false None))) ;;
  w <- get ;;
  if negb (WhatsAppPlatform.isCallerAllowed who (allowList (config (self w)))
             (blockList (config (self w))))
  then
    _ <- call DeclineCall (declineCall cs) ;;
    abandonCall
  else answerAfterDelay who.

End Call.

Inductive AuthState : Type := logged_in | qr_code | loading | unknown.

(** One turn of the main loop. *)
Record Poll : Type := mkPoll {
  incoming : CallInfo;              (* detectIncomingCall *)
  handling : CallScript;            (* the answers while that call is handled *)
  authState : AuthState;            (* checkAuthState *)
  reauthed : bool;                  (* waitForAuth(60000) *)
  reconnect : result unit;          (* connectBrowser in the recovery *)
  reopened : bool                   (* ensureWhatsAppOpen in the recovery *)
}.

Record Script : Type := mkScript {
  configFile : result WatcherConfig;   (* reading and parsing whatsapp-config.json *)
  connectChrome : result unit;
  whatsAppOpen : bool;                 (* ensureWhatsAppOpen *)
  authed : bool;                       (* waitForAuth(180000) *)
  polls : list Poll
}.

Definition loadConfig (file : result WatcherConfig) : M unit :=
  match file with
  | Ok c => update (set_config c)
  | Throws => update (set_config fallbackConfig)
  end.

Definition connectBrowser (r : result unit) : M unit :=
  call ConnectChrome r ;;
  update (set_connected true).

Definition pollBody (p : Poll) : M unit :=
  w <- get ;;
  if negb (STATE_eqb (state (self w)) IDLE) then ret tt
  else
    callInfo <- call DetectIncomingCall (Ok (incoming p)) ;;
    if detected callInfo then
      update (set_state RINGING) ;;
      handleIncomingCall (handling p) callInfo
    else
      tryCatch
        (auth <- call CheckAuthState (Ok (authState p)) ;;
         match auth with
         | qr_code =>
             update (set_state ERROR) ;;
             ok <- call WaitForAuth (Ok (reauthed p)) ;;
             if ok then update (set_state IDLE) else ret tt
         | _ => ret tt
         end)
        (ret tt).

Definition recover (p : Poll) : M unit :=
  tryCatch
    (connectBrowser (reconnect p) ;;
     _ <- call OpenWhatsApp (Ok (reopened p)) ;;
     update (set_state IDLE))
    (ret tt).

Fixpoint pollLoop (pending : list Poll) : M unit :=
  fun w =>
    if running (self w) then
      match pending with
      | [] => Waiting w
      | p :: rest => (tryCatch (pollBody p) (recover p) ;; pollLoop rest) w
      end
    else Ret tt w.

Definition cleanupPid : M unit :=
  w <- get ;;
  if Fs.existsSync (fs w) (pidFile (config (self w)))
  then updateFs (fun fs => Fs.unlinkSync fs (pidFile (config (self w))))
  else ret tt.

Definition run (s : Script) : M unit :=
  update (set_running true) ;;
  loadConfig (configFile s) ;;
  w <- get ;;
  emit (WritePid (pidFile (config (self w)))) ;;
  updateFs (fun fs => Fs.writeFileSync fs (pidFile (config (self w))) Fs.Pid) ;;
  tryCatch (connectBrowser (connectChrome s)) (processExit 1) ;;
  opened <- call OpenWhatsApp (Ok (whatsAppOpen s)) ;;
  (if negb opened then processExit 1 else ret tt) ;;
  update (set_state WAITING_AUTH) ;;
  ok <- call WaitForAuth (Ok (authed s)) ;;
  (if negb ok then processExit 1 else ret tt) ;;
  call DismissPopups (Ok tt) ;;
  emit SetupAudio ;;
  update (set_state IDLE) ;;
  pollLoop (polls s) ;;
  cleanupPid.

Definition start (files : Fs.t) : World := mkWorld constructor files [].

(** *** Vocabulary of the properties *)

Definition emitted (P : Event -> Prop) (w w' : World) : Prop :=
  exists evs, trace w' = (trace w ++ evs)%list /\ Forall P evs.

Definition isNotDecline (e : Event) : Prop :=
  match e with
  | DeclineCall => False
  | _ => True
  end.

Definition isWriteSession (e : Event) : Prop :=
  match e with
  | WriteSession _ => True
  | _ => False
  end.

(** The watcher decides about [callInfo] with these lists. *)
Definition verdict (w : World) (callInfo : CallInfo) : bool :=
  WhatsAppPlatform.isCallerAllowed (callerOf callInfo)
    (allowList (config (self w))) (blockList (config (self w))).

End WhatsAppWatcher.

(* ================================================================== *)
(** * Sample runs *)
(* ================================================================== *)

Module Examples.
Import JsString MeetingBot.

Definition meetUrl : string := "https://meet.google.com/abc-defg-hij".
Definition zoomUrl : string := "https://zoom.us/j/123456789?pwd=abc123".

Definition noElements : string -> result nat := fun _ => Ok 0.

(** Google Meet with the bot alone in the call. *)
Definition alonePage : Page :=
  mkPage (Ok "<div>You are the only one here</div>")
    (Ok (mkDom "You are the only one here" "<div>You are the only one here</div>" []))
    (Ok meetUrl) noElements.

(** Google Meet with three tiles on screen. *)
Definition busyPage : Page :=
  mkPage (Ok "<div data-participant-id></div>")
    (Ok (mkDom "Ann, Bob" "<div data-participant-id></div>" []))
    (Ok meetUrl)
    (fun selector => if String.eqb selector "[data-participant-id]"
                     then Ok 3 else Ok 0).

(** Google Meet while nothing tells how many are there. *)
Definition loadingPage : Page :=
  mkPage (Ok "<div></div>") (Ok (mkDom EmptyString "<div></div>" []))
    (Ok meetUrl) noElements.

(** A page that went away: every call on it throws. *)
Definition lostPage : Page :=
  mkPage Throws Throws Throws (fun _ => Throws).

(** WhatsApp Web showing the chat list, no call on screen. *)
Definition chatListDom : Dom :=
  mkDom "Chats"
    (quoted "<div id=" "pane-side" "></div>") [ "search"; "menu" ].

Definition chatListPage : Page :=
  mkPage (Ok (innerHTML chatListDom)) (Ok chatListDom)
    (Ok "https://web.whatsapp.com/") noElements.

Definition aloneTick (clock : Z) : Tick := mkTick (Ok [1024%positive]) alonePage clock.
Definition busyTick (clock : Z) : Tick := mkTick (Ok [1024%positive]) busyPage clock.
Definition loadingTick (clock : Z) : Tick := mkTick (Ok []) loadingPage clock.
Definition lostTick (clock : Z) : Tick := mkTick Throws lostPage clock.

(** A run, given what connecting to Chrome and clicking the join button
    do, what the waiting room and the join check answer, and the turns of
    the monitoring loop; every other call goes through. *)
Definition scriptWith (connect : result unit) (click : result bool)
  (admission : Admission) (verified : bool) (ts : list Tick) : Script :=
  {| config := Config.DEFAULTS;
     connectChrome := connect;
     injectCapture := Ok tt;
     outputDir := "/root/meeting-transcripts/2026/02/2026-02-19_143000_standup";
     joinClock := 1000;
     extractedCode := Some "abc-defg-hij";
     gotoMeeting := Ok tt;
     dismissPopups1 := Ok tt;
     enterName := Ok true;
     muteMedia := Ok tt;
     dismissPopups2 := Ok tt;
     clickJoin := click;
     dismissPopups3 := Ok tt;
     waitForAdmission := Ok admission;
     verifyInMeeting := Ok verified;
     audioReady := true;
     ticks := ts;
     finalChunks := Ok [2048%positive];
     endClock := 2000000;
     transcribeExec := Ok tt;
     transcriptWritten := true;
     transcriptText := "hello";
     openTabs := Ok 2%nat;
     tabAction := Ok tt;
     generateMetadataExec := Throws |}.

(** A run in which every call goes through. *)
Definition script : Admission -> bool -> list Tick -> Script :=
  scriptWith (Ok tt) (Ok true).

(** The same with Chrome not running. *)
Definition unattachedScript : Script :=
  scriptWith Throws (Ok true) not_waiting true [].

(** The same with a join click that throws. *)
Definition stuckScript : Script :=
  scriptWith (Ok tt) Throws not_waiting true [].

Definition recording : string :=
  "/root/meeting-transcripts/2026/02/2026-02-19_143000_standup/audio.webm".

(** The bot in a Google Meet call, recording, the timer not running. *)
Definition monitoring (a : Adapter) : World :=
  {| bot := {| attached := true; adapter := Some a;
               recordingPath := Some recording;
               meetingName := Some "standup";
               isInMeeting := true; hasJoinedMeeting := true;
               startedAt := Some 1000%Z; meetingCode := Some "abc-defg-hij";
               leftDueToEmptyTimeout := false; emptyMeetingSince := None;
               audioSaveInterval := true |};
     fs := Fs.writeFileSync Fs.empty recording (Fs.Audio 4096);
     trace := [] |}.

(** The same with the timer started at [since]. *)
Definition waitingSince (a : Adapter) (since : Z) : World :=
  mkWorld (set_emptyMeetingSince (Some since) (bot (monitoring a)))
    (fs (monitoring a)) [].

(** A call that is answered and ends at the first look. *)
Definition callScript : WhatsAppWatcher.CallScript :=
  {| WhatsAppWatcher.detectedClock := 1000;
     WhatsAppWatcher.declineCall := Ok true;
     WhatsAppWatcher.stillRinging :=
       WhatsAppWatcher.mkCallInfo true (Some "+15551234567") false;
     WhatsAppWatcher.answerCall := true;
     WhatsAppWatcher.answeredClock := 4000;
     WhatsAppWatcher.callStamp := "2026-02-19T14-30-00";
     WhatsAppWatcher.startRecordingOutput :=
       Ok (Some "/root/meeting-transcripts/2026/02/call/audio.wav");
     WhatsAppWatcher.audioRouted := true;
     WhatsAppWatcher.callTicks :=
       [ WhatsAppWatcher.mkCallTick false chatListPage 11000 ];
     WhatsAppWatcher.endCall := Ok true;
     WhatsAppWatcher.endClock := 12000;
     WhatsAppWatcher.transcribeExec := Ok tt;
     WhatsAppWatcher.transcriptWritten := true;
     WhatsAppWatcher.transcriptText := "hello";
     WhatsAppWatcher.generateMetadataExec := Throws |}.

(** The watcher idle, with the given lists. *)
Definition idleWatcher (allow block : list string) : WhatsAppWatcher.World :=
  WhatsAppWatcher.mkWorld
    (WhatsAppWatcher.mkWatcher true
       (WhatsAppWatcher.mkConfig allow block 3 120 true true true
          "/tmp/whatsapp-watcher.pid")
       WhatsAppWatcher.RINGING true None None None 0)
    Fs.empty [].

Definition callFrom (who : string) : WhatsAppWatcher.CallInfo :=
  WhatsAppWatcher.mkCallInfo true (Some who) false.

(** The watcher started without Chrome. *)
Definition unattachedWatcher : WhatsAppWatcher.Script :=
  {| WhatsAppWatcher.configFile := Throws;
     WhatsAppWatcher.connectChrome := Throws;
     WhatsAppWatcher.whatsAppOpen := true;
     WhatsAppWatcher.authed := true;
     WhatsAppWatcher.polls := [] |}.

(** An adapter whose participant count throws. *)
Definition flakyAdapter : Adapter :=
  mkAdapter "flaky" 3000 (fun u => u) false
    (fun _ _ => Ok false) (fun _ => Throws).

End Examples.

(* ================================================================== *)
(** * Classes of characters *)
(* ================================================================== *)

Module Text.

(** Every character of [s] is in the class [f]. *)
Definition all (f : ascii -> bool) (s : string) : bool :=
  forallb f (list_ascii_of_string s).

(** [s] does not begin with a character of the class [f]. *)
Definition stopsAt (f : ascii -> bool) (s : string) : bool :=
  match s with
  | EmptyString => true
  | String c _ => negb (f c)
  end.

End Text.

(* ================================================================== *)
(** * Numbers as text *)
(* ================================================================== *)

Module JsNumber.

(** [Number.MAX_SAFE_INTEGER], 2^53 - 1: up to it a number holds every
    integer exactly and [String] prints it in plain digits. *)
Definition MAX_SAFE_INTEGER : Z := 9007199254740991.

(** [String(n)] of an integer: its decimal digits, a minus sign before
    those of a negative one. *)
Definition toString (n : Z) : string := DecimalString.NilZero.string_of_int (Z.to_int n).

Fixpoint repeat (c : ascii) (count : nat) : string :=
  match count with
  | O => EmptyString
  | S count' => String c (repeat c count')
  end.

(** [s.padStart(targetLength, fill)] with a fill of one character. *)
Definition padStart (s : string) (targetLength : nat) (fill : ascii) : string :=
  repeat fill (targetLength - String.length s) ++ s.

(** [String(n).padStart(2, "0")] *)
Definition pad2 (n : Z) : string := padStart (toString n) 2 "0".

End JsNumber.

(* ================================================================== *)
(** * meeting-bot.js and whatsapp-watcher.js: formatDuration *)
(* ================================================================== *)

Module Duration.
Import JsNumber.

(** [formatDuration(ms)], the same text in both controllers.  [Math.floor]
    of a quotient is [Z.div] (the divisors are positive), [%] keeps the
    sign of the dividend and is [Z.rem]. *)
Definition formatDuration (ms : Z) : string :=
  let totalSeconds := (ms / 1000)%Z in
  let hours := (totalSeconds / 3600)%Z in
  let minutes := (Z.rem totalSeconds 3600 / 60)%Z in
  let seconds := Z.rem totalSeconds 60 in
  if (0 <? hours)%Z
  then toString hours ++ ":" ++ pad2 minutes ++ ":" ++ pad2 seconds
  else toString minutes ++ ":" ++ pad2 seconds.

(** *** Vocabulary of the properties *)

Definition isDigitChar (c : ascii) : bool :=
  let n := nat_of_ascii c in (48 <=? n)%nat && (n <=? 57)%nat.

Definition digitsOnly (s : string) : bool := Text.all isDigitChar s.

(** The two digits of a number below 100. *)
Definition twoDigits (n : Z) : string :=
  String (ascii_of_nat (48 + Z.to_nat (n / 10)))
    (String (ascii_of_nat (48 + Z.to_nat (n mod 10))) EmptyString).

End Duration.

(* ================================================================== *)
(** * meeting-bot.js: the directory of a recording *)
(* ================================================================== *)

Module RecordingDir.
Import JsString JsNumber.

(** [\s] on characters below 256: tab, line feed, vertical tab, form
    feed, carriage return, space and the no-break space. *)
Definition isWhiteSpace (c : ascii) : bool :=
  existsb (Nat.eqb (nat_of_ascii c)) [9; 10; 11; 12; 13; 32; 160]%nat.

Definition isAlnum (c : ascii) : bool :=
  let n := nat_of_ascii c in
  ((48 <=? n) && (n <=? 57) || (65 <=? n) && (n <=? 90)
   || (97 <=? n) && (n <=? 122))%nat.

(** The class [a-zA-Z0-9_-]. *)
Definition isNameChar (c : ascii) : bool :=
  isAlnum c || Ascii.eqb c "_" || Ascii.eqb c "-".

(** [.replace(/\s+/g, "-")]: each maximal run of white space becomes one
    dash; [inRun] says that the character before was white space. *)
Fixpoint dashSpaces (inRun : bool) (s : string) : string :=
  match s with
  | EmptyString => EmptyString
  | String c s' =>
      if isWhiteSpace c
      then if inRun then dashSpaces true s'
           else String "-" (dashSpaces true s')
      else String c (dashSpaces false s')
  end.

(** [.replace(/[^a-zA-Z0-9_-]/g, empty)]: the characters outside the class
    are deleted. *)
Fixpoint keepNameChars (s : string) : string :=
  match s with
  | EmptyString => EmptyString
  | String c s' =>
      if isNameChar c then String c (keepNameChars s') else keepNameChars s'
  end.

(** [safeName] of [startRecording]: the name, or meeting for the empty
    name, with its white space dashed and then the characters outside the
    class deleted. *)
Definition safeName (meetingName : string) : string :=
  keepNameChars
    (dashSpaces false (if isEmpty meetingName then "meeting" else meetingName)).

(** *** Vocabulary of the properties *)

Definition allNameChars (s : string) : bool := Text.all isNameChar s.

(** No character of a name survives: each is outside the class and is not
    white space. *)
Fixpoint allDropped (s : string) : bool :=
  match s with
  | EmptyString => true
  | String c s' => negb (isNameChar c) && negb (isWhiteSpace c) && allDropped s'
  end.

End RecordingDir.

(* ================================================================== *)
(** * platforms/zoom.js: the meeting code *)
(* ================================================================== *)

Module ZoomCode.
Import JsString.

(** The digits of [(\d+)] at the head of [s]: the longest run, which must
    not be empty. *)
Definition digitsAt (s : string) : option string :=
  let (digits, _) := ZoomPlatform.span ZoomPlatform.isDigit s in
  if isEmpty digits then None else Some digits.

(** The pattern of [extractMeetingCode], a slash, then j or wc/join, then
    a slash and digits, tried at the head of [s].  The two alternatives
    begin with different characters, so the second is tried only where the
    first cannot match. *)
Definition matchCodeAt (s : string) : option string :=
  if startsWith s "/j/" then digitsAt (drop 3 s)
  else if startsWith s "/wc/join/" then digitsAt (drop 9 s)
  else None.

(** [extractMeetingCode(url)]: group 1 of the leftmost match, or null. *)
Fixpoint extractMeetingCode (url : string) : option string :=
  match matchCodeAt url with
  | Some code => Some code
  | None =>
      match url with
      | EmptyString => None
      | String _ rest => extractMeetingCode rest
      end
  end.

End ZoomCode.

(* ================================================================== *)
(** * platforms/index.js: the registry and its other readers *)
(* ================================================================== *)

Module PlatformIndex.
Import JsString.

(** [PLATFORMS]: the test of each entry and the adapter class it names. *)
Definition PLATFORMS : list ((string -> bool) * Platform) :=
  [ (fun url => includes url "meet.google.com", GoogleMeet);
    (fun url => includes url "zoom.us", Zoom);
    (fun url => includes url "web.whatsapp.com", WhatsApp);
    (fun url => includes url "whatsapp.com", WhatsApp) ].

(** [for (const { test, Adapter } of PLATFORMS) if (test(url)) return ...] *)
Fixpoint firstMatch (registry : list ((string -> bool) * Platform))
  (url : string) : option Platform :=
  match registry with
  | [] => None
  | (test, a) :: rest => if test url then Some a else firstMatch rest url
  end.

(** [PLATFORMS.some(({ test }) => test(url))] *)
Definition isSupportedUrl (url : string) : bool :=
  existsb (fun entry => fst entry url) PLATFORMS.

Definition detectPlatformName (url : string) : string :=
  match firstMatch PLATFORMS url with
  | Some a => name (Platforms.adapterOf a)
  | None => "unknown"
  end.

End PlatformIndex.

(* ================================================================== *)
(** * Assertions on processes *)
(* ================================================================== *)

Module Hoare.
Import Proc.

Section WithWorld.
Context {W : Type}.

(** [m], started in [w], ends in a way its assertion allows: [Q] if it
    returns, [R] if it throws, [G] if it ends the process.  Nothing is
    asked of a computation that is still polling when the observations
    end. *)
Definition wp {A} (m : M W A) (Q : A -> W -> Prop) (R : W -> Prop)
  (G : Z -> W -> Prop) (w : W) : Prop :=
  match m w with
  | Ret a w' => Q a w'
  | Raise w' => R w'
  | Exit code w' => G code w'
  | Waiting _ => True
  end.

(** The assertions that nothing satisfies. *)
Definition never {A} : A -> W -> Prop := fun _ _ => False.
Definition neverW : W -> Prop := fun _ => False.

End WithWorld.

End Hoare.

(* ================================================================== *)
(** * meeting-bot.js: vocabulary of the further properties *)
(* ================================================================== *)

Module MeetingBotMore.
Import JsString MeetingBot.

(** The session record is on disk, and the call that wrote it is in the
    trace. *)
Definition sessionWritten (w : World) : Prop :=
  exists path info,
    In (WriteSession path) (trace w)
    /\ fs w path = Some (Fs.Session info).

(** The run went through [cleanup] and left its record. *)
Definition finished (w : World) : Prop :=
  In Cleanup (trace w) /\ sessionWritten w.

Definition isUnlink (e : Event) : Prop :=
  match e with
  | Unlink _ => True
  | _ => False
  end.

(** The calls [cleanup] makes once the recording is dealt with. *)
Definition isConcludeEvent (e : Event) : Prop :=
  match e with
  | CloseTab | GenerateMetadata _ | WriteSession _ | ProcessExit _ => True
  | _ => False
  end.

(** The adapter never tells how many participants there are: it answers
    -1 on every page, as the default of [BasePlatform] does. *)
Definition countsUnknown (a : Adapter) : Prop :=
  forall page, getParticipantCount a page = Ok (-1)%Z.

(** The bot has not left an empty meeting, its timer is not running and
    nothing was unlinked. *)
Definition quiet (w : World) : Prop :=
  leftDueToEmptyTimeout (bot w) = false
  /\ emptyMeetingSince (bot w) = None
  /\ Forall (fun e => ~ isUnlink e) (trace w).

Definition unknownCounts (w : World) : Prop :=
  forall a, adapter (bot w) = Some a -> countsUnknown a.

(** The URL is not one of Google Meet. *)
Definition beyondMeet (url : string) : Prop :=
  Platforms.detectPlatform url <> Some GoogleMeet.

(** What holds at each turn of the monitoring loop. *)
Definition monitoringInv (url : string) (w : World) : Prop :=
  isInMeeting (bot w) = true
  /\ (beyondMeet url -> quiet w /\ unknownCounts w).

(** How a run may end the process. *)
Definition endsWell (url : string) (code : Z) (w : World) : Prop :=
  code = 0%Z /\ finished w /\ (beyondMeet url -> quiet w).

(** The session file [cleanup] writes for a bot. *)
Definition sessionFile (b : Bot) : string :=
  match recordingPath b with
  | Some path => replace path "audio.wav" "session.json"
  | None => "/tmp/last-meeting-session.json"
  end.

End MeetingBotMore.

(* ================================================================== *)
(** * whatsapp-watcher.js: vocabulary of the further properties *)
(* ================================================================== *)

Module WatcherMore.
Import JsString WhatsAppWatcher.

(** The watcher answers the call: the caller passes the lists, the call
    still rings after the delay, and the answer button is found. *)
Definition answers (cs : CallScript) (w : World) (callInfo : CallInfo) : bool :=
  verdict w callInfo
  && (negb (0 <? autoAnswerDelaySec (config (self w)))%Z
      || detected (stillRinging cs))
  && answerCall cs.

(** A turn of the call loop at which the page does not show the end of
    the call, whether the call was confirmed or not. *)
Definition callGoesOn (t : CallTick) : Prop :=
  forall confirmed, WhatsAppCall.checkCallEnded (page t) confirmed = Ok false.

(** The class of the characters of a call name: letters, digits and the
    dash. *)
Definition isCallNameChar (c : ascii) : bool :=
  isAlnum c || Ascii.eqb c "-".

End WatcherMore.

(* ================================================================== *)
(** * Further sample runs *)
(* ================================================================== *)

Module MoreExamples.
Import JsString MeetingBot.

(** The Zoom web client in a meeting: the leave button is there. *)
Definition zoomRoomPage : Page :=
  mkPage (Ok "<div class=meeting-app><button class=footer__leave-btn>Leave</button></div>")
    (Ok (mkDom "Leave" "<button class=footer__leave-btn>Leave</button>" []))
    (Ok "https://zoom.us/wc/join/123456789")
    (fun selector => if String.eqb selector ".footer__leave-btn"
                     then Ok 1%nat else Ok 0%nat).

(** The same once the host has ended the meeting. *)
Definition zoomEndedPage : Page :=
  mkPage (Ok "<div>This meeting has been ended by host</div>")
    (Ok (mkDom "This meeting has been ended by host"
           "<div>This meeting has been ended by host</div>" []))
    (Ok "https://zoom.us/wc/join/123456789")
    Examples.noElements.

(** A Zoom meeting the bot is admitted to, watched for twenty minutes with
    nobody else in it, and then ended by the host. *)
Definition zoomScript : Script :=
  Examples.script admitted true
    [ mkTick (Ok [1024%positive]) zoomRoomPage 15000;
      mkTick (Ok [1024%positive]) zoomRoomPage 1215000;
      mkTick (Ok []) zoomEndedPage 1220000 ].

(** The watcher in its polling loop, idle, with the given lists. *)
Definition pollingWatcher (allow block : list string)
  : WhatsAppWatcher.World :=
  WhatsAppWatcher.mkWorld
    (WhatsAppWatcher.mkWatcher true
       (WhatsAppWatcher.mkConfig allow block 3 120 true true true
          "/tmp/whatsapp-watcher.pid")
       WhatsAppWatcher.IDLE true None None None 0)
    Fs.empty [].

(** A poll that finds WhatsApp Web logged out, and stays so. *)
Definition loggedOutPoll : WhatsAppWatcher.Poll :=
  WhatsAppWatcher.mkPoll (WhatsAppWatcher.mkCallInfo false None false)
    Examples.callScript WhatsAppWatcher.qr_code false (Ok tt) true.

(** A poll that finds a call from [who]. *)
Definition callPoll (who : string) : WhatsAppWatcher.Poll :=
  WhatsAppWatcher.mkPoll (Examples.callFrom who) Examples.callScript
    WhatsAppWatcher.logged_in true (Ok tt) true.

End MoreExamples.

(* ################################################################## *)
(** * Properties *)
(* ################################################################## *)

(* ================================================================== *)
(** ** Strings *)
(* ================================================================== *)

Module JsStringFacts.
Import JsString.

Lemma startsWith_refl_app (p s : string) : startsWith (p ++ s) p = true.
Proof.
  induction p as [|c p IH]; simpl; [reflexivity|].
  now rewrite Ascii.eqb_refl, IH.
Qed.

Lemma includes_startsWith (s p : string) :
  startsWith s p = true -> includes s p = true.
Proof. intros H. destruct s; simpl; now rewrite H. Qed.

Lemma includes_app (a p b : string) : includes (a ++ p ++ b) p = true.
Proof.
  induction a as [|c a IH].
  - apply (includes_startsWith (p ++ b) p), startsWith_refl_app.
  - change (String c a ++ p ++ b) with (String c (a ++ p ++ b)).
    cbn [includes]. rewrite IH. apply orb_true_r.
Qed.

Lemma startsWith_empty (s : string) : startsWith s EmptyString = true.
Proof. reflexivity. Qed.

Lemma includes_empty (s : string) : includes s EmptyString = true.
Proof. destruct s; reflexivity. Qed.

Lemma lowerChar_star (c : ascii) :
  Ascii.eqb "*" (lowerChar c) = Ascii.eqb "*" c.
Proof.
  destruct c as [[] [] [] [] [] [] [] []]; reflexivity.
Qed.

Lemma includes_star (c : ascii) (s : string) :
  includes (String c s) "*" = Ascii.eqb "*" c || includes s "*".
Proof. cbn [includes startsWith]. now rewrite andb_true_r. Qed.

Lemma includes_star_toLowerCase (p : string) :
  includes (toLowerCase p) "*" = includes p "*".
Proof.
  induction p as [|c p IH]; [reflexivity|].
  change (toLowerCase (String c p)) with (String (lowerChar c) (toLowerCase p)).
  now rewrite !includes_star, lowerChar_star, IH.
Qed.

Lemma star_is_included (p : string) :
  String.eqb p "*" = true -> includes p "*" = true.
Proof. intros H; apply String.eqb_eq in H; subst; reflexivity. Qed.

Lemma isEmpty_toLowerCase (s : string) : isEmpty (toLowerCase s) = isEmpty s.
Proof. destruct s; reflexivity. Qed.

End JsStringFacts.

(* ================================================================== *)
(** ** The allow list of the WhatsApp adapter *)
(* ================================================================== *)

Module AllowListFacts.
Import JsString JsStringFacts WhatsAppPlatform.

Lemma anyPatternMatches_existsb (caller : string) (patterns : list string) :
  anyPatternMatches (toLowerCase caller) patterns = matchesAny caller patterns.
Proof.
  induction patterns as [|p ps IH]; simpl; [reflexivity|].
  unfold matchesPattern at 1. rewrite IH.
  now destruct (_matchPattern _ _).
Qed.

Lemma matchPattern_star_free (str pattern : string) :
  includes pattern "*" = false ->
  _matchPattern str pattern = includes str pattern.
Proof.
  intros H. unfold _matchPattern. rewrite H.
  destruct (String.eqb pattern "*") eqn:E; [|reflexivity].
  apply star_is_included in E. congruence.
Qed.

Lemma compile_pattern_char (c : ascii) (p tail : string) (ts : list Regex.tok) :
  Regex.compile (starToDotStar (escapeRegex p) ++ tail) = Some ts ->
  Regex.compile (starToDotStar (escapeRegex (String c p)) ++ tail)
  = Some (tokenOf c :: ts).
Proof.
  intros H.
  destruct c as [[] [] [] [] [] [] [] []];
    cbn [escapeRegex starToDotStar isEscaped existsb list_ascii_of_string
         Ascii.eqb Bool.eqb orb andb append Regex.compile Regex.isSyntaxChar
         tokenOf];
    rewrite ?H; reflexivity.
Qed.

Lemma compile_pattern (p : string) :
  Regex.compile (starToDotStar (escapeRegex p) ++ "$")
  = Some (map tokenOf (list_ascii_of_string p) ++ [Regex.Eol])%list.
Proof.
  induction p as [|c p IH]; [reflexivity|].
  now apply compile_pattern_char.
Qed.

(** [new RegExp] accepts every source [_matchPattern] builds. *)
Lemma compile_regexSource (pattern : string) :
  Regex.compile (regexSource pattern)
  = Some (Regex.Bol :: map tokenOf (list_ascii_of_string pattern)
            ++ [Regex.Eol])%list.
Proof.
  unfold regexSource.
  change ("^" ++ starToDotStar (escapeRegex pattern) ++ "$")
    with (String "^" (starToDotStar (escapeRegex pattern) ++ "$")).
  cbn [Regex.compile Ascii.eqb Bool.eqb Regex.isSyntaxChar].
  now rewrite compile_pattern.
Qed.


(** C8. Wildcard matching: the pattern +1* matches the caller
    +15551234567 and does not match +447700900000, and the pattern *
    matches every caller string, the empty one included. *)
Theorem wildcard_pattern_matching :
  _matchPattern "+15551234567" "+1*" = true
  /\ _matchPattern "+447700900000" "+1*" = false
  /\ (forall caller, _matchPattern caller "*" = true)
  /\ _matchPattern EmptyString "*" = true.
Proof.
  repeat split; try reflexivity.
Qed.

Lemma isCallerAllowed_nonempty (caller : string) (allowList blockList : list string) :
  isEmpty caller = false ->
  isCallerAllowed caller allowList blockList
  = if matchesAny caller blockList then false
    else if Nat.eqb (List.length allowList) 0 then true
         else matchesAny caller allowList.
Proof.
  intros H. unfold isCallerAllowed. rewrite H.
  now rewrite !anyPatternMatches_existsb.
Qed.

Lemma matchesAny_nonempty (caller : string) (patterns : list string) :
  matchesAny caller patterns = true -> Nat.eqb (List.length patterns) 0 = false.
Proof. destruct patterns; [discriminate|reflexivity]. Qed.

Lemma length_nonempty {A} (l : list A) :
  l <> [] -> Nat.eqb (List.length l) 0 = false.
Proof. destruct l; [congruence|reflexivity]. Qed.

Lemma blocked_is_refused (caller : string) (allowList blockList : list string) :
  matchesAny caller allowList = true ->
  matchesAny caller blockList = true ->
  isCallerAllowed caller allowList blockList = false.
Proof.
  intros Ha Hb. destruct (isEmpty caller) eqn:E.
  - unfold isCallerAllowed. rewrite E. now apply matchesAny_nonempty in Ha.
  - now rewrite isCallerAllowed_nonempty, Hb.
Qed.

Lemma unlisted_is_refused (caller : string) (allowList blockList : list string) :
  matchesAny caller allowList = false ->
  matchesAny caller blockList = false ->
  allowList <> [] ->
  isCallerAllowed caller allowList blockList = false.
Proof.
  intros Ha Hb Hne. apply length_nonempty in Hne.
  destruct (isEmpty caller) eqn:E.
  - unfold isCallerAllowed. now rewrite E.
  - now rewrite isCallerAllowed_nonempty, Hb, Hne.
Qed.

Lemma open_list_admits (caller : string) (blockList : list string) :
  matchesAny caller blockList = false ->
  isCallerAllowed caller [] blockList = true.
Proof.
  intros Hb. destruct (isEmpty caller) eqn:E.
  - unfold isCallerAllowed. now rewrite E.
  - now rewrite isCallerAllowed_nonempty, Hb.
Qed.

Lemma star_free_entry_matches (caller entry : string) :
  includes entry "*" = false ->
  matchesPattern caller entry
  = includes (toLowerCase caller) (toLowerCase entry).
Proof.
  intros H. unfold matchesPattern. apply matchPattern_star_free.
  now rewrite includes_star_toLowerCase.
Qed.

Lemma matchesAny_In (caller entry : string) (patterns : list string) :
  In entry patterns -> matchesPattern caller entry = true ->
  matchesAny caller patterns = true.
Proof.
  intros Hin Hm. apply existsb_exists. now exists entry.
Qed.

(** C10, as the code has it.  A pattern without * is a substring test on
    the lowered texts: it matches a caller exactly when the lowered caller
    contains the lowered pattern somewhere.  So a block-list entry without
    * refuses every caller with a non-empty identifier whose lowered
    identifier contains the lowered entry, whatever the allow list.  A
    caller without identifier is decided by the allow list alone: it is
    allowed exactly when that list is empty. *)
Theorem star_free_pattern_is_substring_test :
  (forall caller pattern,
      includes pattern "*" = false ->
      matchesPattern caller pattern
      = includes (toLowerCase caller) (toLowerCase pattern))
  /\ (forall caller entry allowList blockList,
         includes entry "*" = false ->
         In entry blockList ->
         includes (toLowerCase caller) (toLowerCase entry) = true ->
         isEmpty caller = false ->
         isCallerAllowed caller allowList blockList = false)
  /\ (forall caller allowList blockList,
         isEmpty caller = true ->
         (isCallerAllowed caller allowList blockList = true
          <-> allowList = [])).
Proof.
  split; [|split].
  - exact star_free_entry_matches.
  - intros caller entry allowList blockList Hstar Hin Hsub Hne.
    rewrite isCallerAllowed_nonempty by assumption.
    rewrite (matchesAny_In caller entry); [reflexivity|assumption|].
    now rewrite star_free_entry_matches.
  - intros caller allowList blockList He. unfold isCallerAllowed.
    rewrite He. destruct allowList as [|p ps]; cbn; split;
      intros H; try reflexivity; discriminate H.
Qed.

Lemma star_free_pattern_is_substring_test_witness :
  includes "smith" "*" = false
  /\ matchesPattern "John SMITH" "smith" = true
  /\ isCallerAllowed "John Smith" ["*"] ["spam"; "SMITH"] = false
  /\ isCallerAllowed EmptyString [] ["spam"] = true
  /\ isCallerAllowed EmptyString ["*"] [] <> true.
Proof.
  destruct star_free_pattern_is_substring_test as (A & B & C).
  split; [reflexivity|]. split; [|split; [|split]].
  - rewrite A; reflexivity.
  - apply (B "John Smith" "SMITH"); first [reflexivity | simpl; tauto].
  - apply (C EmptyString [] ["spam"]); reflexivity.
  - intros H. apply (C EmptyString ["*"] []) in H; [discriminate H|reflexivity].
Defined.

(** C10 as stated fails for a caller without identifier: the empty block
    entry is contained in the empty caller, yet with an empty allow list
    that caller is let through. *)
Lemma empty_caller_passes_block_list :
  ~ (forall caller entry allowList blockList,
        includes entry "*" = false ->
        In entry blockList ->
        includes caller entry = true ->
        isCallerAllowed caller allowList blockList = false).
Proof.
  intros H.
  specialize (H EmptyString EmptyString [] [EmptyString]
                eq_refl (or_introl eq_refl) eq_refl).
  discriminate H.
Qed.

End AllowListFacts.

(* ================================================================== *)
(** ** normalizeUrl *)
(* ================================================================== *)

Module NormalizeUrlFacts.
Import JsString JsStringFacts.

Lemma zoom_normalizeUrl_idempotent (u : string) :
  ZoomPlatform.normalizeUrl (ZoomPlatform.normalizeUrl u)
  = ZoomPlatform.normalizeUrl u.
Proof.
  assert (Hfix : forall v, includes v "/wc/join/" = true ->
                           ZoomPlatform.normalizeUrl v = v).
  { intros v Hv. unfold ZoomPlatform.normalizeUrl. now rewrite Hv. }
  destruct (includes u "/wc/join/") eqn:Hwc.
  - now rewrite !(Hfix u Hwc).
  - assert (Hu : ZoomPlatform.normalizeUrl u
                 = match ZoomPlatform.matchJoin u with
                   | Some (host, meetingId, rest) =>
                       host ++ "/wc/join/" ++ meetingId ++ rest
                   | None => u
                   end).
    { unfold ZoomPlatform.normalizeUrl. now rewrite Hwc. }
    destruct (ZoomPlatform.matchJoin u) as [[[host meetingId] rest]|] eqn:Hm.
    + rewrite Hu. apply Hfix, includes_app.
    + now rewrite !Hu.
Qed.

(** C9. For each adapter (the base default that Google Meet inherits, Zoom,
    WhatsApp) and every URL, normalizing twice gives what normalizing once
    gives. *)
Theorem normalizeUrl_idempotent :
  (forall u, BasePlatform.normalizeUrl (BasePlatform.normalizeUrl u)
             = BasePlatform.normalizeUrl u)
  /\ (forall a u, Platforms.normalizeUrl a (Platforms.normalizeUrl a u)
                  = Platforms.normalizeUrl a u).
Proof.
  split; [reflexivity|].
  intros [] u; simpl.
  - reflexivity.
  - apply zoom_normalizeUrl_idempotent.
  - reflexivity.
Qed.

End NormalizeUrlFacts.

(* ================================================================== *)
(** ** Processes *)
(* ================================================================== *)

Module ProcFacts.
Import Proc.

Section Laws.
Context {W : Type}.

Lemma returns_ret {A} (a : A) : returns (W:=W) (ret a).
Proof. intros w. now exists a, w. Qed.

Lemma returns_get : returns (W:=W) get.
Proof. intros w. now exists w, w. Qed.

Lemma returns_modify (f : W -> W) : returns (modify f).
Proof. intros w. now exists tt, (f w). Qed.

Lemma returns_bind {A B} (m : M W A) (k : A -> M W B) :
  returns m -> (forall a, returns (k a)) -> returns (bind m k).
Proof.
  intros Hm Hk w. destruct (Hm w) as (a & w' & E).
  unfold bind. rewrite E. apply Hk.
Qed.

Lemma settles_returns {A} (m : M W A) : returns m -> settles m.
Proof. intros H w. left. apply H. Qed.

Lemma settles_raise {A} : settles (W:=W) (A:=A) raise.
Proof. intros w. right. now exists w. Qed.

Lemma settles_await {A} (r : result A) : settles (W:=W) (await r).
Proof.
  destruct r; [apply settles_returns, returns_ret | apply settles_raise].
Qed.

Lemma settles_bind {A B} (m : M W A) (k : A -> M W B) :
  settles m -> (forall a, settles (k a)) -> settles (bind m k).
Proof.
  intros Hm Hk w. unfold bind.
  destruct (Hm w) as [(a & w' & E)|(w' & E)]; rewrite E.
  - apply Hk.
  - right. now exists w'.
Qed.

Lemma returns_tryCatch {A} (m handler : M W A) :
  settles m -> returns handler -> returns (tryCatch m handler).
Proof.
  intros Hm Hh w. unfold tryCatch.
  destruct (Hm w) as [(a & w' & E)|(w' & E)]; rewrite E.
  - now exists a, w'.
  - apply Hh.
Qed.

Lemma exits_exit {A} (code : Z) : exits (W:=W) (A:=A) code (exit code).
Proof. intros w. now exists w. Qed.

Lemma exits_bind_r {A B} (code : Z) (m : M W A) (k : A -> M W B) :
  returns m -> (forall a, exits code (k a)) -> exits code (bind m k).
Proof.
  intros Hm Hk w. destruct (Hm w) as (a & w' & E).
  unfold bind. rewrite E. apply Hk.
Qed.

Lemma exits_bind_l {A B} (code : Z) (m : M W A) (k : A -> M W B) :
  exits code m -> exits code (bind m k).
Proof.
  intros Hm w. destruct (Hm w) as (w' & E).
  unfold bind. rewrite E. now exists w'.
Qed.

(** Whatever the body of a try does, a handler that ends the process
    leaves three ways out: the body returned, the body ended the process
    itself, or the handler ran. *)
Lemma tryCatch_raise {A} (m handler : M W A) (w w' : W) :
  m w = Raise w' -> tryCatch m handler w = handler w'.
Proof. intros E. unfold tryCatch. now rewrite E. Qed.

Lemma tryCatch_exit {A} (m handler : M W A) (w w' : W) (code : Z) :
  m w = Exit code w' -> tryCatch m handler w = Exit code w'.
Proof. intros E. unfold tryCatch. now rewrite E. Qed.

Lemma bind_ret_eq {A B} (m : M W A) (k : A -> M W B) (w w' : W) (a : A) :
  m w = Ret a w' -> bind m k w = k a w'.
Proof. intros E. unfold bind. now rewrite E. Qed.

Lemma bind_raise_eq {A B} (m : M W A) (k : A -> M W B) (w w' : W) :
  m w = Raise w' -> bind m k w = Raise w'.
Proof. intros E. unfold bind. now rewrite E. Qed.

Lemma bind_exit_eq {A B} (m : M W A) (k : A -> M W B) (w w' : W) (c : Z) :
  m w = Exit c w' -> bind m k w = Exit c w'.
Proof. intros E. unfold bind. now rewrite E. Qed.

End Laws.

Section Steps.
Context {W : Type} (R : W -> W -> Prop).
Hypothesis R_refl : forall w, R w w.
Hypothesis R_trans : forall a b c, R a b -> R b c -> R a c.

Lemma steps_ret {A} (a : A) : steps R (ret a).
Proof. intros w. apply R_refl. Qed.

Lemma steps_raise {A} : steps R (A:=A) raise.
Proof. intros w. apply R_refl. Qed.

Lemma steps_exit {A} (code : Z) : steps R (A:=A) (exit code).
Proof. intros w. apply R_refl. Qed.

Lemma steps_get : steps R get.
Proof. intros w. apply R_refl. Qed.

Lemma steps_await {A} (r : result A) : steps R (await r).
Proof. destruct r; [apply steps_ret | apply steps_raise]. Qed.

Lemma steps_modify (f : W -> W) : (forall w, R w (f w)) -> steps R (modify f).
Proof. intros H w. apply H. Qed.

Lemma steps_bind {A B} (m : M W A) (k : A -> M W B) :
  steps R m -> (forall a, steps R (k a)) -> steps R (bind m k).
Proof.
  intros Hm Hk w. unfold bind. specialize (Hm w).
  destruct (m w) as [a w'| | |]; simpl in *; try assumption.
  eapply R_trans; [exact Hm | apply Hk].
Qed.

Lemma steps_tryCatch {A} (m handler : M W A) :
  steps R m -> steps R handler -> steps R (tryCatch m handler).
Proof.
  intros Hm Hh w. unfold tryCatch. specialize (Hm w).
  destruct (m w) as [a w'|w'| |]; simpl in *; try assumption.
  eapply R_trans; [exact Hm | apply Hh].
Qed.

End Steps.

(** Walks through a computation: [side] proves that the relation is
    reflexive and transitive, [prim] deals with the primitives. *)
Ltac walk side prim :=
  repeat (intros;
    lazymatch goal with
    | |- steps _ (bind _ _) => apply steps_bind; [side | | ]
    | |- steps _ (tryCatch _ _) => apply steps_tryCatch; [side | | ]
    | |- steps _ (ret _) => apply steps_ret; side
    | |- steps _ raise => apply steps_raise; side
    | |- steps _ (exit _) => apply steps_exit; side
    | |- steps _ get => apply steps_get; side
    | |- steps _ (await _) => apply steps_await; side
    | |- steps _ (if ?b then _ else _) => destruct b
    | |- steps _ (match ?x with _ => _ end) => destruct x
    | |- _ => prim
    end).


Ltac walk_returns prim :=
  repeat (intros;
    lazymatch goal with
    | |- returns (if ?b then _ else _) => destruct b
    | |- returns (match ?x with _ => _ end) => destruct x
    | |- settles (if ?b then _ else _) => destruct b
    | |- settles (match ?x with _ => _ end) => destruct x
    | |- returns (bind _ _) => apply returns_bind
    | |- returns (tryCatch _ _) => apply returns_tryCatch
    | |- returns (ret _) => apply returns_ret
    | |- returns get => apply returns_get
    | |- returns (modify _) => apply returns_modify
    | |- settles (bind _ _) => apply settles_bind
    | |- settles (await _) => apply settles_await
    | |- settles raise => apply settles_raise
    | |- _ => prim
    end).

Ltac walk_exits prim :=
  repeat (intros;
    lazymatch goal with
    | |- exits _ (if ?b then _ else _) => destruct b
    | |- exits _ (match ?x with _ => _ end) => destruct x
    | |- exits _ (bind _ _) =>
        apply exits_bind_r; [solve [walk_returns prim] | ]
    | |- exits _ (exit _) => apply exits_exit
    | |- _ => prim
    end).

End ProcFacts.

(* ================================================================== *)
(** ** What the adapters call ended *)
(* ================================================================== *)

Module AdapterFacts.
Import JsString BasePlatform.

(** Zoom, before the bot was ever seen in the meeting: only an end banner
    in the page ends the meeting. *)
Lemma zoom_before_joining (page : Page) :
  ZoomPlatform.checkMeetingEnded page false
  = Ok (_pageContainsAny page ZoomPlatform.endIndicators).
Proof.
  unfold ZoomPlatform.checkMeetingEnded.
  destruct (_pageContainsAny page ZoomPlatform.endIndicators);
    [reflexivity|].
  cbn [andb]. now destruct (url page).
Qed.

(** Zoom, once the bot was seen in the meeting: the meeting room gone from
    a page that still shows text ends the meeting. *)
Lemma zoom_after_joining (page : Page) (dom : Dom) :
  ZoomPlatform._isInMeetingRoom page = false ->
  evaluate page = Ok dom ->
  (50 < String.length (innerText dom))%nat ->
  ZoomPlatform.checkMeetingEnded page true = Ok true.
Proof.
  intros Hroom Hdom Hlen. unfold ZoomPlatform.checkMeetingEnded.
  rewrite Hroom, Hdom. apply Nat.ltb_lt in Hlen. rewrite Hlen.
  destruct (_pageContainsAny page ZoomPlatform.endIndicators);
    [reflexivity|].
  cbn [andb negb].
  destruct (_pageContainsAny page _); [reflexivity|].
  now destruct (url page) as [u|]; [destruct (ZoomPlatform.redirectedAway u)|].
Qed.

(** Google Meet, before the bot was ever seen in the meeting: only an end
    banner in the page ends the meeting. *)
Lemma meet_before_joining (page : Page) :
  GoogleMeetPlatform.checkMeetingEnded page false = Ok true ->
  _pageContainsAny page (GoogleMeetPlatform.endIndicators false) = true.
Proof.
  unfold GoogleMeetPlatform.checkMeetingEnded,
    GoogleMeetPlatform.afterJoinPageCheck, GoogleMeetPlatform.redirectCheck.
  cbn [negb].
  destruct (query page _) as [[]|]; try discriminate.
  destruct (_pageContainsAny page _); [reflexivity|].
  now destruct (url page).
Qed.

(** C4 on the code of platforms/whatsapp.js.  With [hasJoinedBefore] false,
    a page that shows the chat list and no end-call button is reported as
    an ended call: the absence of the call's own controls is taken for the
    end although the call has never been confirmed. *)
Theorem whatsapp_ends_call_never_confirmed (page : Page) (dom : Dom) :
  evaluate page = Ok dom ->
  WhatsAppCall.hasEndBtn dom = false ->
  WhatsAppCall.hasMainUI dom = true ->
  WhatsAppCall.checkCallEnded page false = Ok true
  /\ Platforms.checkMeetingEnded WhatsApp page false = Ok true.
Proof.
  intros Hdom Hbtn Hui.
  assert (H : WhatsAppCall.checkCallEnded page false = Ok true).
  { unfold WhatsAppCall.checkCallEnded, WhatsAppCall.endedInPage.
    rewrite Hdom, Hbtn, Hui.
    now destruct (containsAny _ _). }
  now split.
Qed.

Lemma whatsapp_ends_call_never_confirmed_witness :
  WhatsAppCall.checkCallEnded Examples.chatListPage false = Ok true
  /\ Platforms.checkMeetingEnded WhatsApp Examples.chatListPage false = Ok true.
Proof.
  apply (whatsapp_ends_call_never_confirmed Examples.chatListPage
           Examples.chatListDom); reflexivity.
Defined.

End AdapterFacts.

(* ================================================================== *)
(** ** The watcher *)
(* ================================================================== *)

Module WatcherFacts.
Import JsString Proc ProcFacts WhatsAppWatcher.

Lemma watcher_emitted_refl (P : Event -> Prop) (w : World) : emitted P w w.
Proof. exists []. split; [now rewrite app_nil_r | constructor]. Qed.

Lemma watcher_emitted_trans (P : Event -> Prop) (a b c : World) :
  emitted P a b -> emitted P b c -> emitted P a c.
Proof.
  intros (e1 & E1 & F1) (e2 & E2 & F2). exists (e1 ++ e2)%list. split.
  - now rewrite E2, E1, app_assoc.
  - apply Forall_app. now split.
Qed.

Lemma watcher_emitted_same_trace (P : Event -> Prop) (w w' : World) :
  trace w' = trace w -> emitted P w w'.
Proof. intros E. exists []. split; [now rewrite app_nil_r | constructor]. Qed.

Lemma watcher_emitted_update (P : Event -> Prop) (f : Watcher -> Watcher) :
  steps (emitted P) (update f).
Proof. intros w. now apply watcher_emitted_same_trace. Qed.

Lemma watcher_emitted_updateFs (P : Event -> Prop) (f : Fs.t -> Fs.t) :
  steps (emitted P) (updateFs f).
Proof. intros w. now apply watcher_emitted_same_trace. Qed.

Lemma watcher_emitted_emit (P : Event -> Prop) (e : Event) :
  P e -> steps (emitted P) (emit e).
Proof. intros H w. exists [e]. split; [reflexivity|]. now constructor. Qed.

Create HintDb watcher_db.

#[local] Hint Resolve watcher_emitted_update watcher_emitted_updateFs : watcher_db.
#[local] Hint Extern 1 (steps (emitted _) (emit _)) =>
  (apply watcher_emitted_emit;
   first [ solve [cbn; auto]
         | match goal with
           | H : forall e, _ -> ?P e |- ?P _ => apply H; exact I
           end ]) : watcher_db.

Ltac walk_watcher :=
  walk ltac:(first [exact (watcher_emitted_refl _) | exact (watcher_emitted_trans _)])
       ltac:(first [ progress unfold call, processExit
                   | solve [auto with watcher_db] ]).

Section Call.
Variable cs : CallScript.
Variable P : Event -> Prop.
Hypothesis P_all : forall e, isNotDecline e -> P e.

Lemma processCallEnd_emitted : steps (emitted P) (processCallEnd cs).
Proof.
  unfold processCallEnd, stopRecording, transcribe, generateMetadata.
  walk_watcher.
Qed.

Lemma callTick_emitted (maxDurationMs : Z) (confirmed : bool) (t : CallTick) :
  steps (emitted P) (callTick cs maxDurationMs confirmed t).
Proof. unfold callTick. walk_watcher. Qed.

Lemma callLoop_emitted (maxDurationMs : Z) (ts : list CallTick) :
  forall confirmed, steps (emitted P) (callLoop cs maxDurationMs confirmed ts).
Proof.
  induction ts as [|t ts IH]; intros confirmed w; cbn [callLoop].
  - destruct (_ && _); apply watcher_emitted_refl.
  - destruct (_ && _); [|apply watcher_emitted_refl].
    apply (steps_bind (emitted P) (watcher_emitted_trans P)).
    + apply callTick_emitted.
    + intros [[] c]; [apply IH|]. apply steps_ret, watcher_emitted_refl.
Qed.

Lemma monitorCall_emitted : steps (emitted P) (monitorCall cs).
Proof.
  unfold monitorCall. walk_watcher.
  - apply callLoop_emitted.
  - intros _. apply processCallEnd_emitted.
Qed.

Lemma abandonCall_emitted : steps (emitted P) abandonCall.
Proof. unfold abandonCall. walk_watcher. Qed.

Lemma recordCall_emitted (who : string) :
  steps (emitted P) (recordCall cs who).
Proof.
  unfold recordCall, startRecording, routeAudio.
  walk_watcher. all: intros; apply monitorCall_emitted.
Qed.

Lemma answerAndRecord_emitted (who : string) :
  steps (emitted P) (answerAndRecord cs who).
Proof.
  unfold answerAndRecord. walk_watcher.
  all: first [apply abandonCall_emitted | apply recordCall_emitted].
Qed.

(** Whatever follows, the answer has been given. *)
Lemma answerAndRecord_answers (who : string) (w : World) :
  In AnswerCall (trace (final (answerAndRecord cs who w))).
Proof.
  assert (Hk : forall (m : M unit) (w2 : World),
             steps (emitted P) m -> In AnswerCall (trace w2) ->
             In AnswerCall (trace (final (m w2)))).
  { intros m w2 Hm Hin. destruct (Hm w2) as (evs & E & _). rewrite E.
    apply in_or_app. now left. }
  unfold answerAndRecord, call. cbv [bind update modify emit await ret].
  cbn [self fs trace].
  destruct (answerCall cs); cbn [negb].
  - apply Hk; [apply recordCall_emitted|].
    cbn [trace]. apply in_or_app. right. now left.
  - apply Hk; [apply abandonCall_emitted|].
    cbn [trace]. apply in_or_app. right. now left.
Qed.

Lemma answerAfterDelay_emitted (who : string) :
  steps (emitted P) (answerAfterDelay cs who).
Proof.
  unfold answerAfterDelay. walk_watcher.
  all: first [apply abandonCall_emitted | apply answerAndRecord_emitted].
Qed.

Lemma answerAfterDelay_answers (who : string) (w : World) :
  (autoAnswerDelaySec (config (self w)) <= 0)%Z
  \/ detected (stillRinging cs) = true ->
  In AnswerCall (trace (final (answerAfterDelay cs who w))).
Proof.
  intros H. unfold answerAfterDelay, call.
  cbv [bind get emit modify await ret].
  destruct (0 <? autoAnswerDelaySec (config (self w)))%Z eqn:Hd.
  - destruct H as [H|H]; [apply Z.ltb_lt in Hd; lia|].
    rewrite H. cbn [negb]. apply answerAndRecord_answers.
  - apply answerAndRecord_answers.
Qed.

End Call.

(** A refused caller is declined, and that is the only call the watcher
    makes; when [declineCall] goes through the watcher is idle again. *)
Lemma handleIncomingCall_refused (cs : CallScript) (callInfo : CallInfo)
  (w : World) :
  verdict w callInfo = false ->
  trace (final (handleIncomingCall cs callInfo w))
  = (trace w ++ [DeclineCall])%list
  /\ (forall clicked, declineCall cs = Ok clicked ->
        exists w', handleIncomingCall cs callInfo w = Ret tt w'
                   /\ state (self w') = IDLE
                   /\ currentCall (self w') = None).
Proof.
  unfold verdict. intros Hv. unfold handleIncomingCall, call, abandonCall.
  cbv [bind get update modify emit].
  cbn [self fs trace config set_currentCall]. rewrite Hv. cbn [negb].
  destruct (declineCall cs) as [clicked|]; split; try reflexivity.
  - intros c _. eexists. split; [reflexivity|]. now split.
  - discriminate.
Qed.

(** An allowed caller is never declined, and is answered unless the call
    stopped ringing during the delay. *)
Lemma handleIncomingCall_allowed (cs : CallScript) (callInfo : CallInfo)
  (w : World) :
  verdict w callInfo = true ->
  emitted isNotDecline w (final (handleIncomingCall cs callInfo w))
  /\ ((autoAnswerDelaySec (config (self w)) <= 0)%Z
      \/ detected (stillRinging cs) = true ->
      In AnswerCall (trace (final (handleIncomingCall cs callInfo w)))).
Proof.
  unfold verdict. intros Hv.
  assert (E : handleIncomingCall cs callInfo w
              = answerAfterDelay cs (callerOf callInfo)
                  (mkWorld (set_currentCall
                              (Some (mkCaller (callerOf callInfo)
                                       (isVideo callInfo) (detectedClock cs)
                                       false false None))
                              (self w)) (fs w) (trace w))).
  { unfold handleIncomingCall. cbv [bind get update modify].
    cbn [self fs trace config set_currentCall]. now rewrite Hv. }
  rewrite E. split.
  - eapply watcher_emitted_trans;
      [|apply (answerAfterDelay_emitted cs isNotDecline (fun e H => H))].
    now apply watcher_emitted_same_trace.
  - intros H. apply (answerAfterDelay_answers cs isNotDecline (fun e H => H)).
    exact H.
Qed.

(** C7. The allow and block lists, as the watcher applies them to the
    caller it read from the page.  A caller matching both an allow pattern
    and a block pattern is refused; a caller matching neither list is
    refused when the allow list has entries and allowed when it is empty.
    The watcher declines a refused caller, with no other call on the page,
    and never declines an allowed one, whom it answers unless the call
    stopped ringing during the delay before the answer. *)
Theorem allow_block_evaluation :
  (forall caller allowList blockList,
      WhatsAppPlatform.matchesAny caller allowList = true ->
      WhatsAppPlatform.matchesAny caller blockList = true ->
      WhatsAppPlatform.isCallerAllowed caller allowList blockList = false)
  /\ (forall caller allowList blockList,
         WhatsAppPlatform.matchesAny caller allowList = false ->
         WhatsAppPlatform.matchesAny caller blockList = false ->
         allowList <> [] ->
         WhatsAppPlatform.isCallerAllowed caller allowList blockList = false)
  /\ (forall caller blockList,
         WhatsAppPlatform.matchesAny caller blockList = false ->
         WhatsAppPlatform.isCallerAllowed caller [] blockList = true)
  /\ (forall cs callInfo w,
         verdict w callInfo = false ->
         trace (final (handleIncomingCall cs callInfo w))
         = (trace w ++ [DeclineCall])%list)
  /\ (forall cs callInfo w,
         verdict w callInfo = true ->
         emitted isNotDecline w (final (handleIncomingCall cs callInfo w))
         /\ ((autoAnswerDelaySec (config (self w)) <= 0)%Z
             \/ detected (stillRinging cs) = true ->
             In AnswerCall (trace (final (handleIncomingCall cs callInfo w))))).
Proof.
  split; [exact AllowListFacts.blocked_is_refused|].
  split; [exact AllowListFacts.unlisted_is_refused|].
  split; [exact AllowListFacts.open_list_admits|].
  split.
  - intros cs callInfo w Hv.
    now destruct (handleIncomingCall_refused cs callInfo w Hv).
  - exact handleIncomingCall_allowed.
Qed.

Lemma allow_block_evaluation_witness :
  WhatsAppPlatform.isCallerAllowed "+15551234567" ["+1*"] ["*555*"] = false
  /\ WhatsAppPlatform.isCallerAllowed "+447700900000" ["+1*"] ["*555*"] = false
  /\ WhatsAppPlatform.isCallerAllowed "+447700900000" [] ["*555*"] = true
  /\ trace (final (handleIncomingCall Examples.callScript
                     (Examples.callFrom "+15551234567")
                     (Examples.idleWatcher ["+1*"] ["*555*"])))
     = [DeclineCall]
  /\ In AnswerCall
       (trace (final (handleIncomingCall Examples.callScript
                        (Examples.callFrom "+447700900000")
                        (Examples.idleWatcher [] ["*555*"])))).
Proof.
  destruct allow_block_evaluation as (A & B & C & D & E).
  split; [apply A; reflexivity|].
  split; [apply B; [reflexivity|reflexivity|discriminate]|].
  split; [apply C; reflexivity|].
  split; [apply (D Examples.callScript); reflexivity|].
  apply (E Examples.callScript); [reflexivity|right; reflexivity].
Defined.

(** A declined call leaves no session record. *)
Lemma declined_call_writes_no_session (cs : CallScript) (callInfo : CallInfo)
  (w : World) :
  verdict w callInfo = false ->
  emitted (fun e => ~ isWriteSession e) w
    (final (handleIncomingCall cs callInfo w))
  /\ fs (final (handleIncomingCall cs callInfo w)) = fs w.
Proof.
  intros Hv. split.
  - exists [DeclineCall]. split.
    + now destruct (handleIncomingCall_refused cs callInfo w Hv).
    + repeat constructor. now intros H.
  - unfold verdict in Hv. unfold handleIncomingCall, call, abandonCall.
    cbv [bind get update modify emit].
    cbn [self fs trace config set_currentCall]. rewrite Hv. cbn [negb].
    now destruct (declineCall cs).
Qed.

(** The watcher without Chrome: it exits with status 1, having written its
    PID file and no session record. *)
Lemma watcher_attach_failure (s : Script) (files : Fs.t) :
  connectChrome s = Throws ->
  exists w,
    run s (start files) = Exit 1 w
    /\ trace w = [WritePid (pidFile (config (self w))); ConnectChrome;
                  ProcessExit 1].
Proof.
  intros H. unfold run, loadConfig, connectBrowser, call, processExit.
  destruct (configFile s);
    cbv [tryCatch bind get update updateFs modify emit await ret exit start];
    rewrite H; eexists; split; reflexivity.
Qed.

End WatcherFacts.
(* ================================================================== *)
(** ** The one-shot controller *)
(* ================================================================== *)

Module MeetingBotFacts.
Import JsString Proc ProcFacts MeetingBot.

(** *** The relations between worlds *)

Lemma emitted_refl (P : Event -> Prop) (w : World) : emitted P w w.
Proof. exists []. split; [now rewrite app_nil_r | constructor]. Qed.

Lemma emitted_trans (P : Event -> Prop) (a b c : World) :
  emitted P a b -> emitted P b c -> emitted P a c.
Proof.
  intros (e1 & E1 & F1) (e2 & E2 & F2). exists (e1 ++ e2)%list. split.
  - now rewrite E2, E1, app_assoc.
  - apply Forall_app. now split.
Qed.

Lemma emitted_weaken (P Q : Event -> Prop) (w w' : World) :
  (forall e, P e -> Q e) -> emitted P w w' -> emitted Q w w'.
Proof.
  intros H (evs & E & F). exists evs. split; [assumption|].
  eapply Forall_impl; eauto.
Qed.

Lemma emitted_In (P : Event -> Prop) (w w' : World) (e : Event) :
  emitted P w w' -> In e (trace w) -> In e (trace w').
Proof.
  intros (evs & E & _) H. rewrite E. apply in_or_app. now left.
Qed.

Lemma emitted_not_In (P : Event -> Prop) (w w' : World) (e : Event) :
  emitted P w w' -> ~ P e -> ~ In e (trace w) -> ~ In e (trace w').
Proof.
  intros (evs & E & F) HP Hw Hin. rewrite E in Hin.
  apply in_app_or in Hin as [Hin|Hin]; [now apply Hw|].
  rewrite Forall_forall in F. now apply HP, F.
Qed.

Lemma sameSession_refl (w : World) : sameSession w w.
Proof. unfold sameSession. now destruct (bot w). Qed.

Lemma sameSession_trans (a b c : World) :
  sameSession a b -> sameSession b c -> sameSession a c.
Proof.
  unfold sameSession. intros H1 H2. rewrite H2.
  destruct (bot c), (bot a); simpl in *. rewrite H1. reflexivity.
Qed.

Lemma sameState_refl (w : World) : sameState w w.
Proof. now split. Qed.

Lemma sameState_trans (a b c : World) :
  sameState a b -> sameState b c -> sameState a c.
Proof. intros [B1 F1] [B2 F2]. split; congruence. Qed.

Lemma staysSilent_refl (path : string) (w : World) : staysSilent path w w.
Proof. now intros H. Qed.

Lemma staysSilent_trans (path : string) (a b c : World) :
  staysSilent path a b -> staysSilent path b c -> staysSilent path a c.
Proof. unfold staysSilent. auto. Qed.

Lemma emitted_same_trace (P : Event -> Prop) (w w' : World) :
  trace w' = trace w -> emitted P w w'.
Proof. intros E. exists []. split; [now rewrite app_nil_r | constructor]. Qed.

Lemma sameSession_same_bot (w w' : World) : bot w' = bot w -> sameSession w w'.
Proof. intros E. unfold sameSession. rewrite E. now destruct (bot w). Qed.

Lemma staysSilent_same_fs (path : string) (w w' : World) :
  fs w' = fs w -> staysSilent path w w'.
Proof. intros E H. now rewrite E. Qed.

(** *** How the primitives move the world *)

Lemma emitted_update (P : Event -> Prop) (f : Bot -> Bot) :
  steps (emitted P) (update f).
Proof. intros w. now apply emitted_same_trace. Qed.

Lemma emitted_updateFs (P : Event -> Prop) (f : Fs.t -> Fs.t) :
  steps (emitted P) (updateFs f).
Proof. intros w. now apply emitted_same_trace. Qed.

Lemma emitted_emit (P : Event -> Prop) (e : Event) :
  P e -> steps (emitted P) (emit e).
Proof. intros H w. exists [e]. split; [reflexivity|]. now constructor. Qed.

Lemma sameSession_recordingPath (v : option string) :
  steps sameSession (update (set_recordingPath v)).
Proof. intros w. unfold sameSession. simpl. now destruct (bot w). Qed.

Lemma sameSession_audioSaveInterval (v : bool) :
  steps sameSession (update (set_audioSaveInterval v)).
Proof. intros w. unfold sameSession. simpl. now destruct (bot w). Qed.

Lemma sameSession_updateFs (f : Fs.t -> Fs.t) : steps sameSession (updateFs f).
Proof. intros w. now apply sameSession_same_bot. Qed.

Lemma sameSession_emit (e : Event) : steps sameSession (emit e).
Proof. intros w. now apply sameSession_same_bot. Qed.

Lemma sameState_emit (e : Event) : steps sameState (emit e).
Proof. intros w. now split. Qed.

Lemma staysSilent_update (path : string) (f : Bot -> Bot) :
  steps (staysSilent path) (update f).
Proof. intros w. now apply staysSilent_same_fs. Qed.

Lemma staysSilent_emit (path : string) (e : Event) :
  steps (staysSilent path) (emit e).
Proof. intros w. now apply staysSilent_same_fs. Qed.

Lemma staysSilent_write (path target : string) (f : Fs.File) :
  isAudio (Some f) = false ->
  steps (staysSilent path) (updateFs (fun fs => Fs.writeFileSync fs target f)).
Proof.
  intros Hf w H. simpl. unfold Fs.writeFileSync.
  now destruct (String.eqb path target).
Qed.

Lemma staysSilent_unlink (path target : string) :
  steps (staysSilent path) (updateFs (fun fs => Fs.unlinkSync fs target)).
Proof.
  intros w H. simpl. unfold Fs.unlinkSync.
  now destruct (String.eqb path target).
Qed.

Create HintDb emitted_db.
Create HintDb session_db.
Create HintDb state_db.
Create HintDb silent_db.
Create HintDb returns_db.
Create HintDb preserves_db.

#[local] Hint Resolve emitted_update emitted_updateFs : emitted_db.
#[local] Hint Extern 1 (steps (emitted _) (emit _)) =>
  (apply emitted_emit; cbn; auto) : emitted_db.
#[local] Hint Resolve sameSession_recordingPath sameSession_audioSaveInterval
  sameSession_updateFs sameSession_emit : session_db.
#[local] Hint Resolve sameState_emit : state_db.
#[local] Hint Resolve staysSilent_update staysSilent_emit staysSilent_unlink
  : silent_db.
#[local] Hint Extern 1 (steps (staysSilent _) (updateFs _)) =>
  (apply staysSilent_write; reflexivity) : silent_db.

Ltac open_call := progress unfold call, processExit.

Ltac walk_emitted :=
  walk ltac:(first [exact (emitted_refl _) | exact (emitted_trans _)])
       ltac:(first [open_call | solve [auto with emitted_db]]).
Ltac walk_session :=
  walk ltac:(first [exact sameSession_refl | exact sameSession_trans])
       ltac:(first [open_call | solve [auto with session_db]]).
Ltac walk_silent :=
  walk ltac:(first [exact (staysSilent_refl _) | exact (staysSilent_trans _)])
       ltac:(first [open_call | solve [auto with silent_db]]).

Ltac returns_prim :=
  first [ progress unfold call, processExit, pageEvaluate, update, updateFs,
            emit
        | solve [auto with returns_db]
        | apply settles_returns ].

Ltac walk_returns' := walk_returns returns_prim.
Ltac walk_exits' := walk_exits returns_prim.

Section Cleanup.
Variable s : Script.

(** **** Each stage returns *)

Lemma saveChunks_returns (chunks : list positive) : returns (saveChunks chunks).
Proof. unfold saveChunks. walk_returns'. Qed.

Lemma checkRecordingFile_returns : returns checkRecordingFile.
Proof. unfold checkRecordingFile. walk_returns'. Qed.

Hint Resolve saveChunks_returns checkRecordingFile_returns : returns_db.

Lemma collectFinalChunks_returns : returns (collectFinalChunks s).
Proof. unfold collectFinalChunks. walk_returns'. Qed.

Hint Resolve collectFinalChunks_returns : returns_db.

Lemma stopRecording_returns : returns (stopRecording s).
Proof. unfold stopRecording. walk_returns'. Qed.

Lemma transcribe_returns : returns (transcribe s).
Proof. unfold transcribe. walk_returns'. Qed.

Lemma discardRecording_returns : returns discardRecording.
Proof. unfold discardRecording. walk_returns'. Qed.

Lemma closeMeetingTab_returns : returns (closeMeetingTab s).
Proof. unfold closeMeetingTab. walk_returns'. Qed.

Lemma generateMetadata_returns (path : string) :
  returns (generateMetadata s path).
Proof. unfold generateMetadata. walk_returns'. Qed.

Hint Resolve stopRecording_returns transcribe_returns
  discardRecording_returns closeMeetingTab_returns
  generateMetadata_returns : returns_db.

Lemma concludeSession_exits (transcript : option string) :
  exits 0 (concludeSession s transcript).
Proof. unfold concludeSession. walk_exits'. Qed.

Hint Resolve concludeSession_exits : returns_db.

Lemma finishSession_exits : exits 0 (finishSession s).
Proof. unfold finishSession. walk_exits'. Qed.

Hint Resolve finishSession_exits : returns_db.

(** [cleanup] always ends the process, with status 0. *)
Lemma cleanup_exits : exits 0 (cleanup s).
Proof. unfold cleanup. walk_exits'. Qed.

(** **** What each stage calls *)

Lemma saveChunks_emitted (P : Event -> Prop) (chunks : list positive) :
  steps (emitted P) (saveChunks chunks).
Proof. unfold saveChunks. walk_emitted. Qed.

Lemma checkRecordingFile_emitted (P : Event -> Prop) :
  steps (emitted P) checkRecordingFile.
Proof. unfold checkRecordingFile. walk_emitted. Qed.

Hint Resolve saveChunks_emitted checkRecordingFile_emitted : emitted_db.

Lemma pageEvaluate_emitted (P : Event -> Prop) {A} (r : result A) :
  steps (emitted P) (pageEvaluate r).
Proof. unfold pageEvaluate. walk_emitted. Qed.

Hint Resolve pageEvaluate_emitted : emitted_db.

Lemma collectFinalChunks_emitted (P : Event -> Prop) :
  steps (emitted P) (collectFinalChunks s).
Proof. unfold collectFinalChunks. walk_emitted. Qed.

Hint Resolve collectFinalChunks_emitted : emitted_db.

Lemma stopRecording_emitted (P : Event -> Prop) :
  P StopRecording -> steps (emitted P) (stopRecording s).
Proof. intros H. unfold stopRecording. walk_emitted. Qed.

Lemma transcribe_emitted (P : Event -> Prop) :
  (forall path, P (Transcribe path)) -> steps (emitted P) (transcribe s).
Proof. intros H. unfold transcribe. walk_emitted. Qed.

Lemma discardRecording_emitted (P : Event -> Prop) :
  (forall path, P (Unlink path)) -> steps (emitted P) discardRecording.
Proof. intros H. unfold discardRecording. walk_emitted. Qed.

Lemma closeMeetingTab_emitted (P : Event -> Prop) :
  P CloseTab -> steps (emitted P) (closeMeetingTab s).
Proof. intros H. unfold closeMeetingTab. walk_emitted. Qed.

Lemma generateMetadata_emitted (P : Event -> Prop) (path : string) :
  P (GenerateMetadata path) -> steps (emitted P) (generateMetadata s path).
Proof. intros H. unfold generateMetadata. walk_emitted. Qed.

Hint Resolve stopRecording_emitted transcribe_emitted
  discardRecording_emitted closeMeetingTab_emitted
  generateMetadata_emitted : emitted_db.

Lemma concludeSession_emitted (P : Event -> Prop) (transcript : option string) :
  (forall e, isDiscardEvent e -> P e) ->
  steps (emitted P) (concludeSession s transcript).
Proof.
  intros H. unfold concludeSession. walk_emitted;
    first [ apply closeMeetingTab_emitted
          | apply generateMetadata_emitted
          | apply emitted_emit ]; now apply H.
Qed.

Lemma finishSession_emitted : steps (emitted isCleanupEvent) (finishSession s).
Proof.
  unfold finishSession. walk_emitted.
  all: intros;
    first [ now apply discardRecording_emitted
          | now apply transcribe_emitted
          | apply concludeSession_emitted; now intros [] ].
Qed.

(** [cleanup] announces itself and then makes cleanup calls only. *)
Lemma cleanup_trace (w : World) :
  exists evs,
    trace (final (cleanup s w)) = (trace w ++ Cleanup :: evs)%list
    /\ Forall isCleanupEvent evs.
Proof.
  assert (H : steps (emitted isCleanupEvent)
                (stopRecording s ;; finishSession s)).
  { walk_emitted.
    all: intros;
      first [ now apply stopRecording_emitted | apply finishSession_emitted ]. }
  destruct (H (mkWorld (bot w) (fs w) (trace w ++ [Cleanup])))
    as (evs & E & F).
  exists evs. split; [|assumption].
  unfold cleanup. cbn [bind emit modify]. rewrite E. simpl.
  now rewrite <- app_assoc.
Qed.

(** **** What each stage leaves of the session *)

Lemma saveChunks_session (chunks : list positive) :
  steps sameSession (saveChunks chunks).
Proof. unfold saveChunks. walk_session. Qed.

Lemma pageEvaluate_session {A} (r : result A) :
  steps sameSession (pageEvaluate r).
Proof. unfold pageEvaluate. walk_session. Qed.

Hint Resolve saveChunks_session pageEvaluate_session : session_db.

Lemma stopRecording_session : steps sameSession (stopRecording s).
Proof.
  unfold stopRecording, collectFinalChunks, checkRecordingFile.
  walk_session.
Qed.

Lemma transcribe_session : steps sameSession (transcribe s).
Proof. unfold transcribe. walk_session. Qed.

Lemma discardRecording_session : steps sameSession discardRecording.
Proof. unfold discardRecording. walk_session. Qed.

Lemma closeMeetingTab_session : steps sameSession (closeMeetingTab s).
Proof. unfold closeMeetingTab. walk_session. Qed.

Lemma generateMetadata_session (path : string) :
  steps sameSession (generateMetadata s path).
Proof. unfold generateMetadata. walk_session. Qed.

Hint Resolve stopRecording_session transcribe_session
  discardRecording_session closeMeetingTab_session
  generateMetadata_session : session_db.

Lemma concludeSession_session (transcript : option string) :
  steps sameSession (concludeSession s transcript).
Proof. unfold concludeSession. walk_session. Qed.

Hint Resolve concludeSession_session : session_db.

(** [cleanup] leaves the flags of the session as it found them. *)
Lemma cleanup_session : steps sameSession (cleanup s).
Proof. unfold cleanup, finishSession. walk_session. Qed.

End Cleanup.

#[local] Hint Resolve saveChunks_returns checkRecordingFile_returns
  collectFinalChunks_returns stopRecording_returns transcribe_returns
  discardRecording_returns closeMeetingTab_returns generateMetadata_returns
  concludeSession_exits finishSession_exits cleanup_exits : returns_db.
#[local] Hint Resolve saveChunks_emitted checkRecordingFile_emitted
  pageEvaluate_emitted collectFinalChunks_emitted stopRecording_emitted
  transcribe_emitted discardRecording_emitted closeMeetingTab_emitted
  generateMetadata_emitted : emitted_db.
#[local] Hint Resolve saveChunks_session pageEvaluate_session
  stopRecording_session transcribe_session discardRecording_session
  closeMeetingTab_session generateMetadata_session concludeSession_session
  cleanup_session : session_db.


(** *** The recording on disk *)

Lemma preserves_refl (I : World -> Prop) (w : World) : preserves I w w.
Proof. now intros H. Qed.

Lemma preserves_trans (I : World -> Prop) (a b c : World) :
  preserves I a b -> preserves I b c -> preserves I a c.
Proof. unfold preserves. auto. Qed.

Ltac walk_preserves :=
  walk ltac:(first [exact (preserves_refl _) | exact (preserves_trans _)])
       ltac:(solve [ let w := fresh in let H := fresh in
                     intros w H; exact H
                   | auto with preserves_db ]).

Lemma appendFileSync_hasData (files : Fs.t) (path p : string) (n : positive) :
  recordingHasData files p ->
  recordingHasData (Fs.appendFileSync files path n) p.
Proof.
  intros H bytes. unfold Fs.appendFileSync.
  destruct (files path) as [[b| | | |]|] eqn:E; try apply H;
    unfold Fs.writeFileSync; destruct (String.eqb p path) eqn:Ep;
    try apply H; intros [= <-].
  - apply String.eqb_eq in Ep; subst p. specialize (H b E). lia.
  - lia.
Qed.

Lemma appendChunks_hasData (chunks : list positive) (files : Fs.t)
  (path p : string) :
  recordingHasData files p ->
  recordingHasData (appendChunks path chunks files) p.
Proof.
  revert files; induction chunks as [|n chunks IH]; intros files H;
    [exact H|].
  simpl. now apply IH, appendFileSync_hasData.
Qed.

Lemma appendFileSync_exists (files : Fs.t) (path p : string) (n : positive) :
  Fs.existsSync files p = true ->
  Fs.existsSync (Fs.appendFileSync files path n) p = true.
Proof.
  unfold Fs.existsSync, Fs.appendFileSync. intros H.
  destruct (files path) as [[b| | | |]|] eqn:E; try exact H;
    unfold Fs.writeFileSync; now destruct (String.eqb p path).
Qed.

Lemma appendChunks_exists (chunks : list positive) (files : Fs.t)
  (path p : string) :
  Fs.existsSync files p = true ->
  Fs.existsSync (appendChunks path chunks files) p = true.
Proof.
  revert files; induction chunks as [|n chunks IH]; intros files H;
    [exact H|].
  simpl. now apply IH, appendFileSync_exists.
Qed.

Lemma saveChunks_recordingAt (p : string) (chunks : list positive) :
  steps (preserves (recordingAt p)) (saveChunks chunks).
Proof.
  unfold saveChunks. walk_preserves.
  intros w [Hp Hd]. split; [exact Hp|]. now apply appendChunks_hasData.
Qed.

Lemma saveChunks_recordingOnDisk (p : string) (chunks : list positive) :
  steps (preserves (recordingOnDisk p)) (saveChunks chunks).
Proof.
  unfold saveChunks. walk_preserves.
  intros w [[Hp Hd] He]. repeat split; [exact Hp| |].
  - now apply appendChunks_hasData.
  - now apply appendChunks_exists.
Qed.

#[local] Hint Resolve saveChunks_recordingAt saveChunks_recordingOnDisk
  : preserves_db.

Lemma flush_recordingAt (p : string) (found : result (list positive)) :
  steps (preserves (recordingAt p)) (_flushAudioChunks found).
Proof. unfold _flushAudioChunks, pageEvaluate. walk_preserves. Qed.

Lemma flush_recordingOnDisk (p : string) (found : result (list positive)) :
  steps (preserves (recordingOnDisk p)) (_flushAudioChunks found).
Proof. unfold _flushAudioChunks, pageEvaluate. walk_preserves. Qed.

Lemma flush_session (found : result (list positive)) :
  steps sameSession (_flushAudioChunks found).
Proof. unfold _flushAudioChunks, pageEvaluate, saveChunks. walk_session. Qed.

Lemma flush_returns (found : result (list positive)) :
  returns (_flushAudioChunks found).
Proof. unfold _flushAudioChunks. walk_returns'. Qed.

Lemma flush_emitted (P : Event -> Prop) (found : result (list positive)) :
  steps (emitted P) (_flushAudioChunks found).
Proof. unfold _flushAudioChunks, pageEvaluate, saveChunks. walk_emitted. Qed.

Section EmptyMeeting.
Variable s : Script.

Lemma collectFinalChunks_recordingAt (p : string) :
  steps (preserves (recordingAt p)) (collectFinalChunks s).
Proof. unfold collectFinalChunks, pageEvaluate. walk_preserves. Qed.

Lemma collectFinalChunks_recordingOnDisk (p : string) :
  steps (preserves (recordingOnDisk p)) (collectFinalChunks s).
Proof. unfold collectFinalChunks, pageEvaluate. walk_preserves. Qed.

(** Where [stopRecording] leaves the recording: kept if it is on disk,
    forgotten (and absent) otherwise. *)
Lemma stopRecording_recording (p : string) (w : World) :
  recordingAt p w ->
  exists w1,
    stopRecording s w = Ret tt w1
    /\ recordingHasData (fs w1) p
    /\ (recordingPath (bot w1) = Some p
        \/ recordingPath (bot w1) = None /\ fs w1 p = None)
    /\ (Fs.existsSync (fs w) p = true ->
        recordingPath (bot w1) = Some p /\ Fs.existsSync (fs w1) p = true).
Proof.
  intros Hat. unfold stopRecording.
  cbn [bind emit update modify bot fs trace].
  set (w0 := mkWorld _ _ _).
  assert (Hat0 : recordingAt p w0) by exact Hat.
  destruct (collectFinalChunks_returns s w0) as ([] & w1 & E1).
  pose proof (collectFinalChunks_recordingAt p w0) as K1.
  pose proof (collectFinalChunks_recordingOnDisk p w0) as K2.
  rewrite E1 in K1, K2. simpl in K1, K2.
  destruct (K1 Hat0) as [Hp1 Hd1].
  assert (Hdisk : Fs.existsSync (fs w) p = true ->
                  Fs.existsSync (fs w1) p = true).
  { intros He. apply K2. now split. }
  rewrite (bind_ret_eq _ _ _ _ _ E1).
  unfold checkRecordingFile. cbn [bind get]. rewrite Hp1.
  destruct (endsWith p ".webm").
  - destruct (fs w1 p) as [f|] eqn:Ef.
    + destruct (Fs.nonEmpty f) eqn:En.
      * eexists. split; [reflexivity|]. auto.
      * destruct f; try discriminate En. simpl in En.
        specialize (Hd1 _ Ef). lia.
    + eexists. split; [reflexivity|]. cbn.
      split; [exact Hd1|]. split; [now right|].
      intros He. apply Hdisk in He.
      unfold Fs.existsSync in He. now rewrite Ef in He.
  - eexists. split; [reflexivity|]. auto.
Qed.

Lemma discardRecording_recording (p : string) (w : World) :
  recordingPath (bot w) = Some p
  \/ recordingPath (bot w) = None /\ fs w p = None ->
  exists w2,
    discardRecording w = Ret tt w2
    /\ bot w2 = bot w
    /\ isAudio (fs w2 p) = false
    /\ emitted isDiscardEvent w w2
    /\ (recordingPath (bot w) = Some p ->
        Fs.existsSync (fs w) p = true -> In (Unlink p) (trace w2)).
Proof.
  intros [Hp|[Hp Hf]]; unfold discardRecording; cbn [bind get]; rewrite Hp.
  - destruct (Fs.existsSync (fs w) p) eqn:He.
    + eexists. split; [reflexivity|]. cbn. repeat split.
      * unfold Fs.unlinkSync. now rewrite String.eqb_refl.
      * exists [Unlink p]. split; [reflexivity|]. now repeat constructor.
      * intros _ _. apply in_or_app. right. now left.
    + exists w. repeat split; try apply emitted_refl; try discriminate.
      unfold Fs.existsSync in He. now destruct (fs w p).
  - exists w. repeat split; try apply emitted_refl; try discriminate.
    now rewrite Hf.
Qed.

Lemma closeMeetingTab_silent (p : string) :
  steps (staysSilent p) (closeMeetingTab s).
Proof. unfold closeMeetingTab. walk_silent. Qed.

Lemma generateMetadata_silent (p path : string) :
  steps (staysSilent p) (generateMetadata s path).
Proof. unfold generateMetadata. walk_silent. Qed.

Hint Resolve closeMeetingTab_silent generateMetadata_silent : silent_db.

(** Past the recording, [cleanup] writes documents only. *)
Lemma concludeSession_silent (p : string) (transcript : option string) :
  steps (staysSilent p) (concludeSession s transcript).
Proof. unfold concludeSession. walk_silent. Qed.

Lemma skipTranscription_on (b : Bot) :
  skipsOnEmptyLeave s -> leftDueToEmptyTimeout b = true ->
  skipTranscription s b = true.
Proof.
  unfold skipsOnEmptyLeave, skipTranscription. intros Hc ->.
  destruct (Config.skipTranscriptionOnEmptyLeave (config s)) as [[]|];
    simpl; congruence.
Qed.

(** [cleanup] after the bot left an empty meeting, when the
    configuration does not ask for the transcript: nothing is
    transcribed and no recording stays on disk. *)
Lemma cleanup_after_empty_meeting (p : string) (w : World) :
  skipsOnEmptyLeave s ->
  leftDueToEmptyTimeout (bot w) = true ->
  recordingAt p w ->
  exists w',
    cleanup s w = Exit 0 w'
    /\ emitted isDiscardEvent w w'
    /\ isAudio (fs w' p) = false
    /\ (Fs.existsSync (fs w) p = true -> In (Unlink p) (trace w')).
Proof.
  intros Hcfg Hleft Hat. unfold cleanup.
  cbn [bind emit modify bot fs trace].
  set (w0 := mkWorld _ _ _).
  assert (H0 : emitted isDiscardEvent w w0).
  { exists [Cleanup]. split; [reflexivity|]. now repeat constructor. }
  destruct (stopRecording_recording p w0 Hat) as (w1 & E1 & Hd1 & Hp1 & Hk1).
  pose proof (stopRecording_emitted s isDiscardEvent I w0) as T1.
  pose proof (stopRecording_session s w0) as S1.
  rewrite E1 in T1, S1. simpl in T1, S1.
  rewrite (bind_ret_eq _ _ _ _ _ E1).
  unfold finishSession. cbn [bind get].
  rewrite skipTranscription_on; [|assumption|].
  2:{ unfold sameSession in S1. rewrite S1. simpl.
      destruct (bot w); exact Hleft. }
  destruct (discardRecording_recording p w1 Hp1)
    as (w2 & E2 & Hb2 & Ha2 & T2 & Hu2).
  assert (E2' : (discardRecording ;; ret (@None string)) w1 = Ret None w2).
  { now rewrite (bind_ret_eq _ _ _ _ _ E2). }
  rewrite (bind_ret_eq _ _ _ _ _ E2').
  destruct (concludeSession_exits s None w2) as (w' & E3).
  pose proof (concludeSession_emitted s isDiscardEvent None (fun e H => H) w2)
    as T3.
  pose proof (concludeSession_silent p None w2) as Q3.
  rewrite E3 in T3, Q3. simpl in T3, Q3.
  exists w'. split; [exact E3|]. split; [|split].
  - eapply emitted_trans; [exact H0|].
    eapply emitted_trans; [exact T1|].
    eapply emitted_trans; [exact T2|exact T3].
  - now apply Q3.
  - intros He. eapply emitted_In; [exact T3|].
    destruct (Hk1 He) as [Hp He1]. now apply Hu2.
Qed.

End EmptyMeeting.


(** *** The monitoring loop *)

Section Monitoring.
Variable s : Script.

(** The meeting goes on: the turn comes down to the participant check,
    after the end probe is noted. *)
Lemma monitorTick_not_ended (a : Adapter) (t : Tick) (w : World) :
  adapter (bot w) = Some a ->
  checkMeetingEnded a (page t) (hasJoinedMeeting (bot w)) = Ok false ->
  monitorTick s t w
  = checkEmptyTimeout s a t
      (mkWorld (bot w) (fs w)
         (trace w ++ [CheckMeetingEnded (hasJoinedMeeting (bot w))])).
Proof.
  intros Ha He. unfold monitorTick. cbn [bind get]. rewrite Ha.
  unfold call. cbn [bind emit modify bot fs trace]. rewrite He.
  reflexivity.
Qed.

(** The end probe throws: so does the turn. *)
Lemma monitorTick_end_probe_throws (a : Adapter) (t : Tick) (w : World) :
  adapter (bot w) = Some a ->
  checkMeetingEnded a (page t) (hasJoinedMeeting (bot w)) = Throws ->
  monitorTick s t w
  = Raise (mkWorld (bot w) (fs w)
             (trace w ++ [CheckMeetingEnded (hasJoinedMeeting (bot w))])).
Proof.
  intros Ha He. unfold monitorTick. cbn [bind get]. rewrite Ha.
  unfold call. cbn [bind emit modify bot fs trace]. rewrite He.
  reflexivity.
Qed.

(** The meeting ended: the turn is [cleanup]. *)
Lemma monitorTick_ended (a : Adapter) (t : Tick) (w : World) :
  adapter (bot w) = Some a ->
  checkMeetingEnded a (page t) (hasJoinedMeeting (bot w)) = Ok true ->
  monitorTick s t w
  = (cleanup s ;; ret Break)
      (mkWorld (set_isInMeeting false (bot w)) (fs w)
         (trace w ++ [CheckMeetingEnded (hasJoinedMeeting (bot w))])).
Proof.
  intros Ha He. unfold monitorTick. cbn [bind get]. rewrite Ha.
  unfold call. cbn [bind emit modify bot fs trace]. rewrite He.
  reflexivity.
Qed.

(** The participant probe throws: the turn changes nothing. *)
Lemma checkEmptyTimeout_throws (a : Adapter) (t : Tick) (w : World) :
  getParticipantCount a (page t) = Throws ->
  checkEmptyTimeout s a t w
  = Ret Continue (mkWorld (bot w) (fs w) (trace w ++ [GetParticipantCount])).
Proof.
  intros Hc. unfold checkEmptyTimeout, tryCatch, call.
  cbn [bind emit modify bot fs trace]. now rewrite Hc.
Qed.

(** The count is unknown (or any other negative number): the turn
    changes nothing. *)
Lemma checkEmptyTimeout_unknown (a : Adapter) (t : Tick) (w : World) (n : Z) :
  getParticipantCount a (page t) = Ok n -> (n < 0)%Z ->
  checkEmptyTimeout s a t w
  = Ret Continue (mkWorld (bot w) (fs w) (trace w ++ [GetParticipantCount])).
Proof.
  intros Hc Hn. unfold checkEmptyTimeout, tryCatch, call.
  cbn [bind emit modify bot fs trace]. rewrite Hc. cbn [await bind ret emit modify bot fs trace].
  destruct (Z.eqb_spec n 0); [lia|].
  destruct (Z.ltb_spec 0 n); [lia|]. reflexivity.
Qed.

(** Somebody is there: a running timer is reset. *)
Lemma checkEmptyTimeout_occupied (a : Adapter) (t : Tick) (w : World) (n : Z) :
  getParticipantCount a (page t) = Ok n -> (0 < n)%Z ->
  checkEmptyTimeout s a t w
  = Ret Continue
      (mkWorld (if truthyZ (emptyMeetingSince (bot w))
                then set_emptyMeetingSince None (bot w)
                else bot w)
         (fs w) (trace w ++ [GetParticipantCount])).
Proof.
  intros Hc Hn. unfold checkEmptyTimeout, tryCatch, call.
  cbn [bind emit modify bot fs trace]. rewrite Hc. cbn [await bind ret emit modify bot fs trace].
  destruct (Z.eqb_spec n 0); [lia|].
  destruct (Z.ltb_spec 0 n); [|lia].
  unfold onOccupied. cbn [bind get bot].
  now destruct (truthyZ (emptyMeetingSince (bot w))).
Qed.

(** Nobody is there and no timer runs: it starts. *)
Lemma checkEmptyTimeout_starts (a : Adapter) (t : Tick) (w : World) :
  getParticipantCount a (page t) = Ok 0%Z ->
  truthyZ (emptyMeetingSince (bot w)) = false ->
  checkEmptyTimeout s a t w
  = Ret Continue
      (mkWorld (set_emptyMeetingSince (Some (now t)) (bot w))
         (fs w) (trace w ++ [GetParticipantCount])).
Proof.
  intros Hc Hs. unfold checkEmptyTimeout, tryCatch, call.
  cbn [bind emit modify bot fs trace]. rewrite Hc. cbn [await bind ret emit modify bot fs trace Z.eqb].
  unfold onEmpty. cbn [bind get bot]. now rewrite Hs.
Qed.

(** Nobody is there and the timer has not run long enough: the turn
    changes nothing. *)
Lemma checkEmptyTimeout_waits (a : Adapter) (t : Tick) (w : World) (t0 : Z) :
  getParticipantCount a (page t) = Ok 0%Z ->
  emptyMeetingSince (bot w) = Some t0 -> t0 <> 0%Z ->
  (now t - t0 < emptyTimeoutMs s)%Z ->
  checkEmptyTimeout s a t w
  = Ret Continue (mkWorld (bot w) (fs w) (trace w ++ [GetParticipantCount])).
Proof.
  intros Hc Hs H0 Hlt. unfold checkEmptyTimeout, tryCatch, call.
  cbn [bind emit modify bot fs trace]. rewrite Hc. cbn [await bind ret emit modify bot fs trace Z.eqb].
  unfold onEmpty. cbn [bind get bot]. rewrite Hs. cbn [truthyZ].
  destruct (Z.eqb_spec t0 0); [contradiction|]. cbn [negb].
  destruct (Z.leb_spec (emptyTimeoutMs s) (now t - t0)); [lia|].
  reflexivity.
Qed.

(** Nobody is there and the timer has run out: the bot leaves. *)
Lemma checkEmptyTimeout_leaves (a : Adapter) (t : Tick) (w : World) (t0 : Z) :
  getParticipantCount a (page t) = Ok 0%Z ->
  emptyMeetingSince (bot w) = Some t0 -> t0 <> 0%Z ->
  (emptyTimeoutMs s <= now t - t0)%Z ->
  checkEmptyTimeout s a t w
  = tryCatch (cleanup s ;; ret Break) (ret Continue)
      (mkWorld (set_leftDueToEmptyTimeout true
                  (set_isInMeeting false (bot w)))
         (fs w) (trace w ++ [GetParticipantCount])).
Proof.
  intros Hc Hs H0 Hle. unfold checkEmptyTimeout, tryCatch, call.
  cbn [bind emit modify bot fs trace]. rewrite Hc. cbn [await bind ret emit modify bot fs trace Z.eqb].
  unfold onEmpty. cbn [bind get bot]. rewrite Hs. cbn [truthyZ].
  destruct (Z.eqb_spec t0 0); [contradiction|]. cbn [negb].
  destruct (Z.leb_spec (emptyTimeoutMs s) (now t - t0)); [|lia].
  reflexivity.
Qed.

Lemma betweenTicks_spec (t : Tick) (w : World) :
  exists w1,
    betweenTicks t w = Ret tt w1
    /\ bot w1 = bot w
    /\ trace w1 = trace w
    /\ (forall p, recordingAt p w -> recordingAt p w1)
    /\ (forall p, Fs.existsSync (fs w) p = true ->
                  Fs.existsSync (fs w1) p = true).
Proof.
  assert (Hsame : forall o : outcome World unit, o = Ret tt w ->
            exists w1, o = Ret tt w1 /\ bot w1 = bot w /\ trace w1 = trace w
              /\ (forall p, recordingAt p w -> recordingAt p w1)
              /\ (forall p, Fs.existsSync (fs w) p = true ->
                            Fs.existsSync (fs w1) p = true)).
  { intros o ->. exists w. auto. }
  cbv [betweenTicks _flushAudioChunks tryCatch pageEvaluate saveChunks
       bind get await ret raise].
  destruct (audioSaveInterval (bot w)); [|apply Hsame; reflexivity].
  destruct (attached (bot w)); [|apply Hsame; reflexivity].
  destruct (flushed t) as [[|n chunks]|]; try (apply Hsame; reflexivity).
  destruct (recordingPath (bot w)) as [path|]; [|apply Hsame; reflexivity].
  eexists. split; [reflexivity|]. cbn. repeat split; auto.
  - destruct H as [H _]. exact H.
  - destruct H as [_ H].
    apply (appendChunks_hasData (n :: chunks)). exact H.
  - intros q H. apply (appendChunks_exists (n :: chunks)). exact H.
Qed.

Lemma not_transcribe_discard (e : Event) :
  isDiscardEvent e -> ~ isTranscribe e.
Proof. now destruct e. Qed.

(** The bot leaves: what [cleanup] then does. *)
Lemma leaving_empty_meeting (p : string) (w : World) :
  recordingAt p w ->
  exists w',
    tryCatch (cleanup s ;; ret Break) (ret Continue)
      (mkWorld (set_leftDueToEmptyTimeout true
                  (set_isInMeeting false (bot w))) (fs w) (trace w))
    = Exit 0 w'
    /\ leftDueToEmptyTimeout (bot w') = true
    /\ isInMeeting (bot w') = false
    /\ hasJoinedMeeting (bot w') = hasJoinedMeeting (bot w)
    /\ In Cleanup (trace w')
    /\ (skipsOnEmptyLeave s ->
        emitted (fun e => ~ isTranscribe e) w w'
        /\ isAudio (fs w' p) = false
        /\ (Fs.existsSync (fs w) p = true -> In (Unlink p) (trace w'))).
Proof.
  intros Hat. set (w0 := mkWorld _ _ _).
  destruct (cleanup_exits s w0) as (w' & E).
  pose proof (cleanup_session s w0) as S.
  destruct (cleanup_trace s w0) as (evs & T & _).
  rewrite E in S, T. simpl in S, T.
  exists w'. split.
  { erewrite tryCatch_exit; [reflexivity|].
    now rewrite (bind_exit_eq _ _ _ _ _ E). }
  unfold sameSession in S.
  repeat split.
  - rewrite S. simpl. now destruct (bot w).
  - rewrite S. simpl. now destruct (bot w).
  - rewrite S. simpl. now destruct (bot w).
  - rewrite T. apply in_or_app. right. now left.
  - destruct (cleanup_after_empty_meeting s p w0) as (w2 & E2 & T2 & _);
      [assumption|now destruct (bot w)|exact Hat|].
    rewrite E in E2. injection E2 as <-.
    apply emitted_weaken with (P := isDiscardEvent);
      [exact not_transcribe_discard|exact T2].
  - destruct (cleanup_after_empty_meeting s p w0) as (w2 & E2 & _ & A2 & _);
      [assumption|now destruct (bot w)|exact Hat|].
    rewrite E in E2. now injection E2 as <-.
  - destruct (cleanup_after_empty_meeting s p w0) as (w2 & E2 & _ & _ & U2);
      [assumption|now destruct (bot w)|exact Hat|].
    rewrite E in E2. injection E2 as <-. exact U2.
Qed.

Lemma emitted_probes (P : Event -> Prop) (w w1 : World) (evs : list Event) :
  trace w1 = (trace w ++ evs)%list -> Forall P evs -> emitted P w w1.
Proof. intros E F. now exists evs. Qed.

(** With the timer running and nobody coming, the loop goes on until the
    first turn at which the timer has run out, and the bot leaves
    there. *)
Lemma monitorLoop_empty_meeting (a : Adapter) (t0 : Z) (p : string)
  (ts : list Tick) :
  forall w,
    adapter (bot w) = Some a ->
    isInMeeting (bot w) = true ->
    emptyMeetingSince (bot w) = Some t0 -> t0 <> 0%Z ->
    Forall (aloneAt a (hasJoinedMeeting (bot w))) ts ->
    Exists (fun t => emptyTimeoutMs s <= now t - t0)%Z ts ->
    recordingAt p w ->
    exists w',
      monitorLoop s ts w = Exit 0 w'
      /\ leftDueToEmptyTimeout (bot w') = true
      /\ isInMeeting (bot w') = false
      /\ hasJoinedMeeting (bot w') = hasJoinedMeeting (bot w)
      /\ In Cleanup (trace w')
      /\ (skipsOnEmptyLeave s ->
          emitted (fun e => ~ isTranscribe e) w w'
          /\ isAudio (fs w' p) = false
          /\ (Fs.existsSync (fs w) p = true -> In (Unlink p) (trace w'))).
Proof.
  induction ts as [|t ts IH]; intros w Ha Hin Hs H0 Hall Hex Hat.
  { inversion Hex. }
  apply Forall_cons_iff in Hall as [[Hended Hcount] Hall].
  cbn [monitorLoop]. rewrite Hin.
  destruct (betweenTicks_spec t w) as (w1 & E1 & B1 & T1 & R1 & D1).
  rewrite (bind_ret_eq _ _ _ _ _ E1).
  assert (Etick : monitorTick s t w1
                  = checkEmptyTimeout s a t
                      (mkWorld (bot w) (fs w1)
                         (trace w ++ [CheckMeetingEnded
                                        (hasJoinedMeeting (bot w))]))).
  { rewrite (monitorTick_not_ended a); rewrite ?B1, ?T1; auto. }
  set (w2 := mkWorld _ _ _) in Etick.
  assert (Hat2 : recordingAt p w2).
  { apply R1 in Hat. destruct Hat as [Hr Hd].
    split; [subst w2; simpl; now rewrite <- B1 | exact Hd]. }
  assert (P2 : forall P : Event -> Prop,
             P (CheckMeetingEnded (hasJoinedMeeting (bot w))) ->
             P GetParticipantCount ->
             forall w3, trace w3 = (trace w2 ++ [GetParticipantCount])%list ->
                        emitted P w w3).
  { intros P Pc Pg w3 E3. apply emitted_probes with
      (evs := [CheckMeetingEnded (hasJoinedMeeting (bot w));
               GetParticipantCount]).
    - rewrite E3. subst w2. simpl. now rewrite <- app_assoc.
    - now repeat constructor. }
  destruct (Z.le_gt_cases (emptyTimeoutMs s) (now t - t0)) as [Hle|Hgt].
  - (* the timer has run out at this turn *)
    assert (E3 := checkEmptyTimeout_leaves a t w2 t0 Hcount Hs H0 Hle).
    set (w3 := mkWorld (bot w2) (fs w2) (trace w2 ++ [GetParticipantCount])).
    destruct (leaving_empty_meeting p w3 Hat2)
      as (w' & E & Hl & Hi & Hj & Hc & Hskip).
    exists w'. split.
    { apply bind_exit_eq. rewrite Etick, E3. exact E. }
    repeat split; auto.
    + destruct (Hskip H) as (T & _). eapply emitted_trans; [|exact T].
      apply (P2 (fun e => ~ isTranscribe e) (fun F => F) (fun F => F) w3 eq_refl).
    + now destruct (Hskip H) as (_ & A & _).
    + intros He. destruct (Hskip H) as (_ & _ & U). apply U.
      now apply D1.
  - (* not yet: the loop goes on *)
    assert (E3 := checkEmptyTimeout_waits a t w2 t0 Hcount Hs H0 Hgt).
    set (w3 := mkWorld (bot w2) (fs w2) (trace w2 ++ [GetParticipantCount]))
      in E3.
    apply Exists_cons in Hex as [Hex|Hex]; [lia|].
    destruct (IH w3 Ha Hin Hs H0 Hall Hex Hat2)
      as (w' & E & Hl & Hi & Hj & Hc & Hskip).
    exists w'. split.
    { rewrite (bind_ret_eq _ _ _ _ Continue (eq_trans Etick E3)). exact E. }
    repeat split; auto.
    + destruct (Hskip H) as (T & _). eapply emitted_trans; [|exact T].
      apply (P2 (fun e => ~ isTranscribe e) (fun F => F) (fun F => F) w3 eq_refl).
    + now destruct (Hskip H) as (_ & A & _).
    + intros He. destruct (Hskip H) as (_ & _ & U). apply U.
      now apply D1.
Qed.

End Monitoring.


(** *** Leaving an empty meeting *)

Lemma emptyTimeoutMs_default (s : Script) :
  config s = Config.DEFAULTS ->
  emptyTimeoutMs s = (15 * 60 * 1000)%Z /\ skipsOnEmptyLeave s.
Proof.
  intros E. unfold emptyTimeoutMs, skipsOnEmptyLeave. rewrite E.
  split; [reflexivity|discriminate].
Qed.

(** A meeting that ended on its own keeps the reason unset. *)
Lemma ended_meeting_keeps_reason (s : Script) (a : Adapter) (t : Tick)
  (w : World) :
  adapter (bot w) = Some a ->
  checkMeetingEnded a (page t) (hasJoinedMeeting (bot w)) = Ok true ->
  exists w',
    monitorTick s t w = Exit 0 w'
    /\ leftDueToEmptyTimeout (bot w') = leftDueToEmptyTimeout (bot w)
    /\ isInMeeting (bot w') = false
    /\ In Cleanup (trace w').
Proof.
  intros Ha He. rewrite (monitorTick_ended s a t w Ha He).
  set (w0 := mkWorld _ _ _).
  destruct (cleanup_exits s w0) as (w' & E).
  pose proof (cleanup_session s w0) as S.
  destruct (cleanup_trace s w0) as (evs & T & _).
  rewrite E in S, T. simpl in S, T. unfold sameSession in S.
  exists w'. split; [now rewrite (bind_exit_eq _ _ _ _ _ E)|].
  repeat split.
  - rewrite S. simpl. now destruct (bot w).
  - rewrite S. simpl. now destruct (bot w).
  - rewrite T. apply in_or_app. right. now left.
Qed.

(** C5. Once the participant count reads 0 at every turn for at least the
    configured empty timeout (15 minutes by default), counted from the turn
    that started the timer, monitoring ends with the emptied-out reason
    ([leftDueToEmptyTimeout]) and cleanup runs; unless the configuration
    asks for the transcript of an empty meeting (by default it does not),
    cleanup transcribes nothing and no recording is left at the recording
    path: a recording found there is unlinked before the process exits. *)
Theorem empty_meeting_times_out (s : Script) (a : Adapter) (p : string)
  (t1 : Tick) (ts : list Tick) (w : World) :
  adapter (bot w) = Some a ->
  isInMeeting (bot w) = true ->
  truthyZ (emptyMeetingSince (bot w)) = false ->
  now t1 <> 0%Z ->
  Forall (aloneAt a (hasJoinedMeeting (bot w))) (t1 :: ts) ->
  Exists (fun t => emptyTimeoutMs s <= now t - now t1)%Z ts ->
  recordingAt p w ->
  exists w',
    monitorLoop s (t1 :: ts) w = Exit 0 w'
    /\ leftDueToEmptyTimeout (bot w') = true
    /\ isInMeeting (bot w') = false
    /\ In Cleanup (trace w')
    /\ (skipsOnEmptyLeave s ->
        emitted (fun e => ~ isTranscribe e) w w'
        /\ isAudio (fs w' p) = false
        /\ (Fs.existsSync (fs w) p = true -> In (Unlink p) (trace w')))
    /\ (config s = Config.DEFAULTS ->
        emptyTimeoutMs s = (15 * 60 * 1000)%Z /\ skipsOnEmptyLeave s).
Proof.
  intros Ha Hin Hs H1 Hall Hex Hat.
  apply Forall_cons_iff in Hall as [[Hended Hcount] Hall].
  cbn [monitorLoop]. rewrite Hin.
  destruct (betweenTicks_spec t1 w) as (w1 & E1 & B1 & T1 & R1 & D1).
  rewrite (bind_ret_eq _ _ _ _ _ E1).
  set (w2 := mkWorld (bot w) (fs w1)
               (trace w ++ [CheckMeetingEnded (hasJoinedMeeting (bot w))])).
  assert (Etick : monitorTick s t1 w1 = checkEmptyTimeout s a t1 w2).
  { rewrite (monitorTick_not_ended s a); rewrite ?B1, ?T1; auto. }
  assert (E3 := checkEmptyTimeout_starts s a t1 w2 Hcount Hs).
  set (w3 := mkWorld _ _ _) in E3.
  assert (Hat3 : recordingAt p w3).
  { apply R1 in Hat. destruct Hat as [Hr Hd].
    split; [subst w3 w2; simpl; now rewrite <- B1 | exact Hd]. }
  destruct (monitorLoop_empty_meeting s a (now t1) p ts w3
              Ha Hin eq_refl H1 Hall Hex Hat3)
    as (w' & E & Hl & Hi & _ & Hc & Hskip).
  exists w'. split.
  { rewrite (bind_ret_eq _ _ _ _ Continue (eq_trans Etick E3)). exact E. }
  repeat split; auto.
  - destruct (Hskip H) as (T & _). eapply emitted_trans; [|exact T].
    apply emitted_probes with
      (evs := [CheckMeetingEnded (hasJoinedMeeting (bot w));
               GetParticipantCount]).
    + subst w3 w2. simpl. now rewrite <- app_assoc.
    + now repeat constructor.
  - now destruct (Hskip H) as (_ & A & _).
  - intros He. destruct (Hskip H) as (_ & _ & U). apply U. now apply D1.
  - now apply emptyTimeoutMs_default.
  - now apply emptyTimeoutMs_default.
Qed.

Lemma empty_meeting_times_out_witness :
  exists w',
    monitorLoop (Examples.script not_waiting true [])
      [Examples.aloneTick 1000; Examples.aloneTick 6000;
       Examples.aloneTick 901000]
      (Examples.monitoring (Platforms.adapterOf GoogleMeet))
    = Exit 0 w'
    /\ leftDueToEmptyTimeout (bot w') = true
    /\ isAudio (fs w' Examples.recording) = false
    /\ In (Unlink Examples.recording) (trace w').
Proof.
  destruct (empty_meeting_times_out (Examples.script not_waiting true [])
              (Platforms.adapterOf GoogleMeet) Examples.recording
              (Examples.aloneTick 1000)
              [Examples.aloneTick 6000; Examples.aloneTick 901000]
              (Examples.monitoring (Platforms.adapterOf GoogleMeet)))
    as (w' & E & Hl & _ & _ & Hskip & _).
  - reflexivity.
  - reflexivity.
  - reflexivity.
  - discriminate.
  - repeat constructor.
  - apply Exists_cons_tl, Exists_cons_hd. vm_compute. discriminate.
  - split; [reflexivity|]. intros bytes. vm_compute. intros [= <-].
    reflexivity.
  - exists w'. destruct Hskip as (_ & A & U); [discriminate|].
    repeat split; try assumption. now apply U.
Defined.

(** *** The participant count and the empty timer *)

(** C6. At a monitoring turn whose end probe says the meeting goes on: a
    positive participant count resets a running empty timer to null, and
    with that the turn is over; a count of -1 leaves the timer as it is,
    running or not, and changes nothing else of the bot or of the files. *)
Theorem participant_count_and_empty_timer (s : Script) (a : Adapter)
  (t : Tick) (w : World) :
  adapter (bot w) = Some a ->
  checkMeetingEnded a (page t) (hasJoinedMeeting (bot w)) = Ok false ->
  (forall n,
      getParticipantCount a (page t) = Ok n -> (0 < n)%Z ->
      truthyZ (emptyMeetingSince (bot w)) = true ->
      exists w',
        monitorTick s t w = Ret Continue w'
        /\ emptyMeetingSince (bot w') = None
        /\ bot w' = set_emptyMeetingSince None (bot w)
        /\ fs w' = fs w)
  /\ (getParticipantCount a (page t) = Ok (-1)%Z ->
      exists w',
        monitorTick s t w = Ret Continue w'
        /\ emptyMeetingSince (bot w') = emptyMeetingSince (bot w)
        /\ bot w' = bot w
        /\ fs w' = fs w).
Proof.
  intros Ha He. rewrite (monitorTick_not_ended s a t w Ha He). split.
  - intros n Hc Hn Hs.
    rewrite (checkEmptyTimeout_occupied s a t _ n Hc Hn). cbn [bot].
    rewrite Hs. eexists. split; [reflexivity|]. now repeat split.
  - intros Hc.
    rewrite (checkEmptyTimeout_unknown s a t _ (-1)%Z Hc eq_refl).
    eexists. split; [reflexivity|]. now repeat split.
Qed.

Lemma participant_count_and_empty_timer_witness :
  (exists w',
      monitorTick (Examples.script not_waiting true []) (Examples.busyTick 7000)
        (Examples.waitingSince (Platforms.adapterOf GoogleMeet) 1000)
      = Ret Continue w'
      /\ emptyMeetingSince (bot w') = None)
  /\ (exists w',
         monitorTick (Examples.script not_waiting true [])
           (Examples.loadingTick 7000)
           (Examples.waitingSince (Platforms.adapterOf GoogleMeet) 1000)
         = Ret Continue w'
         /\ emptyMeetingSince (bot w') = Some 1000%Z).
Proof.
  split.
  - destruct (participant_count_and_empty_timer
                (Examples.script not_waiting true [])
                (Platforms.adapterOf GoogleMeet) (Examples.busyTick 7000)
                (Examples.waitingSince (Platforms.adapterOf GoogleMeet) 1000)
                eq_refl eq_refl) as [H _].
    destruct (H 2%Z eq_refl eq_refl eq_refl) as (w' & E & N & _).
    now exists w'.
  - destruct (participant_count_and_empty_timer
                (Examples.script not_waiting true [])
                (Platforms.adapterOf GoogleMeet) (Examples.loadingTick 7000)
                (Examples.waitingSince (Platforms.adapterOf GoogleMeet) 1000)
                eq_refl eq_refl) as [_ H].
    destruct (H eq_refl) as (w' & E & N & _).
    now exists w'.
Defined.


(** *** Exceptions *)

(** Whatever throws inside the [try] of [run] ends in [cleanup]. *)
Lemma run_catches (s : Script) (url name : string) (w w1 : World) :
  session s url name w = Raise w1 ->
  exists w',
    run s url name w = Exit 0 w'
    /\ emitted isCleanupEvent w1 w'
    /\ In Cleanup (trace w').
Proof.
  intros E. unfold run. rewrite (tryCatch_raise _ _ _ _ E).
  destruct (cleanup_exits s w1) as (w' & E').
  destruct (cleanup_trace s w1) as (evs & T & F).
  rewrite E' in T. simpl in T.
  exists w'. split; [exact E'|]. split.
  - exists (Cleanup :: evs). split; [exact T|]. now constructor.
  - rewrite T. apply in_or_app. right. now left.
Qed.

(** No exception leaves [run]. *)
Lemma run_safe (s : Script) (url name : string) : safe (run s url name).
Proof.
  intros w w' E. unfold run, tryCatch in E.
  destruct (session s url name w) as [? ?|w1|? ?|?] eqn:Es; try discriminate.
  destruct (cleanup_exits s w1) as (w2 & E2). congruence.
Qed.

(** *** Calls that throw *)

(** One call of the join sequence: either it throws, and the goal is
    closed, or it goes through. *)
Ltac join_call r H :=
  destruct r as [?|];
  cbn [upToThrow negb isOk app option_map] in H;
  cbv beta iota; cbn [bot fs trace];
  [| injection H as <-; eexists;
     split; [reflexivity | cbn [trace]; now rewrite <- ?app_assoc] ].

(** A call of the join sequence throws: [joinMeeting] throws with it, the
    calls before it made and none after. *)
Lemma joinMeeting_throws (s : Script) (url : string) (a : Adapter)
  (evs : list Event) (w : World) :
  Platforms.resolvePlatform url = Ok a ->
  upToThrow (joinCalls s a url) = Some evs ->
  exists w1,
    joinMeeting s url w = Raise w1 /\ trace w1 = (trace w ++ evs)%list.
Proof.
  intros Ha H. unfold joinMeeting, joinCalls, confirmJoin, throws, call in *.
  rewrite Ha. cbv [bind await update modify emit ret raise].
  cbn [bot fs trace].
  join_call (gotoMeeting s) H.
  join_call (dismissPopups1 s) H.
  destruct (Config.googleAccountEnabled (config s));
    cbn [upToThrow negb isOk app option_map] in H; cbv beta iota;
    [|join_call (enterName s) H];
    (join_call (muteMedia s) H;
     join_call (dismissPopups2 s) H;
     join_call (clickJoin s) H;
     join_call (dismissPopups3 s) H;
     destruct (hasWaitForAdmission a);
     [ destruct (waitForAdmission s) as [[]|];
       cbn [upToThrow negb isOk app option_map] in H;
       cbv beta iota; cbn [bot fs trace];
       try discriminate H;
       [ join_call (verifyInMeeting s) H; discriminate H
       | injection H as <-; eexists;
         split; [reflexivity | cbn [trace]; now rewrite <- ?app_assoc] ]
     | join_call (verifyInMeeting s) H; discriminate H ]).
Qed.

(** When [joinMeeting] returns, the bot has its adapter and is in the
    meeting. *)
Lemma joinMeeting_lands (s : Script) (url : string) (w w0 : World) :
  joinMeeting s url w = Ret tt w0 ->
  exists a,
    Platforms.resolvePlatform url = Ok a
    /\ adapter (bot w0) = Some a /\ isInMeeting (bot w0) = true.
Proof.
  unfold joinMeeting, confirmJoin, routeAudio, call.
  destruct (Platforms.resolvePlatform url) as [a|]; [|discriminate].
  intros E. exists a. split; [reflexivity|]. revert E.
  cbv [bind await update modify emit ret raise]. cbn [bot fs trace].
  destruct (gotoMeeting s); [|discriminate].
  destruct (dismissPopups1 s); [|discriminate].
  assert (Hexit : forall wx, cleanup s wx <> Ret tt w0).
  { intros wx E. destruct (cleanup_exits s wx) as (w' & E'). congruence. }
  destruct (Config.googleAccountEnabled (config s));
    [|destruct (enterName s); [|discriminate]];
    (destruct (muteMedia s); [|discriminate];
     destruct (dismissPopups2 s); [|discriminate];
     destruct (clickJoin s); [|discriminate];
     destruct (dismissPopups3 s); [|discriminate];
     destruct (hasWaitForAdmission a);
     [destruct (waitForAdmission s) as [[]|]; try discriminate|];
     cbv beta iota; cbn [bot fs trace];
     try (intros E; now apply Hexit in E);
     try (destruct (verifyInMeeting s) as [[]|]; [| |discriminate]);
     cbv beta iota; cbn [bot fs trace];
     intros [= <-]; now split).
Qed.

Lemma joinPhase_lands (s : Script) (url name : string) (w w0 : World) :
  joinPhase s url name w = Ret tt w0 ->
  exists a,
    Platforms.resolvePlatform url = Ok a
    /\ adapter (bot w0) = Some a /\ isInMeeting (bot w0) = true.
Proof.
  unfold joinPhase. intros E.
  unfold bind at 1 in E. destruct (init s w) as [[] w1|?|? ?|?]; try discriminate.
  unfold bind at 1 in E. destruct (setupAudio s w1) as [[] w2|?|? ?|?]; try discriminate.
  unfold bind at 1 in E.
  destruct (startRecording s name w2) as [[] w3|?|? ?|?]; try discriminate.
  exact (joinMeeting_lands s url w3 w0 E).
Qed.

(** [session] is the join phase followed by the monitoring loop. *)
Lemma session_joinPhase (s : Script) (url name : string) (w : World) :
  session s url name w = (joinPhase s url name ;; monitorMeeting s) w.
Proof.
  unfold session, joinPhase. unfold bind.
  destruct (init s w) as [[] w1|?|? ?|?]; try reflexivity.
  all: destruct (setupAudio s w1) as [[] w2|?|? ?|?]; try reflexivity.
  all: destruct (startRecording s name w2) as [[] w3|?|? ?|?]; reflexivity.
Qed.

(** A turn in which the meeting goes on and the bot is not seen alone:
    the loop comes to its next turn, in the meeting as before. *)
Lemma turn_goes_on (s : Script) (a : Adapter) (t : Tick) (w : World) :
  adapter (bot w) = Some a ->
  goesOn a (hasJoinedMeeting (bot w)) t ->
  exists w',
    (betweenTicks t ;; monitorTick s t) w = Ret Continue w'
    /\ adapter (bot w') = Some a
    /\ hasJoinedMeeting (bot w') = hasJoinedMeeting (bot w)
    /\ isInMeeting (bot w') = isInMeeting (bot w)
    /\ trace w'
       = (trace w ++ [CheckMeetingEnded (hasJoinedMeeting (bot w));
                      GetParticipantCount])%list.
Proof.
  intros Ha [He Hc].
  destruct (betweenTicks_spec t w) as (w1 & E1 & Hb & Ht & _).
  rewrite (bind_ret_eq _ _ _ _ _ E1).
  rewrite <- Hb in Ha, He.
  rewrite (monitorTick_not_ended s a t w1 Ha He).
  destruct (getParticipantCount a (page t)) as [n|] eqn:En.
  - destruct (Z.lt_trichotomy n 0) as [Hn|[Hn|Hn]].
    + rewrite (checkEmptyTimeout_unknown s a t _ n En Hn).
      eexists. split; [reflexivity|]. cbn [bot fs trace].
      rewrite Ht, <- Hb, <- app_assoc. repeat split; assumption.
    + subst n. now elim Hc.
    + rewrite (checkEmptyTimeout_occupied s a t _ n En Hn).
      eexists. split; [reflexivity|]. cbn [bot fs trace].
      rewrite Ht, <- Hb, <- app_assoc.
      destruct (truthyZ (emptyMeetingSince (bot w1)));
        repeat split; try assumption; now destruct (bot w1).
  - rewrite (checkEmptyTimeout_throws s a t _ En).
    eexists. split; [reflexivity|]. cbn [bot fs trace].
    rewrite Ht, <- Hb, <- app_assoc. repeat split; assumption.
Qed.

(** The end probe throws at some turn, after turns in which the meeting
    went on: the loop throws there, after the probes of the turns
    before. *)
Lemma monitorLoop_end_probe_throws (s : Script) (a : Adapter)
  (hasJoined : bool) (pre : list Tick) (t : Tick) (rest : list Tick) :
  Forall (goesOn a hasJoined) pre ->
  checkMeetingEnded a (page t) hasJoined = Throws ->
  forall w,
    isInMeeting (bot w) = true ->
    adapter (bot w) = Some a ->
    hasJoinedMeeting (bot w) = hasJoined ->
    exists w1,
      monitorLoop s (pre ++ t :: rest) w = Raise w1
      /\ trace w1
         = (trace w
            ++ flat_map (fun _ => [CheckMeetingEnded hasJoined;
                                   GetParticipantCount]) pre
            ++ [CheckMeetingEnded hasJoined])%list.
Proof.
  intros Hpre Ht. induction Hpre as [|x pre Hx _ IH]; intros w Hin Ha Hj.
  - cbn [app monitorLoop flat_map]. rewrite Hin.
    destruct (betweenTicks_spec t w) as (w1 & E1 & Hb & Htr & _).
    unfold bind at 1. rewrite E1. unfold bind at 1.
    rewrite <- Hb in Ha. rewrite <- Hj, <- Hb in Ht.
    rewrite (monitorTick_end_probe_throws s a t w1 Ha Ht).
    eexists. split; [reflexivity|]. cbn [trace].
    now rewrite Htr, <- Hj, Hb.
  - cbn [app monitorLoop flat_map]. rewrite Hin.
    rewrite <- Hj in Hx.
    destruct (turn_goes_on s a x w Ha Hx) as (w' & E & Ha' & Hj' & Hin' & T).
    assert (E' : (betweenTicks x ;;
                  ctl <- monitorTick s x ;;
                  match ctl with
                  | Break => ret tt
                  | Continue => monitorLoop s (pre ++ t :: rest)
                  end) w = monitorLoop s (pre ++ t :: rest) w').
    { revert E. unfold bind.
      destruct (betweenTicks x w) as [[] w1|?|? ?|?]; try discriminate.
      destruct (monitorTick s x w1) as [[] w2|?|? ?|?]; try discriminate.
      now intros [= <-]. }
    rewrite E'.
    destruct (IH w') as (w1 & E1 & T1);
      [congruence|assumption|congruence|].
    exists w1. split; [exact E1|].
    rewrite T1, T, Hj. cbn [app]. now rewrite <- !app_assoc.
Qed.

(** The participant count throws at a turn: the loop goes on with the
    next turn, the bot as it was. *)
Lemma monitorLoop_count_throws (s : Script) (a : Adapter) (t : Tick)
  (rest : list Tick) (w : World) :
  isInMeeting (bot w) = true ->
  adapter (bot w) = Some a ->
  checkMeetingEnded a (page t) (hasJoinedMeeting (bot w)) = Ok false ->
  getParticipantCount a (page t) = Throws ->
  exists w',
    monitorLoop s (t :: rest) w = monitorLoop s rest w'
    /\ bot w' = bot w
    /\ trace w'
       = (trace w ++ [CheckMeetingEnded (hasJoinedMeeting (bot w));
                      GetParticipantCount])%list.
Proof.
  intros Hin Ha He Hc.
  destruct (betweenTicks_spec t w) as (w1 & E1 & Hb & Ht & _).
  cbn [monitorLoop]. rewrite Hin. unfold bind at 1. rewrite E1.
  unfold bind at 1. rewrite <- Hb in Ha, He.
  rewrite (monitorTick_not_ended s a t w1 Ha He).
  rewrite (checkEmptyTimeout_throws s a t _ Hc).
  eexists. split; [reflexivity|]. cbn [bot fs trace].
  split; [exact Hb|]. now rewrite Ht, <- Hb, <- app_assoc.
Qed.

(** The end probe throws at a turn of a session that got through the join
    sequence: [session] throws there. *)
Lemma session_end_probe_throws (s : Script) (url name : string) (a : Adapter)
  (pre : list Tick) (t : Tick) (rest : list Tick) (w w0 : World) :
  joinPhase s url name w = Ret tt w0 ->
  Platforms.resolvePlatform url = Ok a ->
  ticks s = (pre ++ t :: rest)%list ->
  Forall (goesOn a (hasJoinedMeeting (bot w0))) pre ->
  checkMeetingEnded a (page t) (hasJoinedMeeting (bot w0)) = Throws ->
  exists w1,
    session s url name w = Raise w1
    /\ trace w1
       = (trace w0
          ++ MonitorStart
             :: flat_map (fun _ => [CheckMeetingEnded (hasJoinedMeeting (bot w0));
                                    GetParticipantCount]) pre
          ++ [CheckMeetingEnded (hasJoinedMeeting (bot w0))])%list.
Proof.
  intros Hj Hr Hts Hpre Hend.
  destruct (joinPhase_lands s url name w w0 Hj) as (a' & Hr' & Ha & Hin).
  assert (a' = a) by congruence. subst a'.
  rewrite session_joinPhase, (bind_ret_eq _ _ _ _ _ Hj).
  unfold monitorMeeting. cbv [bind emit modify]. rewrite Hts.
  destruct (monitorLoop_end_probe_throws s a (hasJoinedMeeting (bot w0))
              pre t rest Hpre Hend
              (mkWorld (bot w0) (fs w0) (trace w0 ++ [MonitorStart])%list)
              Hin Ha eq_refl) as (w1 & E & T).
  exists w1. split; [exact E|].
  rewrite T. cbn [trace]. now rewrite <- app_assoc.
Qed.

(** A call of the join sequence throws: [session] throws there. *)
Lemma session_join_call_throws (s : Script) (url name : string) (a : Adapter)
  (evs : list Event) (w : World) :
  connectChrome s = Ok tt -> injectCapture s = Ok tt ->
  Platforms.resolvePlatform url = Ok a ->
  upToThrow (joinCalls s a url) = Some evs ->
  exists w1,
    session s url name w = Raise w1
    /\ trace w1
       = (trace w ++ [ConnectChrome; InjectCapture; StartRecording name]
          ++ evs)%list.
Proof.
  intros Hc Hi Hr Hthrow.
  unfold session, init, setupAudio, startRecording, call.
  rewrite Hc, Hi.
  cbv [bind await update updateFs modify emit ret]. cbn [bot fs trace].
  match goal with
  | |- exists w1, match joinMeeting s url ?wj with _ => _ end = _ /\ _ =>
      destruct (joinMeeting_throws s url a evs wj Hr Hthrow) as (w1 & E & T);
      rewrite E; exists w1; split; [reflexivity|];
      rewrite T; cbn [trace]; now rewrite <- !app_assoc
  end.
Qed.




(** *** A refused admission *)

(** Replaces the calls that are known to go through by their results. *)
Ltac settle_results :=
  repeat match goal with
         | H : isOk ?r = true |- _ =>
             destruct r as [?|]; [clear H | discriminate H]
         end;
  repeat match goal with u : unit |- _ => destruct u end.

(** C1, as the code has it.  When the adapter has a waiting room and
    [waitForAdmission] answers ended or timeout, the controller goes from
    the join sequence straight to cleanup and exits: it never routes audio
    and never starts monitoring, and [hasJoinedMeeting] is false at the
    end.  [startRecording] has run all the same: [run] calls it once,
    before the join sequence begins. *)
Theorem refused_admission_goes_to_cleanup (s : Script) (url name : string)
  (files : Fs.t) :
  reachesAdmission s url = true ->
  waitForAdmission s = Ok ended \/ waitForAdmission s = Ok timeout ->
  exists a w evs,
    Platforms.resolvePlatform url = Ok a
    /\ run s url name (start files) = Exit 0 w
    /\ hasJoinedMeeting (bot w) = false
    /\ isInMeeting (bot w) = false
    /\ trace w
       = ([ConnectChrome; InjectCapture; StartRecording name]
          ++ joinEvents s (normalizeUrl a url) ++ Cleanup :: evs)%list
    /\ Forall isCleanupEvent evs
    /\ ~ In RouteAudio (trace w)
    /\ ~ In MonitorStart (trace w).
Proof.
  intros Hreach Hadm. unfold reachesAdmission in Hreach.
  destruct (Platforms.resolvePlatform url) as [a|] eqn:Hres; [|discriminate].
  repeat (apply andb_true_iff in Hreach as [Hreach ?]).
  assert (Hgo : exists w1,
             (joinMeeting s url ;; monitorMeeting s)
               (mkWorld (set_recordingPath (Some (outputDir s ++ "/audio.webm"))
                           (set_meetingName (Some name)
                              (set_attached true constructor)))
                  (Fs.writeFileSync files (outputDir s ++ "/metadata.json")
                     (Fs.RecordingMetadata name))
                  [ConnectChrome; InjectCapture; StartRecording name])
             = (cleanup s ;; monitorMeeting s) w1
             /\ hasJoinedMeeting (bot w1) = false
             /\ isInMeeting (bot w1) = false
             /\ trace w1 = ([ConnectChrome; InjectCapture; StartRecording name]
                            ++ joinEvents s (normalizeUrl a url))%list).
  { unfold joinMeeting, joinEvents, call. rewrite Hres.
    cbv [await bind ret emit update modify bot fs trace].
    destruct (hasWaitForAdmission a); [|discriminate].
    destruct (Config.googleAccountEnabled (config s)); cbn [orb] in *;
      settle_results;
      (destruct (waitForAdmission s) as [[]|];
       destruct Hadm as [Hadm|Hadm]; try discriminate Hadm);
      eexists; (split; [reflexivity|]); now repeat split. }
  destruct Hgo as (w1 & Ego & Hj1 & Hi1 & Ht1).
  destruct (cleanup_exits s w1) as (w & E).
  pose proof (cleanup_session s w1) as S.
  destruct (cleanup_trace s w1) as (evs & T & F).
  rewrite E in S, T. simpl in S, T. unfold sameSession in S.
  exists a, w, evs. split; [reflexivity|]. split.
  { unfold run, session, init, setupAudio, startRecording, call, start.
    settle_results.
    change (Exit 0 w) with
      (tryCatch (fun _ => Exit 0 w) (cleanup s) (start files)).
    rewrite <- (bind_exit_eq _ (fun _ => monitorMeeting s) _ _ _ E), <- Ego.
    reflexivity. }
  assert (Htrace : trace w
                   = ([ConnectChrome; InjectCapture; StartRecording name]
                      ++ joinEvents s (normalizeUrl a url)
                      ++ Cleanup :: evs)%list).
  { rewrite T, Ht1. now rewrite <- app_assoc. }
  assert (Hno : forall e, ~ isCleanupEvent e ->
                          ~ In e (joinEvents s (normalizeUrl a url)) ->
                          e <> ConnectChrome -> e <> InjectCapture ->
                          e <> StartRecording name -> ~ In e (trace w)).
  { intros e Hc Hjoin Hn1 Hn2 Hn3 Hin. rewrite Htrace in Hin.
    apply in_app_or in Hin as [[Hin|[Hin|[Hin|[]]]]|Hin]; try congruence.
    apply in_app_or in Hin as [Hin|[Hin|Hin]].
    - now apply Hjoin.
    - subst e. now apply Hc.
    - rewrite Forall_forall in F. now apply Hc, F. }
  repeat split.
  - rewrite S. simpl. rewrite <- Hj1. now destruct (bot w1).
  - rewrite S. simpl. rewrite <- Hi1. now destruct (bot w1).
  - exact Htrace.
  - exact F.
  - apply Hno; try discriminate; [now intros []|].
    unfold joinEvents. destruct (Config.googleAccountEnabled (config s));
      simpl; intuition discriminate.
  - apply Hno; try discriminate; [now intros []|].
    unfold joinEvents. destruct (Config.googleAccountEnabled (config s));
      simpl; intuition discriminate.
Qed.


Lemma refused_admission_goes_to_cleanup_witness :
  exists w,
    run (Examples.script ended true []) Examples.zoomUrl "standup"
      (start Fs.empty)
    = Exit 0 w
    /\ hasJoinedMeeting (bot w) = false
    /\ ~ In RouteAudio (trace w)
    /\ ~ In MonitorStart (trace w).
Proof.
  destruct (refused_admission_goes_to_cleanup (Examples.script ended true [])
              Examples.zoomUrl "standup" Fs.empty)
    as (a & w & evs & _ & E & Hj & _ & _ & _ & Hr & Hm).
  - vm_compute. reflexivity.
  - left. reflexivity.
  - exists w. repeat split; assumption.
Defined.

(** C1 as stated fails in its last part: the recording is started before
    the bot joins, so it has been started when the waiting room ends. *)
Lemma recording_starts_before_admission :
  ~ (forall s url name files w,
        reachesAdmission s url = true ->
        waitForAdmission s = Ok ended ->
        run s url name (start files) = Exit 0 w ->
        hasJoinedMeeting (bot w) = false
        /\ ~ In (StartRecording name) (trace w)).
Proof.
  intros H.
  destruct (H (Examples.script ended true []) Examples.zoomUrl "standup"
              Fs.empty
              (final (run (Examples.script ended true []) Examples.zoomUrl
                        "standup" (start Fs.empty))))
    as [_ Hn].
  - vm_compute. reflexivity.
  - reflexivity.
  - vm_compute. reflexivity.
  - apply Hn. vm_compute. tauto.
Qed.

(** *** Chrome is not there *)

(** C2 on the code of meeting-bot.js.  When connecting to Chrome fails,
    [run] catches the error and runs cleanup, which writes the session
    record /tmp/last-meeting-session.json and exits with status 0. *)
Theorem attach_failure_exits_zero_with_a_record (s : Script)
  (url name : string) (files : Fs.t) :
  connectChrome s = Throws ->
  exists w info,
    run s url name (start files) = Exit 0 w
    /\ trace w = [ConnectChrome; Cleanup; StopRecording;
                  WriteSession "/tmp/last-meeting-session.json";
                  ProcessExit 0]
    /\ fs w "/tmp/last-meeting-session.json" = Some (Fs.Session info).
Proof.
  intros H.
  assert (E : session s url name (start files)
              = Raise (mkWorld constructor files [ConnectChrome])).
  { unfold session, init, call.
    cbv [await bind ret raise emit update modify bot fs trace start].
    now rewrite H. }
  unfold run. rewrite (tryCatch_raise _ _ _ _ E).
  vm_compute. do 2 eexists. split; [reflexivity|]. split; reflexivity.
Qed.

Lemma attach_failure_exits_zero_with_a_record_witness :
  exists w info,
    run Examples.unattachedScript Examples.meetUrl "standup" (start Fs.empty)
    = Exit 0 w
    /\ fs w "/tmp/last-meeting-session.json" = Some (Fs.Session info).
Proof.
  destruct (attach_failure_exits_zero_with_a_record Examples.unattachedScript
              Examples.meetUrl "standup" Fs.empty eq_refl)
    as (w & info & E & _ & F).
  now exists w, info.
Defined.

End MeetingBotFacts.

(* ================================================================== *)
(** ** More on strings *)
(* ================================================================== *)

Module StringMore.
Import JsString JsStringFacts.

Lemma startsWith_split (s p : string) :
  startsWith s p = true -> exists r, s = p ++ r.
Proof.
  revert s; induction p as [|c p IH]; intros s H.
  - now exists s.
  - destruct s as [|d s]; simpl in H; [discriminate|].
    apply andb_true_iff in H as [Hc Hs]. apply Ascii.eqb_eq in Hc; subst d.
    destruct (IH s Hs) as [r ->]. now exists r.
Qed.

Lemma app_assoc' (a b c : string) : (a ++ b) ++ c = a ++ b ++ c.
Proof. induction a as [|x a IH]; simpl; [reflexivity|now rewrite IH]. Qed.

Lemma includes_split (s p : string) :
  includes s p = true -> exists a b, s = a ++ p ++ b.
Proof.
  induction s as [|c s IH]; cbn [includes]; intros H.
  - rewrite orb_false_r in H. destruct (startsWith_split _ _ H) as [r Hr].
    now exists EmptyString, r.
  - apply orb_true_iff in H as [H|H].
    + destruct (startsWith_split _ _ H) as [r Hr]. now exists EmptyString, r.
    + destruct (IH H) as (a & b & ->). now exists (String c a), b.
Qed.

(** Whatever contains [a ++ b] contains [b]. *)
Lemma includes_suffix (s a b : string) :
  includes s (a ++ b) = true -> includes s b = true.
Proof.
  intros H. destruct (includes_split _ _ H) as (x & y & ->).
  rewrite app_assoc', <- (app_assoc' x a (b ++ y)). apply includes_app.
Qed.

End StringMore.

(* ================================================================== *)
(** ** The platform registry *)
(* ================================================================== *)

Module PlatformIndexFacts.
Import JsString JsStringFacts StringMore PlatformIndex.

Lemma web_whatsapp (url : string) :
  includes url "web.whatsapp.com" = true -> includes url "whatsapp.com" = true.
Proof. apply (includes_suffix url "web." "whatsapp.com"). Qed.

(** X1. The three readers of the registry agree: a URL is supported
    exactly when it contains meet.google.com, zoom.us or whatsapp.com (the
    entry for web.whatsapp.com adds nothing), [resolvePlatform] throws
    exactly on the unsupported URLs, and [detectPlatformName] gives the
    name of the adapter [resolvePlatform] builds, or unknown exactly on the
    unsupported URLs. *)
Theorem registry_readers_agree (url : string) :
  isSupportedUrl url
  = includes url "meet.google.com" || includes url "zoom.us"
    || includes url "whatsapp.com"
  /\ (Platforms.resolvePlatform url = Throws <-> isSupportedUrl url = false)
  /\ (forall a, Platforms.resolvePlatform url = Ok a ->
                detectPlatformName url = name a)
  /\ (detectPlatformName url = "unknown" <-> isSupportedUrl url = false).
Proof.
  pose proof (web_whatsapp url) as Hw.
  unfold isSupportedUrl, detectPlatformName, Platforms.resolvePlatform.
  unfold Platforms.detectPlatform. cbn [existsb firstMatch PLATFORMS fst].
  destruct (includes url "meet.google.com"), (includes url "zoom.us"),
    (includes url "web.whatsapp.com") eqn:E3,
    (includes url "whatsapp.com") eqn:E4;
    try (specialize (Hw eq_refl); discriminate);
    cbn; repeat split; try discriminate; try reflexivity;
    try (intros a [= <-]; reflexivity).
Qed.

End PlatformIndexFacts.

(* ================================================================== *)
(** ** The directory of a recording *)
(* ================================================================== *)

Module RecordingDirFacts.
Import JsString RecordingDir.

Lemma keepNameChars_chars (s : string) : allNameChars (keepNameChars s) = true.
Proof.
  induction s as [|c s IH]; [reflexivity|].
  cbn [keepNameChars]. destruct (isNameChar c) eqn:E; [|exact IH].
  unfold allNameChars, Text.all in *. cbn [dashSpaces keepNameChars forallb list_ascii_of_string isEmpty]. now rewrite E, IH.
Qed.

Lemma keepNameChars_id (s : string) :
  allNameChars s = true -> keepNameChars s = s.
Proof.
  unfold allNameChars, Text.all. induction s as [|c s IH]; cbn [dashSpaces keepNameChars forallb list_ascii_of_string isEmpty]; [reflexivity|].
  intros H. apply andb_true_iff in H as [Hc Hs]. now rewrite Hc, IH.
Qed.

Lemma nameChar_not_space (c : ascii) :
  isNameChar c = true -> isWhiteSpace c = false.
Proof. destruct c as [[] [] [] [] [] [] [] []]; vm_compute; congruence. Qed.

Lemma dashSpaces_id (s : string) :
  allNameChars s = true -> dashSpaces false s = s.
Proof.
  unfold allNameChars, Text.all. induction s as [|c s IH]; cbn [dashSpaces keepNameChars forallb list_ascii_of_string isEmpty]; [reflexivity|].
  intros H. apply andb_true_iff in H as [Hc Hs].
  now rewrite (nameChar_not_space c Hc), IH.
Qed.

Lemma keep_dash_empty (inRun : bool) (s : string) :
  allDropped s = true -> keepNameChars (dashSpaces inRun s) = EmptyString.
Proof.
  revert inRun; induction s as [|c s IH]; intros inRun; cbn [dashSpaces keepNameChars forallb list_ascii_of_string allDropped isEmpty]; [reflexivity|].
  intros H. apply andb_true_iff in H as [H Hs].
  apply andb_true_iff in H as [Hn Hw].
  apply negb_true_iff in Hn, Hw. rewrite Hw. cbn [dashSpaces keepNameChars forallb list_ascii_of_string allDropped isEmpty]. rewrite Hn. now apply IH.
Qed.

Lemma keep_dash_nonempty (s : string) :
  keepNameChars (dashSpaces false s) = EmptyString -> allDropped s = true.
Proof.
  assert (G : forall inRun,
             keepNameChars (dashSpaces inRun s) = EmptyString ->
             (inRun = false -> allDropped s = true)
             /\ (inRun = true ->
                 allDropped s = true
                 \/ exists c s', s = String c s' /\ isWhiteSpace c = true)).
  { induction s as [|c s IH]; intros inRun H.
    - split; intros _; [reflexivity|now left].
    - cbn [dashSpaces] in H. destruct (isWhiteSpace c) eqn:Ew.
      + destruct inRun.
        * split; [discriminate|]. intros _. right. now exists c, s.
        * cbn [keepNameChars] in H. change (isNameChar "-") with true in H.
          discriminate.
      + cbn [keepNameChars] in H. destruct (isNameChar c) eqn:En;
          [discriminate|].
        destruct (IH false H) as [IH1 _].
        assert (A : allDropped (String c s) = true).
        { cbn [allDropped]. now rewrite En, Ew, (IH1 eq_refl). }
        split; intros _; [exact A|now left]. }
  intros H. now apply (G false H).
Qed.

(** X2. Whatever the meeting name, the part of the recording directory's
    name that comes from it is made of letters, digits, underscores and
    dashes only: it holds no slash, no dot, no double quote and no white
    space. *)
Theorem safeName_characters (meetingName : string) (c : ascii) :
  In c (list_ascii_of_string (safeName meetingName)) ->
  isNameChar c = true
  /\ c <> "/"%char /\ c <> "."%char /\ c <> ascii_of_nat 34
  /\ isWhiteSpace c = false.
Proof.
  intros H.
  assert (Hc : isNameChar c = true).
  { pose proof (keepNameChars_chars
                  (dashSpaces false (if isEmpty meetingName then "meeting"
                                     else meetingName))) as A.
    unfold allNameChars, Text.all in A. rewrite forallb_forall in A. now apply A. }
  split; [exact Hc|].
  repeat split; try (intros ->; discriminate).
  now apply nameChar_not_space.
Qed.

Lemma safeName_characters_witness :
  In "-"%char (list_ascii_of_string (safeName "weekly sync"))
  /\ isNameChar "-" = true.
Proof.
  assert (H : In "-"%char (list_ascii_of_string (safeName "weekly sync"))).
  { vm_compute. tauto. }
  split; [exact H|].
  exact (proj1 (safeName_characters "weekly sync" "-" H)).
Defined.

(** X3. The default name stands in for the empty name only.  A name made
    of nothing but characters that are dropped (neither in the class nor
    white space) gives the empty string, and that is the only way to get
    it; on every other result the function changes nothing when applied
    again. *)
Theorem safeName_empty_and_stable (meetingName : string) :
  safeName EmptyString = "meeting"
  /\ (safeName meetingName = EmptyString
      <-> meetingName <> EmptyString /\ allDropped meetingName = true)
  /\ (safeName meetingName <> EmptyString ->
      safeName (safeName meetingName) = safeName meetingName).
Proof.
  split; [reflexivity|]. split.
  - unfold safeName. destruct meetingName as [|c s].
    + cbn. split; [discriminate|]. now intros [H _].
    + cbn [isEmpty]. split.
      * intros H. split; [discriminate|]. now apply keep_dash_nonempty.
      * intros [_ H]. now apply keep_dash_empty.
  - intros Hne. pose proof (keepNameChars_chars
                  (dashSpaces false (if isEmpty meetingName then "meeting"
                                     else meetingName))) as A.
    fold (safeName meetingName) in A.
    unfold safeName at 1.
    destruct (safeName meetingName) as [|c s] eqn:E; [now elim Hne|].
    cbn [isEmpty]. now rewrite (dashSpaces_id _ A), (keepNameChars_id _ A).
Qed.

Lemma safeName_empty_and_stable_witness :
  safeName (safeName "Q3 review: plan!") = safeName "Q3 review: plan!".
Proof.
  apply (safeName_empty_and_stable "Q3 review: plan!").
  vm_compute. discriminate.
Defined.

End RecordingDirFacts.

(* ================================================================== *)
(** ** The Zoom meeting code *)
(* ================================================================== *)

Module ZoomCodeFacts.
Import JsString JsStringFacts StringMore ZoomCode.
Import ZoomPlatform Text.

Lemma span_spec (f : ascii -> bool) (s : string) :
  s = fst (span f s) ++ snd (span f s)
  /\ all f (fst (span f s)) = true
  /\ stopsAt f (snd (span f s)) = true.
Proof.
  induction s as [|c s (IH1 & IH2 & IH3)]; cbn [span]; [now cbn|].
  destruct (f c) eqn:E.
  - destruct (span f s) as [taken rest]. cbn [fst snd] in *.
    repeat split.
    + cbn [append]. now rewrite <- IH1.
    + unfold all in *. cbn [list_ascii_of_string forallb]. now rewrite E.
    + exact IH3.
  - cbn. now rewrite E.
Qed.

Lemma span_prefix (f : ascii -> bool) (a b : string) :
  all f a = true -> stopsAt f b = true -> span f (a ++ b) = (a, b).
Proof.
  unfold all. induction a as [|c a IH]; cbn [append]; intros Ha Hb.
  - destruct b as [|d b]; [reflexivity|]. cbn in *.
    apply negb_true_iff in Hb. now rewrite Hb.
  - cbn in Ha. apply andb_true_iff in Ha as [Hc Ha].
    cbn [span]. now rewrite Hc, (IH Ha Hb).
Qed.

Lemma stopsAt_prefix (f g : ascii -> bool) (s : string) :
  stopsAt f s = true -> stopsAt f (fst (span g s)) = true.
Proof.
  destruct s as [|c s]; [now cbn|]. cbn [span stopsAt]. intros H.
  destruct (g c); [|reflexivity].
  destruct (span g s). exact H.
Qed.

Lemma digitsAt_prefix (code tail : string) :
  code <> EmptyString -> all isDigit code = true ->
  stopsAt isDigit tail = true ->
  digitsAt (code ++ tail) = Some code.
Proof.
  intros Hne Hd Ht. unfold digitsAt. rewrite (span_prefix _ _ _ Hd Ht).
  destruct code; [now elim Hne|reflexivity].
Qed.

Lemma digitsAt_sound (s code : string) :
  digitsAt s = Some code ->
  code <> EmptyString /\ all isDigit code = true
  /\ exists tail, s = code ++ tail.
Proof.
  unfold digitsAt. destruct (span_spec isDigit s) as (E & D & _).
  destruct (span isDigit s) as [digits rest]. cbn [fst snd] in *.
  destruct digits as [|d ds]; cbn [isEmpty]; [discriminate|].
  intros [= <-]. repeat split; [discriminate|exact D|now exists rest].
Qed.

(** What a successful match of the /j/ pattern at the head of a URL says
    about the URL. *)
Lemma matchJoinAt_shape (s host meetingId rest : string) :
  matchJoinAt s = Some (host, meetingId, rest) ->
  exists hostName afterId,
    host = "https://" ++ hostName
    /\ s = "https://" ++ hostName ++ "/j/" ++ meetingId ++ afterId
    /\ hostName <> EmptyString /\ all notSlash hostName = true
    /\ meetingId <> EmptyString /\ all isDigit meetingId = true
    /\ stopsAt isDigit afterId = true
    /\ rest = fst (span notLineTerminator afterId).
Proof.
  unfold matchJoinAt. destruct (startsWith s "https://") eqn:Hs; [|discriminate].
  destruct (startsWith_split _ _ Hs) as [r ->].
  change (drop 8 ("https://" ++ r)) with r.
  destruct (span_spec notSlash r) as (Er & Hh & _).
  destruct (span notSlash r) as [hostName afterHost]. cbn [fst snd] in *.
  destruct (isEmpty hostName) eqn:Hne; [discriminate|].
  destruct (startsWith afterHost "/j/") eqn:Hj; [|discriminate].
  destruct (startsWith_split _ _ Hj) as [q ->].
  change (drop 3 ("/j/" ++ q)) with q.
  destruct (span_spec isDigit q) as (Eq & Hd & Hstop).
  destruct (span isDigit q) as [digits afterId]. cbn [fst snd] in *.
  destruct (isEmpty digits) eqn:Hde; [discriminate|].
  destruct (span notLineTerminator afterId) as [line rest'] eqn:Hl.
  intros [= <- <- <-]. exists hostName, afterId.
  repeat split; try assumption.
  - now rewrite Er, Eq.
  - intros ->. discriminate.
  - intros ->. discriminate.
  - now rewrite Hl.
Qed.

Lemma matchJoin_suffix (s host meetingId rest : string) :
  matchJoin s = Some (host, meetingId, rest) ->
  exists before s', s = before ++ s'
                    /\ matchJoinAt s' = Some (host, meetingId, rest).
Proof.
  induction s as [|c s IH]; cbn [matchJoin].
  - destruct (matchJoinAt EmptyString) eqn:E; [|discriminate].
    intros [= ->]. now exists EmptyString, EmptyString.
  - destruct (matchJoinAt (String c s)) eqn:E.
    + intros [= ->]. now exists EmptyString, (String c s).
    + intros H. destruct (IH H) as (before & s' & -> & Hm).
      now exists (String c before), s'.
Qed.

Lemma matchCodeAt_not_slash (c : ascii) (s : string) :
  notSlash c = true -> matchCodeAt (String c s) = None.
Proof.
  unfold notSlash, matchCodeAt. intros H. apply negb_true_iff in H.
  cbn [startsWith]. rewrite Ascii.eqb_sym in H. now rewrite H.
Qed.

(** No match begins inside a run without slash. *)
Lemma extractMeetingCode_skip (run tail : string) :
  all notSlash run = true ->
  extractMeetingCode (run ++ tail) = extractMeetingCode tail.
Proof.
  unfold all. induction run as [|c run IH]; [reflexivity|].
  cbn [list_ascii_of_string forallb append]. intros H.
  apply andb_true_iff in H as [Hc Hr].
  cbn [extractMeetingCode]. now rewrite (matchCodeAt_not_slash c _ Hc), IH.
Qed.

Lemma all_cons (f : ascii -> bool) (c : ascii) (s : string) :
  all f (String c s) = true -> f c = true /\ all f s = true.
Proof. unfold all. cbn [list_ascii_of_string forallb]. apply andb_true_iff. Qed.

Lemma notSlash_eqb (c : ascii) : notSlash c = true -> Ascii.eqb "/" c = false.
Proof.
  unfold notSlash. intros H. apply negb_true_iff in H.
  now rewrite Ascii.eqb_sym.
Qed.

(** Nor at the slash before a host name, whatever follows the name. *)
Lemma matchCodeAt_before_host (hostName mid tail : string) :
  hostName <> EmptyString -> all notSlash hostName = true ->
  mid = "/j/" \/ mid = "/wc/join/" ->
  matchCodeAt (String "/" (hostName ++ mid ++ tail)) = None.
Proof.
  intros Hne Hh Hmid.
  destruct hostName as [|c1 h1]; [now elim Hne|].
  apply all_cons in Hh as [_ Hh].
  unfold matchCodeAt. cbn [startsWith append].
  destruct (Ascii.eqb "j" c1) eqn:Ej.
  - apply Ascii.eqb_eq in Ej; subst c1. cbn [andb].
    destruct h1 as [|c2 h2].
    + destruct Hmid as [-> | ->]; reflexivity.
    + apply all_cons in Hh as [H2 _]. cbn [append startsWith].
      now rewrite (notSlash_eqb c2 H2).
  - cbn [andb]. destruct (Ascii.eqb "w" c1) eqn:Ew; [|reflexivity].
    cbn [andb]. destruct h1 as [|c2 h2].
    + destruct Hmid as [-> | ->]; reflexivity.
    + apply all_cons in Hh as [_ Hh]. cbn [append startsWith].
      destruct (Ascii.eqb "c" c2) eqn:Ec; [|reflexivity]. cbn [andb].
      destruct h2 as [|c3 h3].
      * destruct Hmid as [-> | ->]; reflexivity.
      * apply all_cons in Hh as [H3 _]. cbn [append startsWith].
        now rewrite (notSlash_eqb c3 H3).
Qed.

(** The code of a URL that begins with a host and one of the two paths. *)
Lemma extractMeetingCode_at_host (hostName mid code tail : string) :
  hostName <> EmptyString -> all notSlash hostName = true ->
  mid = "/j/" \/ mid = "/wc/join/" ->
  code <> EmptyString -> all isDigit code = true ->
  stopsAt isDigit tail = true ->
  extractMeetingCode ("https://" ++ hostName ++ mid ++ code ++ tail)
  = Some code.
Proof.
  intros Hne Hh Hmid Hc Hd Ht.
  change ("https://" ++ hostName ++ mid ++ code ++ tail)
    with (String "h" (String "t" (String "t" (String "p" (String "s"
           (String ":" (String "/" (String "/"
              (hostName ++ mid ++ code ++ tail))))))))).
  do 6 (cbn [extractMeetingCode];
        rewrite matchCodeAt_not_slash by reflexivity).
  cbn [extractMeetingCode].
  replace (matchCodeAt (String "/" (String "/" (hostName ++ mid ++ code ++ tail))))
    with (@None string) by reflexivity.
  rewrite (matchCodeAt_before_host hostName mid (code ++ tail) Hne Hh Hmid).
  rewrite (extractMeetingCode_skip hostName _ Hh).
  assert (G : matchCodeAt (mid ++ code ++ tail) = Some code).
  { destruct Hmid as [-> | ->]; unfold matchCodeAt.
    - change (startsWith ("/j/" ++ code ++ tail) "/j/") with true.
      change (drop 3 ("/j/" ++ code ++ tail)) with (code ++ tail).
      now apply digitsAt_prefix.
    - change (startsWith ("/wc/join/" ++ code ++ tail) "/j/") with false.
      change (startsWith ("/wc/join/" ++ code ++ tail) "/wc/join/") with true.
      change (drop 9 ("/wc/join/" ++ code ++ tail)) with (code ++ tail).
      now apply digitsAt_prefix. }
  destruct (mid ++ code ++ tail) eqn:E; cbn [extractMeetingCode];
    now rewrite G.
Qed.

Lemma normalizeUrl_of_match (url host meetingId rest : string) :
  includes url "/wc/join/" = false ->
  matchJoin url = Some (host, meetingId, rest) ->
  normalizeUrl url = host ++ "/wc/join/" ++ meetingId ++ rest.
Proof. intros Hwc Hm. unfold normalizeUrl. now rewrite Hwc, Hm. Qed.

(** X4. When [normalizeUrl] rewrites a Zoom link, the meeting code read
    from the address the browser is sent to is the meeting id of the
    link. *)
Theorem code_of_normalized_url (url host meetingId rest : string) :
  includes url "/wc/join/" = false ->
  matchJoin url = Some (host, meetingId, rest) ->
  normalizeUrl url = host ++ "/wc/join/" ++ meetingId ++ rest
  /\ extractMeetingCode (normalizeUrl url) = Some meetingId.
Proof.
  intros Hwc Hm. pose proof (normalizeUrl_of_match _ _ _ _ Hwc Hm) as Hn.
  split; [exact Hn|]. rewrite Hn.
  destruct (matchJoin_suffix _ _ _ _ Hm) as (before & s' & _ & Hat).
  destruct (matchJoinAt_shape _ _ _ _ Hat)
    as (hostName & afterId & -> & _ & Hne & Hh & Hc & Hd & Hstop & ->).
  rewrite app_assoc'.
  apply extractMeetingCode_at_host; try assumption; [now right|].
  now apply stopsAt_prefix.
Qed.

Lemma code_of_normalized_url_witness :
  extractMeetingCode (normalizeUrl "see https://us05web.zoom.us/j/123456789?pwd=abc123")
  = Some "123456789".
Proof.
  apply (code_of_normalized_url
           "see https://us05web.zoom.us/j/123456789?pwd=abc123"
           "https://us05web.zoom.us" "123456789" "?pwd=abc123");
    vm_compute; reflexivity.
Defined.

(** X5. For a link of the documented form, https, a host, /j/ and the
    digits of the meeting, the meeting code is those digits, and it is the
    same whether it is read from the link or from what [normalizeUrl]
    makes of it. *)
Theorem code_of_join_link (url host meetingId rest : string) :
  matchJoinAt url = Some (host, meetingId, rest) ->
  extractMeetingCode url = Some meetingId
  /\ extractMeetingCode (normalizeUrl url) = extractMeetingCode url.
Proof.
  intros Hat.
  destruct (matchJoinAt_shape _ _ _ _ Hat)
    as (hostName & afterId & Hhost & Hurl & Hne & Hh & Hc & Hd & Hstop & Hrest).
  assert (Hcode : extractMeetingCode url = Some meetingId).
  { rewrite Hurl. apply extractMeetingCode_at_host; try assumption. now left. }
  split; [exact Hcode|].
  destruct (includes url "/wc/join/") eqn:Hwc.
  - unfold normalizeUrl. now rewrite Hwc.
  - assert (Hm : matchJoin url = Some (host, meetingId, rest)).
    { destruct url; cbn [matchJoin]; now rewrite Hat. }
    rewrite Hcode. apply (code_of_normalized_url _ _ _ _ Hwc Hm).
Qed.

Lemma code_of_join_link_witness :
  extractMeetingCode Examples.zoomUrl = Some "123456789"
  /\ extractMeetingCode (normalizeUrl Examples.zoomUrl)
     = extractMeetingCode Examples.zoomUrl.
Proof.
  apply (code_of_join_link Examples.zoomUrl "https://zoom.us" "123456789"
           "?pwd=abc123").
  vm_compute. reflexivity.
Defined.

Lemma matchCodeAt_sound (s code : string) :
  matchCodeAt s = Some code ->
  code <> EmptyString /\ all isDigit code = true
  /\ (startsWith s ("/j/" ++ code) = true
      \/ startsWith s ("/wc/join/" ++ code) = true).
Proof.
  unfold matchCodeAt.
  destruct (startsWith s "/j/") eqn:Hj.
  - destruct (startsWith_split _ _ Hj) as [r ->].
    change (drop 3 ("/j/" ++ r)) with r. intros H.
    destruct (digitsAt_sound _ _ H) as (Hne & Hd & tail & ->).
    repeat split; try assumption. left.
    rewrite <- !app_assoc'. apply startsWith_refl_app.
  - destruct (startsWith s "/wc/join/") eqn:Hw; [|discriminate].
    destruct (startsWith_split _ _ Hw) as [r ->].
    change (drop 9 ("/wc/join/" ++ r)) with r. intros H.
    destruct (digitsAt_sound _ _ H) as (Hne & Hd & tail & ->).
    repeat split; try assumption. right.
    rewrite <- !app_assoc'. apply startsWith_refl_app.
Qed.

Lemma includes_cons (c : ascii) (s p : string) :
  includes s p = true -> includes (String c s) p = true.
Proof. intros H. cbn [includes]. rewrite H. apply orb_true_r. Qed.

Lemma includes_cons_false (c : ascii) (s p : string) :
  includes (String c s) p = false -> includes s p = false.
Proof. cbn [includes]. intros H. now apply orb_false_iff in H as [_ H]. Qed.

(** X6. A meeting code is never empty and holds digits only, and the URL
    contains /j/ or /wc/join/ followed by it; a URL with neither path has
    no code. *)
Theorem extractMeetingCode_sound (url : string) :
  (forall code, extractMeetingCode url = Some code ->
     code <> EmptyString /\ all isDigit code = true
     /\ (includes url ("/j/" ++ code) = true
         \/ includes url ("/wc/join/" ++ code) = true))
  /\ (includes url "/j/" = false -> includes url "/wc/join/" = false ->
      extractMeetingCode url = None).
Proof.
  split.
  - induction url as [|c url IH]; intros code; cbn [extractMeetingCode].
    + destruct (matchCodeAt EmptyString) eqn:E; [|discriminate].
      intros [= ->]. destruct (matchCodeAt_sound _ _ E) as (A & B & [C|C]);
        repeat split; auto using includes_startsWith.
    + destruct (matchCodeAt (String c url)) eqn:E.
      * intros [= ->]. destruct (matchCodeAt_sound _ _ E) as (A & B & [C|C]);
          repeat split; auto using includes_startsWith.
      * intros H. destruct (IH code H) as (A & B & [C|C]);
          repeat split; auto using includes_cons.
  - induction url as [|c url IH]; intros Hj Hw; [reflexivity|].
    cbn [extractMeetingCode].
    assert (E : matchCodeAt (String c url) = None).
    { unfold matchCodeAt. cbn [includes] in Hj, Hw.
      apply orb_false_iff in Hj as [-> _].
      now apply orb_false_iff in Hw as [-> _]. }
    rewrite E. apply IH; eauto using includes_cons_false.
Qed.

Lemma extractMeetingCode_sound_witness :
  extractMeetingCode "https://zoom.us/my/room" = None.
Proof.
  apply (extractMeetingCode_sound "https://zoom.us/my/room");
    vm_compute; reflexivity.
Defined.

End ZoomCodeFacts.

(* ================================================================== *)
(** ** formatDuration *)
(* ================================================================== *)

Module DurationFacts.
Import JsNumber Duration StringMore.

Lemma string_of_uint_digits (d : Decimal.uint) :
  digitsOnly (DecimalString.NilEmpty.string_of_uint d) = true.
Proof.
  unfold digitsOnly, Text.all.
  induction d; cbn [DecimalString.NilEmpty.string_of_uint
                      list_ascii_of_string forallb];
    [reflexivity|..]; now rewrite IHd.
Qed.

(** A number that is not negative prints as digits. *)
Lemma toString_digits (n : Z) : (0 <= n)%Z -> digitsOnly (toString n) = true.
Proof.
  intros H. unfold toString. destruct n as [|p|p]; [reflexivity| |lia].
  cbn [Z.to_int DecimalString.NilZero.string_of_int].
  unfold DecimalString.NilZero.string_of_uint.
  destruct (Pos.to_uint p) eqn:E; [reflexivity|..];
    rewrite <- E; apply string_of_uint_digits.
Qed.

Lemma toString_inj (a b : Z) : toString a = toString b -> a = b.
Proof.
  unfold toString. intros H.
  assert (G : forall n, DecimalString.NilZero.int_of_string
                          (DecimalString.NilZero.string_of_int (Z.to_int n))
                        = Some (Z.to_int n)).
  { intros n. apply DecimalString.NilZero.isi; destruct n as [|p|p];
      cbn [Z.to_int]; try discriminate;
      intros [= E]; revert E; apply DecimalPos.Unsigned.to_uint_nonnil. }
  apply DecimalZ.to_int_inj.
  pose proof (G a) as Ga. rewrite H, G in Ga. now injection Ga.
Qed.

Lemma pad2_below_60 (n : Z) : (0 <= n < 60)%Z -> pad2 n = twoDigits n.
Proof.
  intros H.
  assert (E : n = Z.of_nat (Z.to_nat n)) by lia.
  assert (B : (Z.to_nat n < 60)%nat) by lia.
  rewrite E. generalize dependent (Z.to_nat n). clear.
  intros k _ B.
  do 60 (destruct k as [|k]; [vm_compute; reflexivity|]). lia.
Qed.

Lemma twoDigits_inj (a b : Z) :
  (0 <= a < 60)%Z -> (0 <= b < 60)%Z -> twoDigits a = twoDigits b -> a = b.
Proof.
  intros Ha Hb H. unfold twoDigits in H. injection H as H1 H2.
  assert (N : forall x y, (x < 10)%nat -> (y < 10)%nat ->
                          ascii_of_nat (48 + x) = ascii_of_nat (48 + y) -> x = y).
  { intros x y Hx Hy E.
    assert (E' : nat_of_ascii (ascii_of_nat (48 + x))
                 = nat_of_ascii (ascii_of_nat (48 + y))) by now rewrite E.
    rewrite !nat_ascii_embedding in E' by lia. lia. }
  assert (A1 : (0 <= a / 10 < 10)%Z) by (split; [apply Z.div_pos; lia
                                               |apply Z.div_lt_upper_bound; lia]).
  assert (B1 : (0 <= b / 10 < 10)%Z) by (split; [apply Z.div_pos; lia
                                               |apply Z.div_lt_upper_bound; lia]).
  pose proof (Z.mod_pos_bound a 10 ltac:(lia)) as A2.
  pose proof (Z.mod_pos_bound b 10 ltac:(lia)) as B2.
  apply N in H1; [|lia|lia]. apply N in H2; [|lia|lia].
  rewrite (Z.div_mod a 10), (Z.div_mod b 10) by lia. lia.
Qed.

(** Two texts that begin with digits and a colon agree on the digits and
    on what follows the colon. *)
Lemma split_at_colon (a a' b b' : string) :
  digitsOnly a = true -> digitsOnly a' = true ->
  a ++ ":" ++ b = a' ++ ":" ++ b' -> a = a' /\ b = b'.
Proof.
  unfold digitsOnly, Text.all. revert a'.
  induction a as [|c a IH]; intros [|c' a'] Ha Ha' H; cbn [append] in H.
  - injection H as H. now split.
  - injection H as <- _. cbn in Ha'. discriminate.
  - injection H as -> _. cbn in Ha. discriminate.
  - injection H as <- H. cbn [list_ascii_of_string forallb] in Ha, Ha'.
    apply andb_true_iff in Ha as [_ Ha]. apply andb_true_iff in Ha' as [_ Ha'].
    destruct (IH a' Ha Ha' H) as [-> ->]. now split.
Qed.

Lemma app_length (a b : string) :
  String.length (a ++ b) = (String.length a + String.length b)%nat.
Proof. induction a as [|c a IH]; cbn; [reflexivity|now rewrite IH]. Qed.

Lemma app_inv_two (a a' b b' : string) :
  String.length a = String.length a' -> a ++ b = a' ++ b' -> a = a' /\ b = b'.
Proof.
  revert a'. induction a as [|c a IH]; intros [|c' a'] L H;
    cbn in L; try discriminate.
  - now split.
  - cbn [append] in H. injection H as <- H. injection L as L.
    destruct (IH a' L H) as [-> ->]. now split.
Qed.

(** The parts of a duration that is not negative. *)
Lemma parts_bounds (ms : Z) :
  (0 <= ms)%Z ->
  let totalSeconds := (ms / 1000)%Z in
  (0 <= totalSeconds / 3600)%Z
  /\ (0 <= Z.rem totalSeconds 3600 / 60 < 60)%Z
  /\ (0 <= Z.rem totalSeconds 60 < 60)%Z
  /\ totalSeconds
     = (3600 * (totalSeconds / 3600) + 60 * (Z.rem totalSeconds 3600 / 60)
        + Z.rem totalSeconds 60)%Z.
Proof.
  intros H T.
  assert (HT : (0 <= T)%Z) by (apply Z.div_pos; lia).
  rewrite !Z.rem_mod_nonneg by lia.
  repeat split; Z.div_mod_to_equations; lia.
Qed.

(** X7. Durations that are not negative are printed exactly to the
    second: two of them are printed alike only when they have the same
    number of whole seconds. *)
Theorem formatDuration_exact (a b : Z) :
  (0 <= a <= MAX_SAFE_INTEGER)%Z -> (0 <= b <= MAX_SAFE_INTEGER)%Z ->
  formatDuration a = formatDuration b -> (a / 1000 = b / 1000)%Z.
Proof.
  intros [Ha _] [Hb _]. unfold formatDuration.
  destruct (parts_bounds a Ha) as (Ah & Am & As & Ea).
  destruct (parts_bounds b Hb) as (Bh & Bm & Bs & Eb).
  cbv zeta in *.
  set (ha := (a / 1000 / 3600)%Z) in *.
  set (ma := (Z.rem (a / 1000) 3600 / 60)%Z) in *.
  set (sa := Z.rem (a / 1000) 60) in *.
  set (hb := (b / 1000 / 3600)%Z) in *.
  set (mb := (Z.rem (b / 1000) 3600 / 60)%Z) in *.
  set (sb := Z.rem (b / 1000) 60) in *.
  rewrite (pad2_below_60 ma Am), (pad2_below_60 sa As),
    (pad2_below_60 mb Bm), (pad2_below_60 sb Bs).
  destruct (0 <? ha)%Z eqn:Pa, (0 <? hb)%Z eqn:Pb; intros H.
  - apply split_at_colon in H as [H1 H2];
      [|now apply toString_digits|now apply toString_digits].
    apply toString_inj in H1.
    apply app_inv_two in H2 as [H2 H3]; [|reflexivity].
    apply twoDigits_inj in H2; [|assumption|assumption].
    cbn [append] in H3.
    assert (H4 : twoDigits sa = twoDigits sb) by congruence.
    apply twoDigits_inj in H4; [|assumption|assumption]. lia.
  - apply split_at_colon in H as [_ H2];
      [|now apply toString_digits|apply toString_digits; lia].
    assert (L : String.length (twoDigits ma ++ ":" ++ twoDigits sa)
                = String.length (twoDigits sb)) by now rewrite H2.
    rewrite app_length in L. cbn in L. discriminate.
  - apply split_at_colon in H as [_ H2];
      [|apply toString_digits; lia|now apply toString_digits].
    assert (L : String.length (twoDigits sa)
                = String.length (twoDigits mb ++ ":" ++ twoDigits sb))
      by now rewrite H2.
    rewrite app_length in L. cbn in L. discriminate.
  - apply split_at_colon in H as [H1 H2];
      [|apply toString_digits; lia|apply toString_digits; lia].
    apply toString_inj in H1.
    apply twoDigits_inj in H2; [|assumption|assumption].
    apply Z.ltb_ge in Pa, Pb. lia.
Qed.

Lemma formatDuration_exact_witness :
  (0 <= 3725999 <= MAX_SAFE_INTEGER)%Z /\ (0 <= 3725000 <= MAX_SAFE_INTEGER)%Z
  /\ formatDuration 3725999 = "1:02:05"
  /\ (3725999 / 1000 = 3725000 / 1000)%Z.
Proof.
  assert (A : (0 <= 3725999 <= MAX_SAFE_INTEGER)%Z)
    by (unfold MAX_SAFE_INTEGER; lia).
  assert (B : (0 <= 3725000 <= MAX_SAFE_INTEGER)%Z)
    by (unfold MAX_SAFE_INTEGER; lia).
  split; [exact A|]. split; [exact B|]. split; [vm_compute; reflexivity|].
  apply (formatDuration_exact 3725999 3725000 A B). vm_compute. reflexivity.
Defined.

(** X8. The shape of the text, for a duration that is not negative: below
    one hour the minutes, a colon and two digits of seconds; from one hour
    on the hours, a colon, two digits of minutes, a colon and two digits
    of seconds, with minutes and seconds below 60. *)
Theorem formatDuration_shape (ms : Z) :
  (0 <= ms <= MAX_SAFE_INTEGER)%Z ->
  exists h m s : Z,
    (ms / 1000 = 3600 * h + 60 * m + s)%Z
    /\ (0 <= h)%Z /\ (0 <= m < 60)%Z /\ (0 <= s < 60)%Z
    /\ formatDuration ms
       = if (0 <? h)%Z
         then toString h ++ ":" ++ twoDigits m ++ ":" ++ twoDigits s
         else toString m ++ ":" ++ twoDigits s.
Proof.
  intros [H _]. destruct (parts_bounds ms H) as (Ah & Am & As & E).
  cbv zeta in *.
  exists (ms / 1000 / 3600)%Z, (Z.rem (ms / 1000) 3600 / 60)%Z,
    (Z.rem (ms / 1000) 60).
  repeat split; try lia.
  unfold formatDuration.
  now rewrite (pad2_below_60 _ Am), (pad2_below_60 _ As).
Qed.

Lemma formatDuration_shape_witness :
  exists h m s : Z,
    (59999 / 1000 = 3600 * h + 60 * m + s)%Z
    /\ (0 <= h)%Z /\ (0 <= m < 60)%Z /\ (0 <= s < 60)%Z
    /\ formatDuration 59999
       = if (0 <? h)%Z
         then toString h ++ ":" ++ twoDigits m ++ ":" ++ twoDigits s
         else toString m ++ ":" ++ twoDigits s.
Proof.
  apply (formatDuration_shape 59999). unfold MAX_SAFE_INTEGER. lia.
Defined.

End DurationFacts.

(* ================================================================== *)
(** ** Rules for the assertions *)
(* ================================================================== *)

Module HoareFacts.
Import Proc Hoare.

Section Rules.
Context {W : Type}.
Implicit Types (R : W -> Prop) (G : Z -> W -> Prop) (w : W).

Lemma wp_ret {A} (a : A) (Q : A -> W -> Prop) R G w :
  Q a w -> wp (ret a) Q R G w.
Proof. exact (fun H => H). Qed.

Lemma wp_raise {A} (Q : A -> W -> Prop) R G w :
  R w -> wp (A:=A) raise Q R G w.
Proof. exact (fun H => H). Qed.

Lemma wp_exit {A} (code : Z) (Q : A -> W -> Prop) R G w :
  G code w -> wp (A:=A) (exit code) Q R G w.
Proof. exact (fun H => H). Qed.

Lemma wp_get (Q : W -> W -> Prop) R G w : Q w w -> wp get Q R G w.
Proof. exact (fun H => H). Qed.

Lemma wp_modify (f : W -> W) (Q : unit -> W -> Prop) R G w :
  Q tt (f w) -> wp (modify f) Q R G w.
Proof. exact (fun H => H). Qed.

Lemma wp_await {A} (r : result A) (Q : A -> W -> Prop) R G w :
  match r with Ok a => Q a w | Throws => R w end -> wp (await r) Q R G w.
Proof. now destruct r. Qed.

Lemma wp_bind {A B} (m : M W A) (k : A -> M W B) (Q : B -> W -> Prop) R G w :
  wp m (fun a w' => wp (k a) Q R G w') R G w -> wp (bind m k) Q R G w.
Proof. unfold wp, bind. now destruct (m w). Qed.

Lemma wp_tryCatch {A} (m handler : M W A) (Q : A -> W -> Prop) R G w :
  wp m Q (fun w' => wp handler Q R G w') G w -> wp (tryCatch m handler) Q R G w.
Proof. unfold wp, tryCatch. now destruct (m w). Qed.

(** Weaker assertions hold where stronger ones do. *)
Lemma wp_mono {A} (m : M W A) (Q Q' : A -> W -> Prop) R R' G G' w :
  wp m Q R G w ->
  (forall a w', Q a w' -> Q' a w') ->
  (forall w', R w' -> R' w') ->
  (forall code w', G code w' -> G' code w') ->
  wp m Q' R' G' w.
Proof. unfold wp. destruct (m w); auto. Qed.

(** What [wp] says of each way out. *)
Lemma wp_Ret {A} (m : M W A) (Q : A -> W -> Prop) R G w a w' :
  wp m Q R G w -> m w = Ret a w' -> Q a w'.
Proof.
  unfold wp. intros H E. destruct (m w); try discriminate E.
  now injection E as -> ->.
Qed.

Lemma wp_Exit {A} (m : M W A) (Q : A -> W -> Prop) R G w code w' :
  wp m Q R G w -> m w = Exit code w' -> G code w'.
Proof.
  unfold wp. intros H E. destruct (m w); try discriminate E.
  now injection E as -> ->.
Qed.

End Rules.

(** One step through a computation; [prim] opens the primitives of the
    model at hand. *)
Ltac wp_step prim :=
  lazymatch goal with
  | |- wp (bind _ _) _ _ _ _ => apply wp_bind
  | |- wp (tryCatch _ _) _ _ _ _ => apply wp_tryCatch
  | |- wp (ret _) _ _ _ _ => apply wp_ret
  | |- wp raise _ _ _ _ => apply wp_raise
  | |- wp (exit _) _ _ _ _ => apply wp_exit
  | |- wp get _ _ _ _ => apply wp_get
  | |- wp (modify _) _ _ _ _ => apply wp_modify
  | |- wp (await ?r) _ _ _ _ => apply wp_await; destruct r eqn:?
  | |- wp (if ?b then _ else _) _ _ _ _ => destruct b eqn:?
  | |- wp (match ?x with _ => _ end) _ _ _ _ => destruct x eqn:?
  | |- wp _ _ _ _ _ => prim
  end.

Ltac wp_walk prim := repeat (wp_step prim; cbv beta).

End HoareFacts.

(* ================================================================== *)
(** ** meeting-bot.js: how a run ends *)
(* ================================================================== *)

Module RunFacts.
Import JsString JsStringFacts StringMore Proc ProcFacts Hoare HoareFacts.
Import MeetingBot MeetingBotMore MeetingBotFacts.

Ltac bot_prim :=
  progress unfold call, processExit, update, updateFs, emit, pageEvaluate.

Ltac bot_walk :=
  repeat (wp_step bot_prim; cbv beta; cbn [bot fs trace]).

Section Session.
Variable s : Script.

(** [concludeSession] always ends the process with status 0, the bot as
    it was, the session record written at the session file, after closing
    the tab and asking for the metadata at most. *)
Lemma concludeSession_spec (transcript : option string) (w : World) :
  wp (concludeSession s transcript) never neverW
    (fun code w' =>
       code = 0%Z /\ bot w' = bot w
       /\ exists info evs,
            fs w' = Fs.writeFileSync (fs w) (sessionFile (bot w))
                      (Fs.Session info)
            /\ Fs.transcript info = transcript
            /\ Fs.audio info = option_map (fun _ => "audio.wav")
                                 (recordingPath (bot w))
            /\ trace w' = (trace w ++ evs)%list
            /\ Forall isConcludeEvent evs
            /\ In (WriteSession (sessionFile (bot w))) evs
            /\ (forall path,
                  recordingPath (bot w) = Some path ->
                  Fs.existsSync (fs w) (replace path ".wav" ".txt") = true ->
                  In (GenerateMetadata (replace path ".wav" ".txt")) evs))
    w.
Proof.
  unfold concludeSession, closeMeetingTab, generateMetadata, sessionFile.
  bot_walk.
  all: split; [reflexivity|]; split; [reflexivity|].
  all: eexists; eexists.
  all: split; [reflexivity|].
  all: split; [reflexivity|].
  all: split; [cbn [sessionInfo Fs.audio]; destruct (recordingPath (bot w));
               reflexivity|].
  all: split; [rewrite <- ?app_assoc; reflexivity|].
  all: split; [repeat constructor|].
  all: split; [cbn [app In]; tauto|].
  all: intros path Hp He;
    repeat match goal with
           | H : option_map _ _ = _ |- _ =>
               rewrite Hp in H; cbn [option_map] in H;
               first [discriminate H | injection H as <-]
           end;
    try congruence; cbn [app In]; tauto.
Qed.

(** The stage of [cleanup] between the recording and the record. *)
Lemma transcriptStage_returns (b : Bot) :
  returns (if skipTranscription s b
           then discardRecording ;; ret (@None string)
           else transcribe s).
Proof.
  destruct (skipTranscription s b).
  - apply returns_bind; [apply discardRecording_returns|].
    intros _. apply returns_ret.
  - apply transcribe_returns.
Qed.

(** [cleanup] in three stages. *)
Lemma cleanup_stages (w : World) :
  exists w1 transcript w2,
    stopRecording s (mkWorld (bot w) (fs w) (trace w ++ [Cleanup])%list)
    = Ret tt w1
    /\ (if skipTranscription s (bot w1)
        then discardRecording ;; ret (@None string)
        else transcribe s) w1 = Ret transcript w2
    /\ cleanup s w = concludeSession s transcript w2.
Proof.
  destruct (stopRecording_returns s
              (mkWorld (bot w) (fs w) (trace w ++ [Cleanup])%list))
    as ([] & w1 & E1).
  destruct (transcriptStage_returns (bot w1) w1) as (transcript & w2 & E2).
  exists w1, transcript, w2. split; [exact E1|]. split; [exact E2|].
  unfold cleanup. cbv [bind emit modify]. rewrite E1.
  unfold finishSession. unfold bind at 1. unfold get. cbv beta iota.
  unfold bind at 1. now rewrite E2.
Qed.

(** [cleanup], from any state: the process ends with status 0, the session
    record is written, the fields of the bot that are not about the
    recording are as they were, and nothing is unlinked unless the bot left
    an empty meeting. *)
Lemma cleanup_spec (w : World) :
  wp (cleanup s) never neverW
    (fun code w' =>
       code = 0%Z /\ finished w' /\ sameSession w w'
       /\ (leftDueToEmptyTimeout (bot w) = false ->
           emitted (fun e => ~ isUnlink e) w w'))
    w.
Proof.
  destruct (cleanup_stages w) as (w1 & transcript & w2 & E1 & E2 & E3).
  pose proof (concludeSession_spec transcript w2) as C.
  pose proof (cleanup_session s w) as S.
  destruct (cleanup_trace s w) as (evs' & T & _).
  unfold wp in *. rewrite E3 in *.
  destruct (concludeSession s transcript w2) as [? ?|?|code w'|?];
    try contradiction; [|exact I].
  destruct C as (-> & Hb & info & evs & Hfs & _ & _ & Ht & Hev & Hin & _).
  cbn [final] in S, T.
  split; [reflexivity|]. split; [|split; [exact S|]].
  - split.
    + rewrite T. apply in_or_app. right. now left.
    + exists (sessionFile (bot w2)), info. split.
      * rewrite Ht. apply in_or_app. now right.
      * rewrite Hfs. unfold Fs.writeFileSync. now rewrite String.eqb_refl.
  - intros Hleft.
    set (w0 := mkWorld (bot w) (fs w) (trace w ++ [Cleanup])%list) in *.
    assert (H0 : emitted (fun e => ~ isUnlink e) w w0).
    { exists [Cleanup]. split; [reflexivity|]. repeat constructor. now intros H. }
    pose proof (stopRecording_emitted s (fun e => ~ isUnlink e)
                  (fun H => H) w0) as T1.
    pose proof (stopRecording_session s w0) as S1.
    rewrite E1 in T1, S1. cbn [final] in T1, S1.
    assert (Hl1 : leftDueToEmptyTimeout (bot w1) = false).
    { unfold sameSession in S1. rewrite S1. subst w0. cbn.
      destruct (bot w); exact Hleft. }
    assert (Hskip : skipTranscription s (bot w1) = false).
    { unfold skipTranscription. now rewrite Hl1. }
    rewrite Hskip in E2.
    pose proof (transcribe_emitted s (fun e => ~ isUnlink e)
                  (fun path H => H) w1) as T2.
    rewrite E2 in T2. cbn [final] in T2.
    eapply emitted_trans; [exact H0|].
    eapply emitted_trans; [exact T1|].
    eapply emitted_trans; [exact T2|].
    exists evs. split; [exact Ht|].
    eapply Forall_impl; [|exact Hev]. intros [] H; try contradiction;
      now intros H'.
Qed.

(** The same for any assertion on returning or throwing, which [cleanup]
    never does. *)
Lemma cleanup_wp (Q : unit -> World -> Prop) (R : World -> Prop)
  (G : Z -> World -> Prop) (w : World) :
  (forall w', finished w' -> sameSession w w' ->
              (leftDueToEmptyTimeout (bot w) = false ->
               emitted (fun e => ~ isUnlink e) w w') ->
              G 0%Z w') ->
  wp (cleanup s) Q R G w.
Proof.
  intros H. eapply wp_mono; [apply cleanup_spec| | |].
  - intros a w' [].
  - intros w' [].
  - intros code w' (-> & F & S & U). now apply H.
Qed.

(** *** The run as a whole *)

Lemma quiet_cleanup (w w' : World) :
  quiet w -> sameSession w w' ->
  (leftDueToEmptyTimeout (bot w) = false ->
   emitted (fun e => ~ isUnlink e) w w') ->
  quiet w'.
Proof.
  intros (Hl & He & Ht) S U. destruct (U Hl) as (evs & E & F).
  unfold sameSession in S. unfold quiet. rewrite S, E. cbn.
  repeat split.
  - now destruct (bot w).
  - now destruct (bot w).
  - apply Forall_app. now split.
Qed.

Lemma endsWell_cleanup (url : string) (w : World)
  (Q : unit -> World -> Prop) (R : World -> Prop) :
  (beyondMeet url -> quiet w) ->
  wp (cleanup s) Q R (endsWell url) w.
Proof.
  intros H. apply cleanup_wp. intros w' F S U.
  split; [reflexivity|]. split; [exact F|].
  intros Hu. now apply (quiet_cleanup w w' (H Hu)).
Qed.

Lemma resolve_counts (url : string) (a : Adapter) :
  Platforms.resolvePlatform url = Ok a -> beyondMeet url -> countsUnknown a.
Proof.
  unfold Platforms.resolvePlatform, beyondMeet.
  destruct (Platforms.detectPlatform url) as [[]|]; intros [= <-] H page;
    try reflexivity. now elim H.
Qed.

Ltac run_prim :=
  first [ apply endsWell_cleanup | bot_prim ].

Ltac run_walk :=
  repeat (wp_step run_prim; cbv beta; cbn [bot fs trace]).

(** The trace grew by calls that unlink nothing. *)
Ltac no_unlink :=
  repeat (apply Forall_app; split); try assumption;
  repeat constructor; try (intros []; fail).

(** [quiet] of a world built from one that is. *)
Ltac quiet_leaf H :=
  let Hu := fresh "Hu" in
  intros Hu; destruct (H Hu) as (? & ? & ?);
  unfold quiet; cbn; repeat split; try assumption; no_unlink.

Lemma joinMeeting_spec (url : string) (w : World) :
  (beyondMeet url -> quiet w) ->
  wp (joinMeeting s url) (fun _ w' => monitoringInv url w')
    (fun w' => beyondMeet url -> quiet w') (endsWell url) w.
Proof.
  intros H. unfold joinMeeting, confirmJoin, routeAudio.
  run_walk.
  all: try (quiet_leaf H; fail).
  all: split; [reflexivity|].
  all: intros Hu; split; [revert Hu; quiet_leaf H|].
  all: unfold unknownCounts; cbn; intros a' [= <-];
    eapply resolve_counts; eassumption.
Qed.

Lemma betweenTicks_inv (url : string) (t : Tick) (w : World) :
  monitoringInv url w ->
  wp (betweenTicks t) (fun _ w' => monitoringInv url w') neverW never w.
Proof.
  intros (Hin & Hq). destruct (betweenTicks_spec t w) as (w1 & E & Hb & Ht & _).
  unfold wp. rewrite E. unfold monitoringInv, quiet, unknownCounts in *.
  now rewrite Hb, Ht.
Qed.

(** Past Google Meet the participant count reads -1: the branches for a
    count of 0 and for a positive count are not taken. *)
Ltac count_unknown Hinv :=
  match goal with
  | Hu : beyondMeet _, Ha : adapter _ = Some ?a,
    Hc : getParticipantCount ?a ?p = Ok ?z |- _ =>
      let K := fresh "K" in
      pose proof (proj2 (proj2 Hinv Hu) a Ha p) as K;
      rewrite K in Hc; injection Hc as <-; discriminate
  end.

Lemma monitorTick_spec (url : string) (t : Tick) (w : World) :
  monitoringInv url w ->
  wp (monitorTick s t)
    (fun ctl w' => ctl = Continue /\ monitoringInv url w')
    (fun w' => beyondMeet url -> quiet w') (endsWell url) w.
Proof.
  intros Hinv. unfold monitorTick, checkEmptyTimeout, onEmpty, onOccupied.
  run_walk.
  all: try (split; [reflexivity|]; split; [exact (proj1 Hinv)|]).
  all: intros Hu; try (exfalso; count_unknown Hinv; fail).
  all: try split.
  all: try (revert Hu; quiet_leaf (fun Hu => proj1 (proj2 Hinv Hu)); fail).
  all: exact (proj2 (proj2 Hinv Hu)).
Qed.

Lemma monitorLoop_spec (url : string) (pending : list Tick) (w : World) :
  monitoringInv url w ->
  wp (monitorLoop s pending) never
    (fun w' => beyondMeet url -> quiet w') (endsWell url) w.
Proof.
  revert w. induction pending as [|t rest IH]; intros w Hinv.
  - unfold wp. cbn [monitorLoop]. now rewrite (proj1 Hinv).
  - assert (E : monitorLoop s (t :: rest) w
                = (betweenTicks t ;;
                   ctl <- monitorTick s t ;;
                   match ctl with
                   | Break => ret tt
                   | Continue => monitorLoop s rest
                   end) w).
    { cbn [monitorLoop]. now rewrite (proj1 Hinv). }
    unfold wp at 1. rewrite E. fold (wp (betweenTicks t ;;
                   ctl <- monitorTick s t ;;
                   match ctl with
                   | Break => ret tt
                   | Continue => monitorLoop s rest
                   end) never
    (fun w' => beyondMeet url -> quiet w') (endsWell url) w).
    apply wp_bind.
    eapply wp_mono; [apply (betweenTicks_inv url t w Hinv)| |intros ? []|intros ? ? []].
    intros [] w1 H1. cbv beta. apply wp_bind.
    eapply wp_mono; [apply (monitorTick_spec url t w1 H1)| |auto|auto].
    intros ctl w2 [-> H2]. cbv beta. now apply IH.
Qed.

Lemma session_spec (url name : string) (w : World) :
  quiet w ->
  wp (session s url name) never
    (fun w' => beyondMeet url -> quiet w') (endsWell url) w.
Proof.
  intros Hq. unfold session, init, setupAudio, startRecording.
  run_walk.
  all: try (quiet_leaf (fun _ : beyondMeet url => Hq); fail).
  eapply wp_mono; [apply joinMeeting_spec| |auto|auto].
  - quiet_leaf (fun _ : beyondMeet url => Hq).
  - intros [] w1 H1. cbv beta. unfold monitorMeeting.
    apply wp_bind. unfold emit. apply wp_modify.
    apply monitorLoop_spec. destruct H1 as [Hin Hrest].
    split; [exact Hin|]. intros Hu. destruct (Hrest Hu) as [Hq1 Hc1].
    split; [|exact Hc1]. revert Hu. quiet_leaf (fun _ : beyondMeet url => Hq1).
Qed.

(** [run] never returns and never throws; if it ends the process, it does
    so with status 0, after [cleanup] wrote the session record. *)
Lemma run_spec (url name : string) (w : World) :
  quiet w -> wp (run s url name) never neverW (endsWell url) w.
Proof.
  intros Hq. unfold run. apply wp_tryCatch.
  eapply wp_mono; [apply (session_spec url name w Hq)|auto| |auto].
  intros w' H. cbv beta. now apply endsWell_cleanup.
Qed.

End Session.


(** *** What cleanup leaves on disk *)

Lemma replace_absent (s0 pat rep : string) :
  includes s0 pat = false -> replace s0 pat rep = s0.
Proof.
  induction s0 as [|c s0 IH]; cbn [includes replace]; intros H.
  - apply orb_false_iff in H as [-> _]. reflexivity.
  - apply orb_false_iff in H as [-> H]. now rewrite (IH H).
Qed.

Lemma includes_suffix_false (s0 a b : string) :
  includes s0 b = false -> includes s0 (a ++ b) = false.
Proof.
  intros H. destruct (includes s0 (a ++ b)) eqn:E; [|reflexivity].
  now rewrite (includes_suffix _ _ _ E) in H.
Qed.

Lemma existsSync_write (files : Fs.t) (path q : string) (f : Fs.File) :
  Fs.existsSync files q = true ->
  Fs.existsSync (Fs.writeFileSync files path f) q = true.
Proof.
  unfold Fs.existsSync, Fs.writeFileSync. now destruct (String.eqb q path).
Qed.

(** [transcribe] leaves the bot as it was and removes no file; with a
    recording path it calls the transcription once, without one it does
    nothing. *)
Lemma transcribe_spec (s : Script) (w : World) :
  wp (transcribe s)
    (fun transcript w' =>
       bot w' = bot w
       /\ (forall q, Fs.existsSync (fs w) q = true ->
                     Fs.existsSync (fs w') q = true)
       /\ match recordingPath (bot w) with
          | Some p => trace w' = (trace w ++ [Transcribe p])%list
          | None => w' = w /\ transcript = None
          end)
    neverW never w.
Proof.
  unfold transcribe. bot_walk.
  all: split; [reflexivity|].
  all: split; [intros q Hq; auto using existsSync_write|].
  all: try reflexivity.
  all: now split.
Qed.

Lemma skipTranscription_sameSession (s : Script) (w w' : World) :
  sameSession w w' ->
  skipTranscription s (bot w') = skipTranscription s (bot w).
Proof.
  unfold sameSession, skipTranscription. intros ->. cbn.
  now destruct (bot w).
Qed.

(** X11. The session record takes the place of the recording.  The bot
    records to audio.webm, and [cleanup] forms the names of the transcript
    and of the session file by replacing .wav and audio.wav in the
    recording path: with a path that holds no .wav both names are the
    recording path itself.  So when the recording is on disk and is
    transcribed, the metadata generator is run on the recording, the
    session record is written over it, and the record names audio.wav as
    the audio file. *)
Theorem session_record_replaces_recording (s : Script) (p : string)
  (w : World) :
  recordingOnDisk p w ->
  includes p ".wav" = false ->
  skipTranscription s (bot w) = false ->
  exists w' info,
    cleanup s w = Exit 0 w'
    /\ fs w' p = Some (Fs.Session info)
    /\ Fs.audio info = Some "audio.wav"
    /\ In (Transcribe p) (trace w')
    /\ In (GenerateMetadata p) (trace w')
    /\ In (WriteSession p) (trace w').
Proof.
  intros [Hat Hdisk] Hwav Hskip.
  destruct (cleanup_stages s w) as (w1 & transcript & w2 & E1 & E2 & E3).
  set (w0 := mkWorld (bot w) (fs w) (trace w ++ [Cleanup])%list) in *.
  destruct (stopRecording_recording s p w0 Hat) as (w1' & E1' & _ & _ & Hk).
  rewrite E1 in E1'. injection E1' as <-.
  destruct (Hk Hdisk) as [Hp1 He1].
  pose proof (stopRecording_session s w0) as S1.
  rewrite E1 in S1. cbn [final] in S1.
  rewrite (skipTranscription_sameSession s w0 w1 S1) in E2.
  change (bot w0) with (bot w) in E2. rewrite Hskip in E2.
  pose proof (transcribe_spec s w1) as T. unfold wp in T. rewrite E2 in T.
  destruct T as (Hb2 & Hkeep & Ht2). rewrite Hp1 in Ht2.
  pose proof (concludeSession_spec s transcript w2) as C. unfold wp in C.
  rewrite <- E3 in C.
  destruct (cleanup s w) as [? ?|?|code w'|?]; try contradiction.
  - assert (Hp2 : recordingPath (bot w2) = Some p) by now rewrite Hb2.
    assert (Hsf : sessionFile (bot w2) = p).
    { unfold sessionFile. rewrite Hp2. apply replace_absent.
      now apply (includes_suffix_false p "audio" ".wav"). }
    assert (Htxt : replace p ".wav" ".txt" = p) by now apply replace_absent.
    destruct C as (-> & Hb & info & evs & Hfs & _ & Ha & Ht & _ & Hin & Hmd).
    rewrite Hsf in *. exists w', info. split; [reflexivity|].
    split; [rewrite Hfs; unfold Fs.writeFileSync; now rewrite String.eqb_refl|].
    split; [now rewrite Ha, Hp2|].
    specialize (Hmd p Hp2). rewrite Htxt in Hmd.
    specialize (Hmd (Hkeep p He1)).
    rewrite Ht, Ht2. repeat split.
    + apply in_or_app. left. apply in_or_app. right. now left.
    + apply in_or_app. now right.
    + apply in_or_app. now right.
  - destruct (cleanup_exits s w) as (w' & E).
    destruct (concludeSession_exits s transcript w2) as (w'' & E').
    congruence.
Qed.

Lemma session_record_replaces_recording_witness :
  exists w' info,
    cleanup (Examples.script not_waiting true [])
      (Examples.monitoring (Platforms.adapterOf GoogleMeet)) = Exit 0 w'
    /\ fs w' Examples.recording = Some (Fs.Session info)
    /\ Fs.audio info = Some "audio.wav".
Proof.
  destruct (session_record_replaces_recording
              (Examples.script not_waiting true []) Examples.recording
              (Examples.monitoring (Platforms.adapterOf GoogleMeet)))
    as (w' & info & E & F & A & _).
  - split; [split|]; [reflexivity| |reflexivity].
    intros bytes. vm_compute. intros [= <-]. reflexivity.
  - vm_compute. reflexivity.
  - vm_compute. reflexivity.
  - now exists w', info.
Defined.

(** [stopRecording] when nothing was recorded: the recording path is
    forgotten. *)
Lemma stopRecording_silent (s : Script) (p : string) (w : World) :
  recordingPath (bot w) = Some p ->
  endsWith p ".webm" = true ->
  fs w p = None ->
  attached (bot w) = false \/ finalChunks s = Throws \/ finalChunks s = Ok [] ->
  stopRecording s w
  = Ret tt (mkWorld (set_recordingPath None
                       (set_audioSaveInterval false (bot w)))
              (fs w) (trace w ++ [StopRecording])%list).
Proof.
  intros Hp Hw Hf Hc.
  assert (E : collectFinalChunks s
                (mkWorld (set_audioSaveInterval false (bot w)) (fs w)
                   (trace w ++ [StopRecording])%list)
              = Ret tt (mkWorld (set_audioSaveInterval false (bot w)) (fs w)
                          (trace w ++ [StopRecording])%list)).
  { unfold collectFinalChunks, pageEvaluate, saveChunks.
    cbv [tryCatch bind get await ret raise].
    cbn [bot attached set_audioSaveInterval].
    destruct (attached (bot w)); [|reflexivity].
    destruct Hc as [Hc|[Hc|Hc]]; [discriminate|now rewrite Hc|now rewrite Hc]. }
  unfold stopRecording. cbv [bind emit update modify].
  cbn [bot fs trace]. rewrite E.
  unfold checkRecordingFile. cbv [bind get update modify ret].
  cbn [bot fs trace recordingPath set_audioSaveInterval].
  now rewrite Hp, Hw, Hf.
Qed.

(** X12. A session without audio leaves its record in /tmp.  When no
    chunk of audio has reached the disk and none is left in the page (or
    the page cannot be asked), [cleanup] forgets the recording path,
    transcribes nothing and writes the session record to
    /tmp/last-meeting-session.json, with no audio file and no transcript
    in it. *)
Theorem silent_session_is_recorded_in_tmp (s : Script) (p : string)
  (w : World) :
  recordingPath (bot w) = Some p ->
  endsWith p ".webm" = true ->
  fs w p = None ->
  attached (bot w) = false \/ finalChunks s = Throws \/ finalChunks s = Ok [] ->
  exists w' info evs,
    cleanup s w = Exit 0 w'
    /\ recordingPath (bot w') = None
    /\ fs w' "/tmp/last-meeting-session.json" = Some (Fs.Session info)
    /\ Fs.audio info = None /\ Fs.transcript info = None
    /\ trace w' = (trace w ++ Cleanup :: StopRecording :: evs)%list
    /\ Forall isConcludeEvent evs
    /\ In (WriteSession "/tmp/last-meeting-session.json") evs.
Proof.
  intros Hp Hw Hf Hc.
  destruct (cleanup_stages s w) as (w1 & transcript & w2 & E1 & E2 & E3).
  rewrite (stopRecording_silent s p
             (mkWorld (bot w) (fs w) (trace w ++ [Cleanup])%list)
             Hp Hw Hf Hc) in E1.
  injection E1 as <-. cbn [bot fs trace] in E2.
  assert (E2' : transcript = None /\ w2
                = mkWorld (set_recordingPath None
                             (set_audioSaveInterval false (bot w)))
                    (fs w) ((trace w ++ [Cleanup]) ++ [StopRecording])%list).
  { revert E2.
    destruct (skipTranscription s _);
      unfold discardRecording, transcribe; cbv [bind get ret];
      cbn [bot recordingPath set_recordingPath]; now intros [= <- <-]. }
  destruct E2' as [-> ->].
  pose proof (concludeSession_spec s None
                (mkWorld (set_recordingPath None
                            (set_audioSaveInterval false (bot w)))
                   (fs w) ((trace w ++ [Cleanup]) ++ [StopRecording])%list))
    as C.
  unfold wp in C. rewrite <- E3 in C.
  destruct (cleanup s w) as [? ?|?|code w'|?]; try contradiction.
  - destruct C as (-> & Hb & info & evs & Hfs & Htr & Ha & Ht & Hev & Hin & _).
    unfold sessionFile in *. cbn [bot fs trace recordingPath set_recordingPath]
      in *.
    exists w', info, evs. split; [reflexivity|].
    split; [now rewrite Hb|].
    split; [rewrite Hfs; unfold Fs.writeFileSync; now rewrite String.eqb_refl|].
    split; [exact Ha|]. split; [exact Htr|].
    split; [rewrite Ht; now rewrite <- !app_assoc|].
    now split.
  - destruct (concludeSession_exits s None
                (mkWorld (set_recordingPath None
                            (set_audioSaveInterval false (bot w)))
                   (fs w) ((trace w ++ [Cleanup]) ++ [StopRecording])%list))
      as (w' & E).
    congruence.
Qed.

Lemma silent_session_is_recorded_in_tmp_witness :
  exists w' info evs,
    cleanup Examples.stuckScript
      (mkWorld (set_recordingPath (Some Examples.recording) constructor)
         Fs.empty [ConnectChrome])
    = Exit 0 w'
    /\ recordingPath (bot w') = None
    /\ fs w' "/tmp/last-meeting-session.json" = Some (Fs.Session info)
    /\ Fs.audio info = None /\ Fs.transcript info = None
    /\ trace w' = ([ConnectChrome] ++ Cleanup :: StopRecording :: evs)%list
    /\ Forall isConcludeEvent evs
    /\ In (WriteSession "/tmp/last-meeting-session.json") evs.
Proof.
  apply (silent_session_is_recorded_in_tmp Examples.stuckScript
           Examples.recording).
  - reflexivity.
  - vm_compute. reflexivity.
  - reflexivity.
  - left. reflexivity.
Defined.

(** X9. Every run of the bot that ends has gone through cleanup, written
    its session record and ended the process with status 0; a run that has
    not ended is still polling the meeting.  [run] never returns, never
    throws and never ends the process with another status, whatever the
    browser and the external programs answer. *)
Theorem run_ends_in_cleanup (s : Script) (url name : string) (files : Fs.t) :
  (exists w, run s url name (start files) = Exit 0 w
             /\ In Cleanup (trace w) /\ sessionWritten w)
  \/ (exists w, run s url name (start files) = Waiting w).
Proof.
  assert (Hq : quiet (start files)).
  { repeat split. constructor. }
  pose proof (run_spec s url name (start files) Hq) as H. unfold wp in H.
  destruct (run s url name (start files)) as [? ?|?|code w|w];
    try contradiction.
  - destruct H as (-> & (Hc & Hs) & _). left. now exists w.
  - right. now exists w.
Qed.

(** X10. Past Google Meet the bot never leaves a meeting because it is
    empty: the Zoom adapter (and the WhatsApp one) keep the default
    [getParticipantCount], which answers -1 on every page, so the timer of
    the empty meeting is never started, the bot never marks the session as
    left empty and no recording is unlinked. *)
Theorem no_empty_timeout_past_google_meet (s : Script) (url name : string)
  (files : Fs.t) (code : Z) (w : World) :
  Platforms.detectPlatform url <> Some GoogleMeet ->
  run s url name (start files) = Exit code w ->
  countsUnknown (Platforms.adapterOf Zoom)
  /\ leftDueToEmptyTimeout (bot w) = false
  /\ emptyMeetingSince (bot w) = None
  /\ (forall path, ~ In (Unlink path) (trace w)).
Proof.
  intros Hu E. split; [intros page; reflexivity|].
  assert (Hq : quiet (start files)).
  { repeat split. constructor. }
  pose proof (run_spec s url name (start files) Hq) as H.
  destruct (wp_Exit _ _ _ _ _ _ _ H E) as (_ & _ & K).
  destruct (K Hu) as (Hl & He & Ht).
  repeat split; try assumption.
  intros path Hin. rewrite Forall_forall in Ht. exact (Ht _ Hin I).
Qed.

Lemma no_empty_timeout_past_google_meet_witness :
  exists w,
    run MoreExamples.zoomScript Examples.zoomUrl "weekly-sync" (start Fs.empty)
    = Exit 0 w
    /\ leftDueToEmptyTimeout (bot w) = false
    /\ In (Transcribe Examples.recording) (trace w).
Proof.
  exists (final (run MoreExamples.zoomScript Examples.zoomUrl "weekly-sync"
                   (start Fs.empty))).
  assert (E : run MoreExamples.zoomScript Examples.zoomUrl "weekly-sync"
                (start Fs.empty)
              = Exit 0 (final (run MoreExamples.zoomScript Examples.zoomUrl
                                 "weekly-sync" (start Fs.empty)))).
  { vm_compute. reflexivity. }
  split; [exact E|]. split.
  - apply (no_empty_timeout_past_google_meet MoreExamples.zoomScript
             Examples.zoomUrl "weekly-sync" Fs.empty 0 _).
    + vm_compute. discriminate.
    + exact E.
  - vm_compute. tauto.
Defined.

End RunFacts.

(* ================================================================== *)
(** ** More on the adapters' probes *)
(* ================================================================== *)

Module ProbeFacts.
Import JsString BasePlatform.

Lemma containsAny_app (text : string) (xs ys : list string) :
  containsAny text xs = true -> containsAny text (xs ++ ys) = true.
Proof.
  unfold containsAny. intros H. rewrite existsb_app, H. reflexivity.
Qed.

Lemma pageContainsAny_app (page : Page) (xs ys : list string) :
  _pageContainsAny page xs = true -> _pageContainsAny page (xs ++ ys) = true.
Proof.
  unfold _pageContainsAny. destruct (content page); [|discriminate].
  apply containsAny_app.
Qed.

(** X13. Confirming the bot's presence never hides the end of a meeting:
    on every adapter, a page that reads as ended before the bot was ever
    seen in the meeting reads as ended after, too. *)
Theorem end_seen_before_joining_is_seen_after (a : Platform) (page : Page) :
  Platforms.checkMeetingEnded a page false = Ok true ->
  Platforms.checkMeetingEnded a page true = Ok true.
Proof.
  destruct a; cbn [Platforms.checkMeetingEnded].
  - unfold GoogleMeetPlatform.checkMeetingEnded,
      GoogleMeetPlatform.afterJoinPageCheck, GoogleMeetPlatform.redirectCheck.
    cbn [negb andb].
    destruct (query page _) as [[]|]; try discriminate.
    destruct (_pageContainsAny page (GoogleMeetPlatform.endIndicators false))
      eqn:E.
    + intros _. unfold GoogleMeetPlatform.endIndicators in *.
      rewrite app_nil_r in E. now rewrite (pageContainsAny_app _ _ _ E).
    + now destruct (url page).
  - unfold ZoomPlatform.checkMeetingEnded.
    destruct (_pageContainsAny page ZoomPlatform.endIndicators);
      [reflexivity|].
    cbn [andb]. now destruct (url page).
  - unfold WhatsAppCall.checkMeetingEnded, WhatsAppCall.checkCallEnded.
    now destruct (evaluate page).
Qed.

Lemma end_seen_before_joining_is_seen_after_witness :
  Platforms.checkMeetingEnded Zoom MoreExamples.zoomEndedPage true = Ok true.
Proof.
  apply (end_seen_before_joining_is_seen_after Zoom MoreExamples.zoomEndedPage).
  vm_compute. reflexivity.
Defined.

(** X14. Which end probe can throw.  Those of Zoom and WhatsApp never do,
    whatever the page does.  That of Google Meet throws in one case only:
    the bot has not been seen in the meeting and looking for the Join now
    button throws; its other calls on the page are caught. *)
Theorem end_probe_exceptions (page : Page) (hasJoinedBefore : bool) :
  Platforms.checkMeetingEnded Zoom page hasJoinedBefore <> Throws
  /\ Platforms.checkMeetingEnded WhatsApp page hasJoinedBefore <> Throws
  /\ (Platforms.checkMeetingEnded GoogleMeet page hasJoinedBefore = Throws
      <-> hasJoinedBefore = false
          /\ queryAll page (quoted "[aria-label=" "Join now" "]") = Throws).
Proof.
  cbn [Platforms.checkMeetingEnded]. repeat split.
  - unfold ZoomPlatform.checkMeetingEnded.
    repeat match goal with
           | |- (if ?b then _ else _) <> _ => destruct b; try discriminate
           end.
  - unfold WhatsAppCall.checkMeetingEnded, WhatsAppCall.checkCallEnded.
    destruct (evaluate page) as [dom|];
      [destruct (WhatsAppCall.endedInPage dom)|destruct hasJoinedBefore];
      discriminate.
  - revert H. unfold GoogleMeetPlatform.checkMeetingEnded,
      GoogleMeetPlatform.afterJoinPageCheck.
    destruct hasJoinedBefore; [|reflexivity]. cbn [negb].
    repeat match goal with
           | |- (if ?b then _ else _) = _ -> _ => destruct b; try discriminate
           end.
  - revert H. unfold GoogleMeetPlatform.checkMeetingEnded,
      GoogleMeetPlatform.afterJoinPageCheck, query.
    destruct hasJoinedBefore; cbn [negb].
    + repeat match goal with
             | |- (if ?b then _ else _) = _ -> _ => destruct b; try discriminate
             end.
    + destruct (queryAll page _) as [n|]; [|reflexivity].
      destruct (0 <? n)%nat; try discriminate.
      repeat match goal with
             | |- (if ?b then _ else _) = _ -> _ => destruct b; try discriminate
             end.
  - intros [-> H]. unfold GoogleMeetPlatform.checkMeetingEnded, query.
    cbn [negb]. now rewrite H.
Qed.

Lemma maxElements_ge (page : Page) (selectors : list string) (m : nat) :
  (m <= GoogleMeetPlatform.maxElements page selectors m)%nat.
Proof.
  revert m. induction selectors as [|sel rest IH]; intros m; cbn; [lia|].
  destruct (queryAll page sel) as [n|]; [|apply IH].
  specialize (IH (Nat.max m n)). lia.
Qed.

(** The largest count one of the selectors finds; a selector that throws
    is passed over. *)
Lemma maxElements_zero (page : Page) (selectors : list string) :
  GoogleMeetPlatform.maxElements page selectors 0 = 0%nat
  <-> forall sel, In sel selectors ->
                  queryAll page sel = Ok 0%nat \/ queryAll page sel = Throws.
Proof.
  induction selectors as [|sel rest IH]; cbn [GoogleMeetPlatform.maxElements].
  - split; [intros _ sel []|reflexivity].
  - destruct (queryAll page sel) as [n|] eqn:E.
    + destruct n as [|n].
      * cbn [Nat.max]. rewrite IH. split.
        -- intros H x [<-|Hx]; [now left|now apply H].
        -- intros H x Hx. apply H. now right.
      * cbn [Nat.max]. split.
        -- intros H. pose proof (maxElements_ge page rest (S n)). lia.
        -- intros H. destruct (H sel (or_introl eq_refl)) as [K|K];
             rewrite E in K; discriminate.
    + rewrite IH. split.
      * intros H x [<-|Hx]; [now right|now apply H].
      * intros H x Hx. apply H. now right.
Qed.

(** X15. The participant count of Google Meet never throws and is never
    below -1.  It is 0, the value that starts the timer of the empty
    meeting, in two cases: the page says that the bot is alone, whatever
    tiles it shows, or the selectors find one tile at most, the bot's own.
    It is -1 exactly when the page does not say so and no selector finds
    an element. *)
Theorem meet_participant_count (page : Page) :
  exists n,
    GoogleMeetPlatform.getParticipantCount page = Ok n
    /\ (-1 <= n)%Z
    /\ (_pageContainsAny page GoogleMeetPlatform.aloneIndicators = true ->
        n = 0%Z)
    /\ (n = (-1)%Z
        <-> _pageContainsAny page GoogleMeetPlatform.aloneIndicators = false
            /\ forall sel, In sel GoogleMeetPlatform.participantSelectors ->
                 queryAll page sel = Ok 0%nat \/ queryAll page sel = Throws)
    /\ (_pageContainsAny page GoogleMeetPlatform.aloneIndicators = false ->
        (0 < GoogleMeetPlatform.maxElements page
               GoogleMeetPlatform.participantSelectors 0)%nat ->
        n = (Z.of_nat (GoogleMeetPlatform.maxElements page
                         GoogleMeetPlatform.participantSelectors 0) - 1)%Z).
Proof.
  unfold GoogleMeetPlatform.getParticipantCount.
  pose proof (maxElements_zero page GoogleMeetPlatform.participantSelectors)
    as Hz.
  set (k := GoogleMeetPlatform.maxElements page
              GoogleMeetPlatform.participantSelectors 0) in *.
  destruct (_pageContainsAny page GoogleMeetPlatform.aloneIndicators).
  - exists 0%Z. repeat split; try lia; try discriminate.
  - destruct (0 <? k)%nat eqn:E.
    + apply Nat.ltb_lt in E. exists (Z.max 0 (Z.of_nat k - 1)).
      repeat split; try lia; try discriminate.
      intros [_ H]. apply Hz in H. lia.
    + apply Nat.ltb_ge in E. exists (-1)%Z.
      repeat split; try lia; try discriminate.
      apply Hz. lia.
Qed.

End ProbeFacts.

(* ================================================================== *)
(** ** whatsapp-watcher.js: the life of the daemon *)
(* ================================================================== *)

Module DaemonFacts.
Import JsString Proc ProcFacts Hoare HoareFacts WhatsAppWatcher WatcherMore.

Ltac watcher_prim :=
  progress unfold call, processExit, update, updateFs, emit.

Ltac watcher_walk :=
  repeat (wp_step watcher_prim; cbv beta; cbn [self fs trace]).

Section Call.
Variable cs : CallScript.

(** [processCallEnd] returns with the watcher idle and the call
    forgotten. *)
Lemma processCallEnd_spec (w : World) :
  wp (processCallEnd cs)
    (fun _ w' =>
       state (self w') = IDLE /\ currentCall (self w') = None
       /\ recordingPath (self w') = None /\ callStartedAt (self w') = None
       /\ running (self w') = running (self w)
       /\ callCount (self w') = callCount (self w))
    neverW never w.
Proof.
  unfold processCallEnd, stopRecording, transcribe, generateMetadata.
  watcher_walk.
  all: repeat split.
Qed.

(** One turn of the call loop neither ends the process nor changes
    whether the watcher runs. *)
Lemma callTick_spec (maxDurationMs : Z) (confirmed : bool) (t : CallTick)
  (w : World) :
  wp (callTick cs maxDurationMs confirmed t)
    (fun _ w' => running (self w') = running (self w)
                 /\ callCount (self w') = callCount (self w))
    (fun _ => True) never w.
Proof.
  unfold callTick. watcher_walk. all: try exact I. all: now split.
Qed.

Lemma callLoop_spec (maxDurationMs : Z) (pending : list CallTick)
  (confirmed : bool) (w : World) :
  wp (callLoop cs maxDurationMs confirmed pending)
    (fun _ w' => running (self w') = running (self w)
                 /\ callCount (self w') = callCount (self w))
    (fun _ => True) never w.
Proof.
  revert confirmed w.
  induction pending as [|t rest IH]; intros confirmed w; unfold wp;
    cbn [callLoop].
  - now destruct (STATE_eqb (state (self w)) IN_CALL && running (self w)).
  - destruct (STATE_eqb (state (self w)) IN_CALL && running (self w));
      [|now split].
    change (wp (r <- callTick cs maxDurationMs confirmed t ;;
                match r with
                | (Break, _) => ret tt
                | (Continue, confirmed') =>
                    callLoop cs maxDurationMs confirmed' rest
                end)
              (fun _ w' => running (self w') = running (self w)
                           /\ callCount (self w') = callCount (self w))
              (fun _ => True) never w).
    apply wp_bind.
    eapply wp_mono; [apply callTick_spec| |auto|auto].
    intros [[] confirmed'] w1 [H1 H2]; cbv beta.
    + eapply wp_mono; [apply IH| |auto|auto].
      cbv beta. intros _ w2 [H3 H4]. split; congruence.
    + now apply wp_ret.
Qed.

(** [monitorCall] returns with the watcher idle, or throws (the hang-up
    can), or is still watching the call. *)
Lemma monitorCall_spec (w : World) :
  wp (monitorCall cs)
    (fun _ w' =>
       state (self w') = IDLE /\ currentCall (self w') = None
       /\ recordingPath (self w') = None /\ callStartedAt (self w') = None
       /\ running (self w') = running (self w)
       /\ callCount (self w') = callCount (self w))
    (fun _ => True) never w.
Proof.
  unfold monitorCall. apply wp_bind, wp_get. apply wp_bind.
  eapply wp_mono; [apply callLoop_spec| |auto|auto].
  cbv beta. intros _ w1 [H1 H2].
  eapply wp_mono; [apply processCallEnd_spec| |intros ? []|auto].
  cbv beta. intros _ w2 (A & B & C & D & E & F).
  repeat split; congruence.
Qed.

Ltac call_prim :=
  first [ eapply wp_mono; [apply monitorCall_spec| |auto|auto]
        | watcher_prim ].

Ltac call_walk :=
  repeat (wp_step call_prim; cbv beta; cbn [self fs trace]).

(** What the branches taken say about the call. *)
Ltac call_facts :=
  repeat match goal with
         | H : Ok _ = Ok _ |- _ => injection H as H
         | H : Ok _ = Throws |- _ => discriminate H
         | H : negb _ = true |- _ => apply negb_true_iff in H
         | H : negb _ = false |- _ => apply negb_false_iff in H
         end.

(** What handling a call leaves of the watcher when it returns. *)
Lemma handleIncomingCall_spec (callInfo : CallInfo) (w : World) :
  wp (handleIncomingCall cs callInfo)
    (fun _ w' =>
       state (self w') = IDLE /\ currentCall (self w') = None
       /\ running (self w') = running (self w)
       /\ callCount (self w')
          = (callCount (self w)
             + if answers cs w callInfo then 1 else 0)%nat)
    (fun _ => True) never w.
Proof.
  unfold handleIncomingCall, answerAfterDelay, answerAndRecord, recordCall,
    abandonCall, startRecording, routeAudio.
  call_walk.
  all: try exact I.
  all: try (cbv beta; intros ? ? (? & ? & ? & ? & ? & ?)).
  all: call_facts; subst.
  all: unfold answers, verdict.
  all: cbn [self config set_currentCall set_state set_callStartedAt
              set_callCount set_recordingPath state currentCall running
              callCount] in *.
  all: repeat match goal with
              | H : _ = true |- _ => rewrite H
              | H : _ = false |- _ => rewrite H
              end.
  all: cbn [andb orb negb].
  all: repeat split; try congruence; try lia.
Qed.

End Call.

(** X16. Whenever handling a call returns, the watcher is idle again
    with no call in hand, and its counter of calls has grown by one exactly
    when the call was answered: the caller passed the lists, the call still
    rang after the delay and the answer button was found.  Handling a call
    never ends the process. *)
Theorem handled_call_leaves_watcher_idle (cs : CallScript)
  (callInfo : CallInfo) (w : World) :
  (forall w', handleIncomingCall cs callInfo w = Ret tt w' ->
     state (self w') = IDLE /\ currentCall (self w') = None
     /\ running (self w') = running (self w)
     /\ callCount (self w')
        = (callCount (self w) + if answers cs w callInfo then 1 else 0)%nat)
  /\ (forall code w', handleIncomingCall cs callInfo w <> Exit code w').
Proof.
  pose proof (handleIncomingCall_spec cs callInfo w) as H. split.
  - intros w' E. exact (wp_Ret _ _ _ _ _ _ _ H E).
  - intros code w' E. exact (wp_Exit _ _ _ _ _ _ _ H E).
Qed.

Lemma handled_call_leaves_watcher_idle_witness :
  exists w',
    handleIncomingCall Examples.callScript (Examples.callFrom "Dana")
      (Examples.idleWatcher ["*"] []) = Ret tt w'
    /\ state (self w') = IDLE /\ callCount (self w') = 1%nat.
Proof.
  exists (final (handleIncomingCall Examples.callScript
                   (Examples.callFrom "Dana") (Examples.idleWatcher ["*"] []))).
  assert (E : handleIncomingCall Examples.callScript (Examples.callFrom "Dana")
                (Examples.idleWatcher ["*"] [])
              = Ret tt (final (handleIncomingCall Examples.callScript
                                 (Examples.callFrom "Dana")
                                 (Examples.idleWatcher ["*"] [])))).
  { vm_compute. reflexivity. }
  split; [exact E|].
  destruct (proj1 (handled_call_leaves_watcher_idle Examples.callScript
                     (Examples.callFrom "Dana") (Examples.idleWatcher ["*"] []))
              _ E) as (A & _ & _ & D).
  split; [exact A|]. rewrite D. vm_compute. reflexivity.
Defined.

(** *** The polling loop *)

Lemma pollBody_not_idle (p : Poll) (w : World) :
  state (self w) <> IDLE -> pollBody p w = Ret tt w.
Proof.
  intros H. unfold pollBody. cbv [bind get ret].
  destruct (state (self w)); try reflexivity. now elim H.
Qed.

(** A watcher that is not idle looks at nothing: the loop turns without a
    call to the page and without a change of state. *)
Lemma pollLoop_not_idle (polls : list Poll) (w : World) :
  running (self w) = true -> state (self w) <> IDLE ->
  pollLoop polls w = Waiting w.
Proof.
  intros Hr Hs. induction polls as [|p rest IH]; cbn [pollLoop]; rewrite Hr;
    [reflexivity|].
  cbv [bind tryCatch]. now rewrite (pollBody_not_idle p w Hs).
Qed.

(** X17. A watcher that finds WhatsApp Web logged out and is not logged
    in again within the minute it waits stays in the error state as long
    as it runs: the loop goes on turning, but it makes no further call to
    the page, whatever the later polls would show, be it an incoming call
    or a page that is logged in again. *)
Theorem logged_out_watcher_stays_in_error (p : Poll) (rest : list Poll)
  (w : World) :
  running (self w) = true -> state (self w) = IDLE ->
  detected (incoming p) = false ->
  authState p = qr_code -> reauthed p = false ->
  exists w',
    pollLoop (p :: rest) w = Waiting w'
    /\ state (self w') = ERROR
    /\ trace w' = (trace w ++ [DetectIncomingCall; CheckAuthState; WaitForAuth])%list
    /\ fs w' = fs w.
Proof.
  intros Hr Hs Hd Ha Hre.
  set (w' := mkWorld (set_state ERROR (self w)) (fs w)
               (trace w ++ [DetectIncomingCall; CheckAuthState; WaitForAuth])%list).
  assert (E : pollBody p w = Ret tt w').
  { unfold pollBody, call. cbv [bind get ret tryCatch emit update modify await].
    cbn [self fs trace]. rewrite Hs, Hd, Ha, Hre. cbn [STATE_eqb negb].
    subst w'. cbn [self fs trace]. now rewrite <- !app_assoc. }
  exists w'. split; [|now repeat split].
  cbn [pollLoop]. rewrite Hr. cbv [bind tryCatch]. rewrite E.
  apply pollLoop_not_idle; [subst w'; cbn; now destruct (self w)|].
  subst w'. cbn. discriminate.
Qed.

Lemma logged_out_watcher_stays_in_error_witness :
  exists w',
    pollLoop [ MoreExamples.loggedOutPoll; MoreExamples.callPoll "Dana" ]
      (MoreExamples.pollingWatcher ["*"] []) = Waiting w'
    /\ state (self w') = ERROR
    /\ trace w' = ([] ++ [DetectIncomingCall; CheckAuthState; WaitForAuth])%list
    /\ fs w' = Fs.empty.
Proof.
  apply (logged_out_watcher_stays_in_error MoreExamples.loggedOutPoll);
    reflexivity.
Defined.

(** X18. A call that throws while it is handled leaves the watcher
    ringing unless Chrome can be reached again: when the recovery cannot
    reconnect, the state stays as the call left it, and from then on the
    loop makes no call to the page.  Here for a refused caller whose
    decline button throws. *)
Theorem failed_recovery_leaves_watcher_ringing (p : Poll) (rest : list Poll)
  (w : World) :
  running (self w) = true -> state (self w) = IDLE ->
  detected (incoming p) = true ->
  verdict w (incoming p) = false ->
  declineCall (handling p) = Throws ->
  reconnect p = Throws ->
  exists w',
    pollLoop (p :: rest) w = Waiting w'
    /\ state (self w') = RINGING
    /\ trace w' = (trace w ++ [DetectIncomingCall; DeclineCall; ConnectChrome])%list
    /\ fs w' = fs w.
Proof.
  intros Hr Hs Hd Hv Hdec Hrec. unfold verdict in Hv.
  set (w' := mkWorld
               (set_currentCall
                  (Some (mkCaller (callerOf (incoming p))
                           (isVideo (incoming p))
                           (detectedClock (handling p)) false false None))
                  (set_state RINGING (self w)))
               (fs w)
               (trace w ++ [DetectIncomingCall; DeclineCall; ConnectChrome])%list).
  assert (E : (tryCatch (pollBody p) (recover p)) w = Ret tt w').
  { unfold pollBody, recover, handleIncomingCall, connectBrowser, call.
    cbv [bind get ret tryCatch emit update modify await raise].
    cbn [self fs trace config set_state set_currentCall].
    rewrite Hs, Hd. cbn [STATE_eqb negb].
    cbn [self fs trace config set_state set_currentCall].
    rewrite Hv, Hdec. cbn [negb]. cbn [self fs trace]. rewrite Hrec.
    subst w'. cbn [self fs trace]. now rewrite <- !app_assoc. }
  exists w'. split; [|now repeat split].
  cbn [pollLoop]. rewrite Hr. unfold bind at 1. rewrite E.
  apply pollLoop_not_idle; [subst w'; cbn; now destruct (self w)|].
  subst w'. cbn. discriminate.
Qed.

Lemma failed_recovery_leaves_watcher_ringing_witness :
  exists w',
    pollLoop [ mkPoll (Examples.callFrom "Spam Caller")
                 (mkCallScript 1000 Throws (Examples.callFrom "Spam Caller")
                    true 4000 "2026-02-19T14-30-00" (Ok None) true []
                    (Ok true) 12000 (Ok tt) false "hello" Throws)
                 logged_in true Throws true;
               MoreExamples.callPoll "Dana" ]
      (MoreExamples.pollingWatcher ["*"] ["spam*"]) = Waiting w'
    /\ state (self w') = RINGING
    /\ trace w' = ([] ++ [DetectIncomingCall; DeclineCall; ConnectChrome])%list
    /\ fs w' = Fs.empty.
Proof.
  apply (failed_recovery_leaves_watcher_ringing
           (mkPoll (Examples.callFrom "Spam Caller")
              (mkCallScript 1000 Throws (Examples.callFrom "Spam Caller")
                 true 4000 "2026-02-19T14-30-00" (Ok None) true []
                 (Ok true) 12000 (Ok tt) false "hello" Throws)
              logged_in true Throws true));
    reflexivity.
Defined.

(** *** Starting up *)

(** X19. The three ways the watcher fails to start: Chrome cannot be
    reached, WhatsApp Web cannot be opened, or it is not logged in within
    three minutes.  Each ends the process with status 1 before the first
    poll; no session record is written, and the PID file, written before
    anything else, is left on disk. *)
Theorem watcher_startup_failures (s : Script) (files : Fs.t) :
  connectChrome s = Throws \/ whatsAppOpen s = false \/ authed s = false ->
  exists w,
    run s (start files) = Exit 1 w
    /\ fs w (pidFile (config (self w))) = Some Fs.Pid
    /\ (forall path, ~ In (WriteSession path) (trace w))
    /\ ~ In DetectIncomingCall (trace w)
    /\ ~ In SetupAudio (trace w).
Proof.
  intros H. unfold run, loadConfig, connectBrowser, call, processExit.
  destruct (configFile s) as [c|];
    destruct (connectChrome s) as [[]|] eqn:E1;
    destruct (whatsAppOpen s) eqn:E2;
    destruct (authed s) eqn:E3;
    try (exfalso; destruct H as [H|[H|H]]; discriminate H);
    cbv [tryCatch bind get update updateFs modify emit await ret exit start
         negb];
    cbn [self fs trace config set_config set_running set_connected set_state];
    eexists; (split; [reflexivity|]); cbn [self fs trace config set_config
      set_running set_connected set_state];
    (split; [unfold Fs.writeFileSync; now rewrite String.eqb_refl|]);
    cbn [In app]; repeat split; try intros path; intuition discriminate.
Qed.

Lemma watcher_startup_failures_witness :
  exists w,
    run Examples.unattachedWatcher (start Fs.empty) = Exit 1 w
    /\ fs w (pidFile (config (self w))) = Some Fs.Pid.
Proof.
  destruct (watcher_startup_failures Examples.unattachedWatcher Fs.empty)
    as (w & E & F & _).
  - left. reflexivity.
  - now exists w.
Defined.

(** *** The longest call *)

Lemma callTick_goes_on (cs : CallScript) (maxDurationMs : Z)
  (confirmed : bool) (t : CallTick) (w : World) (t0 : Z) :
  callStartedAt (self w) = Some t0 ->
  callGoesOn t -> (now t - t0 <= maxDurationMs)%Z ->
  callTick cs maxDurationMs confirmed t w
  = Ret (Continue, if inCall t then true else confirmed)
      (mkWorld (self w) (fs w)
         (trace w ++ [VerifyInMeeting;
                      CheckCallEnded (if inCall t then true else confirmed)])%list).
Proof.
  intros Hs Hg Hn. unfold callTick, call.
  cbv [bind get ret emit update modify await]. cbn [self fs trace].
  rewrite (Hg (if inCall t then true else confirmed)).
  cbv beta iota. cbn [self fs trace]. rewrite Hs.
  apply Z.ltb_ge in Hn. rewrite Hn. now rewrite <- !app_assoc.
Qed.

Lemma callTick_too_long (cs : CallScript) (maxDurationMs : Z)
  (confirmed : bool) (t : CallTick) (w : World) (t0 : Z) (hungUp : bool) :
  callStartedAt (self w) = Some t0 ->
  callGoesOn t -> (maxDurationMs < now t - t0)%Z ->
  endCall cs = Ok hungUp ->
  callTick cs maxDurationMs confirmed t w
  = Ret (Break, if inCall t then true else confirmed)
      (mkWorld (set_state CALL_ENDED (self w)) (fs w)
         (trace w ++ [VerifyInMeeting;
                      CheckCallEnded (if inCall t then true else confirmed);
                      EndCall])%list).
Proof.
  intros Hs Hg Hn He. unfold callTick, call.
  cbv [bind get ret emit update modify await]. cbn [self fs trace].
  rewrite (Hg (if inCall t then true else confirmed)).
  cbv beta iota. cbn [self fs trace]. rewrite Hs.
  apply Z.ltb_lt in Hn. rewrite Hn, He. cbv beta iota. cbn [self fs trace].
  now rewrite <- !app_assoc.
Qed.

(** X20. No call is watched past the longest duration.  As long as the
    page does not show the end of the call, the loop of [monitorCall]
    goes on without hanging up while the call is within the limit, and at
    the first turn past the limit it hangs up, once, and leaves the loop
    with the call ended; the turns that would follow are not looked at. *)
Theorem overlong_call_is_hung_up (cs : CallScript) (maxDurationMs t0 : Z)
  (hungUp : bool) (within : list CallTick) (t : CallTick)
  (later : list CallTick) (confirmed : bool) (w : World) :
  state (self w) = IN_CALL -> running (self w) = true ->
  callStartedAt (self w) = Some t0 ->
  endCall cs = Ok hungUp ->
  Forall (fun x => callGoesOn x /\ (now x - t0 <= maxDurationMs)%Z) within ->
  callGoesOn t -> (maxDurationMs < now t - t0)%Z ->
  exists w' evs,
    callLoop cs maxDurationMs confirmed (within ++ t :: later) w = Ret tt w'
    /\ self w' = set_state CALL_ENDED (self w)
    /\ fs w' = fs w
    /\ trace w' = (trace w ++ evs ++ [EndCall])%list
    /\ ~ In EndCall evs.
Proof.
  intros Hst Hr Hs He Hwithin Hg Hn. revert confirmed w Hst Hr Hs.
  induction Hwithin as [|x within [Hx Hxn] _ IH]; intros confirmed w Hst Hr Hs.
  - cbn [app callLoop]. rewrite Hst, Hr. cbn [STATE_eqb andb].
    unfold bind at 1.
    rewrite (callTick_too_long cs maxDurationMs confirmed t w t0 hungUp
               Hs Hg Hn He).
    eexists. exists [VerifyInMeeting;
                     CheckCallEnded (if inCall t then true else confirmed)].
    split; [reflexivity|]. cbn [self fs trace]. repeat split.
    intros [H|[H|[]]]; discriminate H.
  - cbn [app callLoop]. rewrite Hst, Hr. cbn [STATE_eqb andb].
    unfold bind at 1.
    rewrite (callTick_goes_on cs maxDurationMs confirmed x w t0 Hs Hx Hxn).
    destruct (IH (if inCall x then true else confirmed)
                (mkWorld (self w) (fs w)
                   (trace w ++ [VerifyInMeeting;
                                CheckCallEnded
                                  (if inCall x then true else confirmed)])%list)
                Hst Hr Hs) as (w' & evs & E & A & B & C & D).
    exists w', ([VerifyInMeeting;
                 CheckCallEnded (if inCall x then true else confirmed)] ++ evs)%list.
    split; [exact E|]. cbn [self fs trace] in *.
    split; [exact A|]. split; [exact B|].
    split; [rewrite C; now rewrite <- !app_assoc|].
    intros H. apply in_app_or in H as [[H|[H|[]]]|H]; try discriminate H.
    now apply D.
Qed.

Lemma overlong_call_is_hung_up_witness :
  exists w' evs,
    callLoop Examples.callScript 7200000 false
      ([ mkCallTick true Examples.loadingPage 60000 ]
       ++ mkCallTick true Examples.loadingPage 7210000
          :: [ mkCallTick true Examples.loadingPage 7212000 ])
      (mkWorld (set_callStartedAt (Some 4000%Z)
                  (set_state IN_CALL
                     (self (MoreExamples.pollingWatcher ["*"] []))))
         Fs.empty [])
    = Ret tt w'
    /\ trace w' = ([] ++ evs ++ [EndCall])%list
    /\ ~ In EndCall evs.
Proof.
  destruct (overlong_call_is_hung_up Examples.callScript 7200000 4000 true
              [ mkCallTick true Examples.loadingPage 60000 ]
              (mkCallTick true Examples.loadingPage 7210000)
              [ mkCallTick true Examples.loadingPage 7212000 ] false
              (mkWorld (set_callStartedAt (Some 4000%Z)
                          (set_state IN_CALL
                             (self (MoreExamples.pollingWatcher ["*"] []))))
                 Fs.empty []))
    as (w' & evs & E & _ & _ & T & N); try reflexivity.
  - constructor; [split; [intros []; reflexivity | cbn; lia] | constructor].
  - intros []; reflexivity.
  - now exists w', evs.
Defined.

(** *** The name of a recording *)

Lemma dashed_chars (caller : string) :
  Text.all isCallNameChar (dashed caller) = true.
Proof.
  unfold Text.all. induction caller as [|c caller IH]; [reflexivity|].
  cbn [dashed list_ascii_of_string forallb]. rewrite IH, andb_true_r.
  unfold isCallNameChar. destruct (isAlnum c) eqn:E; [now rewrite E|reflexivity].
Qed.

Lemma dashed_length (caller : string) :
  String.length (dashed caller) = String.length caller.
Proof. induction caller as [|c caller IH]; cbn; [reflexivity|now rewrite IH]. Qed.

Lemma substring_head (n : nat) (text : string) :
  String.length (String.substring 0 n text) = Nat.min n (String.length text)
  /\ (forall f, Text.all f text = true ->
                Text.all f (String.substring 0 n text) = true).
Proof.
  revert n. unfold Text.all.
  induction text as [|c text IH]; intros [|n]; cbn; try (split; auto; fail).
  destruct (IH n) as [L A]. split; [now rewrite L|].
  intros f H. apply andb_true_iff in H as [Hc Ht]. now rewrite Hc, (A f Ht).
Qed.

(** X21. Whatever the caller is called, the caller's part of the name
    under which a call is recorded, between whatsapp- and the time stamp,
    has the length of the caller's name, 30 characters at most, and each
    of them is a letter, a digit or a dash. *)
Theorem callName_characters (cs : CallScript) (caller : string) :
  exists part,
    callName cs caller = "whatsapp-" ++ part ++ "-" ++ callStamp cs
    /\ String.length part = Nat.min 30 (String.length caller)
    /\ Text.all isCallNameChar part = true.
Proof.
  exists (String.substring 0 30 (dashed caller)).
  destruct (substring_head 30 (dashed caller)) as [L A].
  split; [reflexivity|]. split.
  - now rewrite L, dashed_length.
  - apply A, dashed_chars.
Qed.

End DaemonFacts.
